(** * RAG-Chat: retrieval and ranking core

    A shallow embedding of the chunker, the embedding client, the sparse
    index, the hybrid retriever, the reranker and the pipeline orchestrator
    of the RAG-Chat backend, together with the properties the design
    document states about them.

    Conventions of the embedding:
    - Python [float] values are idealised as real numbers ([R]); Python
      [int] values are [Z] (or [nat] where the code only counts).
    - Python [str] is [string]; the character classes used ([str.strip],
      [str.split], [str.lower]) are the ASCII ones.
    - A Python [dict] whose iteration order matters is an association list
      in insertion order.
    - A raised exception is the [Raise] branch of the [Exc] type. *)

From Stdlib Require Import Reals Lra Lia ZArith List Bool Ascii String.
From Stdlib Require Import Permutation Sorted DecimalString DecimalNat.
Import ListNotations.

Local Open Scope string_scope.
Local Open Scope list_scope.
Local Open Scope nat_scope.

Set Implicit Arguments.

(* ------------------------------------------------------------------ *)
(** * Python preliminaries *)
(* ------------------------------------------------------------------ *)

Module Py.

(** Exceptions are values; [Raise e] aborts the rest of the computation. *)
Inductive Exc (E A : Type) : Type :=
| Return (a : A)
| Raise (e : E).
Arguments Return {E A} a.
Arguments Raise {E A} e.

(** Values stored in the untyped dictionaries that the retriever only
    passes through. *)
Inductive Value : Type :=
| VNone
| VStr (s : string)
| VInt (z : Z)
| VFloat (r : R).

Definition Dict := list (string * Value).

(** [l[:n]] for a Python int [n]: a negative [n] counts from the end. *)
Definition slice_to {A} (n : Z) (l : list A) : list A :=
  if (n <? 0)%Z
  then firstn (List.length l - Z.to_nat (- n)) l
  else firstn (Z.to_nat n) l.

(** [str(n)] for a non-negative int. *)
Definition str_of_nat (n : nat) : string :=
  NilZero.string_of_uint (Nat.to_uint n).

(** [str.isspace] on one ASCII character: TAB, LF, VT, FF, CR, the four
    separators FS..US, and the space. *)
Definition is_space (c : ascii) : bool :=
  let n := nat_of_ascii c in
  ((9 <=? n) && (n <=? 13)) || ((28 <=? n) && (n <=? 32)).

Fixpoint lstrip (s : string) : string :=
  match s with
  | EmptyString => EmptyString
  | String c s' => if is_space c then lstrip s' else s
  end.

(** [rstrip] keeps a character when it is not a space or when something
    survives to its right. *)
Fixpoint rstrip (s : string) : string :=
  match s with
  | EmptyString => EmptyString
  | String c s' =>
      match rstrip s' with
      | EmptyString => if is_space c then EmptyString else String c EmptyString
      | r => String c r
      end
  end.

Definition strip (s : string) : string := rstrip (lstrip s).

(** Python truthiness of a string. *)
Definition truthy (s : string) : bool :=
  match s with
  | EmptyString => false
  | _ => true
  end.

(** [str.lower], ASCII letters only. *)
Definition lower_ascii (c : ascii) : ascii :=
  let n := nat_of_ascii c in
  if (65 <=? n) && (n <=? 90) then ascii_of_nat (n + 32) else c.

Fixpoint lower (s : string) : string :=
  match s with
  | EmptyString => EmptyString
  | String c s' => String (lower_ascii c) (lower s')
  end.

(** [str.split()] without argument: maximal runs of non-space characters.
    [cur] is the word being read, reversed. *)
Fixpoint split_ws (cur : list ascii) (s : string) : list string :=
  match s with
  | EmptyString =>
      match cur with
      | [] => []
      | _ => [string_of_list_ascii (rev cur)]
      end
  | String c s' =>
      if is_space c then
        match cur with
        | [] => split_ws [] s'
        | _ => string_of_list_ascii (rev cur) :: split_ws [] s'
        end
      else split_ws (c :: cur) s'
  end.

Definition split (s : string) : list string := split_ws [] s.

(** [sorted(l, key=key, reverse=True)]: a stable sort into descending key
    order; elements with equal keys keep their input order. *)
Fixpoint insert_desc {A} (key : A -> R) (x : A) (l : list A) : list A :=
  match l with
  | [] => [x]
  | y :: l' =>
      if Rlt_dec (key x) (key y)
      then y :: insert_desc key x l'
      else x :: y :: l'
  end.

Definition sorted_reverse {A} (key : A -> R) (l : list A) : list A :=
  fold_right (insert_desc key) [] l.

(** [d.get(key, default)] on an optional entry. *)
Definition or_default {A} (o : option A) (d : A) : A :=
  match o with
  | Some a => a
  | None => d
  end.

(** Insertion-ordered dictionaries with string keys: [d.get(k)],
    [k in d] and [d[k] = v].  Assigning to an existing key keeps the
    position of the key and replaces the value. *)
Fixpoint dict_get {V} (k : string) (d : list (string * V)) : option V :=
  match d with
  | [] => None
  | (k', v) :: d' => if String.eqb k k' then Some v else dict_get k d'
  end.

Fixpoint dict_set {V} (k : string) (v : V) (d : list (string * V))
  : list (string * V) :=
  match d with
  | [] => [(k, v)]
  | (k', v') :: d' =>
      if String.eqb k k' then (k, v) :: d' else (k', v') :: dict_set k v d'
  end.

End Py.

Import Py.

(* ------------------------------------------------------------------ *)
(** * services/hybrid_search.py *)
(* ------------------------------------------------------------------ *)

(** A hit of either retrieval path:
    [{'chunk_id', 'score', 'content', 'metadata'}]; only ['score'] is read
    with [.get]. *)
Record Hit := {
  hit_chunk_id : string;
  hit_score : option R;
  hit_content : string;
  hit_metadata : Dict
}.

(** The external collaborators of the retriever: the dense vector store
    ([VectorStore.similarity_search], whose exceptions are [StoreError]),
    the [rank_bm25] index and [numpy.argsort]. *)
Class VectorStore := {
  StoreError : Type;
  similarity_search : string -> Z -> option Dict -> Exc StoreError (list Hit)
}.

Class RankBM25 := {
  BM25Okapi : Type;
  BM25Okapi_new : list (list string) -> BM25Okapi;
  get_scores : BM25Okapi -> list string -> list R;
  argsort : list R -> list nat
}.

Module HybridSearch.

(** A chunk handed to [index_for_bm25]. *)
Record IndexedChunk := {
  ic_chunk_id : option string;
  ic_content : string;
  ic_metadata : option Dict
}.

(** The value stored under a chunk id in [fused_scores]; an absent
    ['dense_score'] or ['sparse_score'] key is [None]. *)
Record FusedData := {
  score : R;
  content : string;
  metadata : Dict;
  dense_rank : option Z;
  sparse_rank : option Z;
  dense_score : option R;
  sparse_score : option R
}.

(** [{'chunk_id': cid, **data}] *)
Record FusedResult := {
  chunk_id : string;
  data : FusedData
}.

(** The sort key [lambda x: x['score']]. *)
Definition fused_score (x : FusedResult) : R := score (data x).

(** [{'chunk_id': cid, **data} for cid, data in fused_scores.items()] *)
Definition result_of_item (item : string * FusedData) : FusedResult :=
  {| chunk_id := fst item; data := snd item |}.

Section WithIndex.
Context {bm25 : RankBM25}.

(** The mutable attributes of a [HybridSearch] object. *)
Record t := {
  bm25_index : option BM25Okapi;
  bm25_corpus : list string;
  bm25_metadata : list IndexedChunk
}.

Definition __init__ : t :=
  {| bm25_index := None; bm25_corpus := []; bm25_metadata := [] |}.

Definition index_for_bm25 (self : t) (chunks : list IndexedChunk) : t :=
  match chunks with
  | [] => {| bm25_index := None; bm25_corpus := []; bm25_metadata := [] |}
  | _ =>
      let corpus := map ic_content chunks in
      let tokenized_corpus := map (fun doc => split (lower doc)) corpus in
      {| bm25_index := Some (BM25Okapi_new tokenized_corpus);
         bm25_corpus := corpus;
         bm25_metadata := chunks |}
  end.

(** The body of the loop over [top_indices]. An index outside the corpus
    cannot come out of [argsort]; such an index contributes nothing. *)
Definition bm25_result (self : t) (scores : list R) (idx : nat) : list Hit :=
  match nth_error scores idx, nth_error (bm25_metadata self) idx,
        nth_error (bm25_corpus self) idx with
  | Some s, Some chunk, Some doc =>
      if Rgt_dec s 0 then
        [ {| hit_chunk_id := or_default (ic_chunk_id chunk) ("bm25_" ++ str_of_nat idx)%string;
             hit_score := Some s;
             hit_content := doc;
             hit_metadata := or_default (ic_metadata chunk) [] |} ]
      else []
  | _, _, _ => []
  end.

Definition _bm25_search (self : t) (query : string) (top_k : Z) : list Hit :=
  match bm25_index self with
  | None => []
  | Some index =>
      let tokenized_query := split (lower query) in
      let scores := get_scores index tokenized_query in
      let top_indices := slice_to top_k (rev (argsort scores)) in
      flat_map (bm25_result self scores) top_indices
  end.

End WithIndex.

(** The three dictionaries the fusion stores under a chunk id: a hit of the
    dense list, a hit of the sparse list whose id is already there, and a
    hit of the sparse list whose id is new. *)
Definition dense_entry (dense_weight : R) (k : nat) (rank : Z) (result : Hit) : FusedData :=
  {| score := dense_weight / IZR (Z.of_nat k + rank);
     content := hit_content result;
     metadata := hit_metadata result;
     dense_rank := Some rank;
     sparse_rank := None;
     dense_score := Some (or_default (hit_score result) 0%R);
     sparse_score := None |}.

Definition both_entry (sparse_weight : R) (k : nat) (rank : Z) (result : Hit)
    (d : FusedData) : FusedData :=
  {| score := score d + sparse_weight / IZR (Z.of_nat k + rank);
     content := content d;
     metadata := metadata d;
     dense_rank := dense_rank d;
     sparse_rank := Some rank;
     dense_score := dense_score d;
     sparse_score := Some (or_default (hit_score result) 0%R) |}.

Definition sparse_entry (sparse_weight : R) (k : nat) (rank : Z) (result : Hit) : FusedData :=
  {| score := sparse_weight / IZR (Z.of_nat k + rank);
     content := hit_content result;
     metadata := hit_metadata result;
     dense_rank := None;
     sparse_rank := Some rank;
     dense_score := None;
     sparse_score := Some (or_default (hit_score result) 0%R) |}.

(** First loop of the fusion: [for rank, result in enumerate(dense_results, 1)],
    from rank [rank] on. *)
Fixpoint add_dense (dense_weight : R) (k : nat) (rank : Z) (dense_results : list Hit)
    (fused_scores : list (string * FusedData)) : list (string * FusedData) :=
  match dense_results with
  | [] => fused_scores
  | result :: rest =>
      add_dense dense_weight k (rank + 1) rest
        (dict_set (hit_chunk_id result) (dense_entry dense_weight k rank result)
           fused_scores)
  end.

(** Second loop: [for rank, result in enumerate(sparse_results, 1)]. *)
Fixpoint add_sparse (sparse_weight : R) (k : nat) (rank : Z) (sparse_results : list Hit)
    (fused_scores : list (string * FusedData)) : list (string * FusedData) :=
  match sparse_results with
  | [] => fused_scores
  | result :: rest =>
      let chunk_id := hit_chunk_id result in
      add_sparse sparse_weight k (rank + 1) rest
        (match dict_get chunk_id fused_scores with
         | Some d =>
             dict_set chunk_id (both_entry sparse_weight k rank result d) fused_scores
         | None =>
             dict_set chunk_id (sparse_entry sparse_weight k rank result) fused_scores
         end)
  end.

(** [k] is a natural number: the only caller leaves the default 60, and
    with [k >= 0] no denominator [k + rank] is zero. *)
Definition _reciprocal_rank_fusion (dense_results sparse_results : list Hit)
    (dense_weight sparse_weight : R) (k : nat) : list FusedResult :=
  let fused_scores := add_dense dense_weight k 1 dense_results [] in
  let fused_scores := add_sparse sparse_weight k 1 sparse_results fused_scores in
  sorted_reverse fused_score (map result_of_item (fused_scores)).

Definition RRF_K : nat := 60.

Inductive Error {E : Type} : Type :=
| ValueError (msg : string)
| Propagated (e : E).
Arguments Error E : clear implicits.

Section WithStore.
Context {bm25 : RankBM25} {store : VectorStore}.

Definition hybrid_search (self : t) (query : string) (top_k : Z)
    (dense_weight sparse_weight : R) (filter_dict : option Dict)
  : Exc (Error StoreError) (list FusedResult) :=
  if Rgt_dec (Rabs (dense_weight + sparse_weight - 1.0)) 0.01 then
    Raise (ValueError "dense_weight + sparse_weight must equal 1.0")
  else
    match similarity_search query (top_k * 2) filter_dict with
    | Raise e => Raise (Propagated e)
    | Return dense_results =>
        let sparse_results := _bm25_search self query (top_k * 2) in
        let fused_results :=
          _reciprocal_rank_fusion dense_results sparse_results
            dense_weight sparse_weight RRF_K in
        Return (slice_to top_k fused_results)
    end.

End WithStore.

End HybridSearch.

(* ------------------------------------------------------------------ *)
(** * config.py *)
(* ------------------------------------------------------------------ *)

(** The fields of [Settings] that the core reads. *)
Record Settings := {
  embedding_dimension : Z;
  chunk_size : Z;
  chunk_overlap : Z;
  retrieval_top_k : Z;
  reranking_top_k : Z
}.

Definition default_settings : Settings :=
  {| embedding_dimension := 384;
     chunk_size := 512;
     chunk_overlap := 128;
     retrieval_top_k := 10;
     reranking_top_k := 5 |}.

(* ------------------------------------------------------------------ *)
(** * services/embedding_service.py *)
(* ------------------------------------------------------------------ *)

(** The sentence-transformers model: [model.encode(text)] on one string
    and [model.encode(texts)] on a list of strings. *)
Class SentenceTransformer := {
  encode : string -> list R;
  encode_batch : list string -> list (list R)
}.

Module EmbeddingService.

Section WithModel.
Context {model : SentenceTransformer}.
Variable settings : Settings.

Definition dimension : Z := embedding_dimension settings.

(** [[0.0] * self.dimension]; a non-positive dimension gives []. *)
Definition zero_vector : list R := repeat 0%R (Z.to_nat dimension).

(** [text and text.strip()] as a condition. *)
Definition non_blank (text : string) : bool :=
  truthy text && truthy (strip text).

Definition embed_text (text : string) : list R :=
  if negb (truthy text) || negb (truthy (strip text)) then zero_vector
  else encode text.

(** [for idx, text in enumerate(texts)]: the non-blank texts and their
    indices, [idx] being the index of the head of [texts]. *)
Fixpoint valid_entries (idx : nat) (texts : list string) : list (nat * string) :=
  match texts with
  | [] => []
  | text :: rest =>
      if non_blank text then (idx, text) :: valid_entries (S idx) rest
      else valid_entries (S idx) rest
  end.

(** [result[idx] = v] for an index inside the list. *)
Fixpoint list_assign {A} (idx : nat) (v : A) (l : list A) : list A :=
  match l, idx with
  | [], _ => []
  | _ :: l', O => v :: l'
  | x :: l', S i => x :: list_assign i v l'
  end.

Definition embed_batch (texts : list string) : list (list R) :=
  match texts with
  | [] => []
  | _ =>
      let valid := valid_entries 0 texts in
      let valid_texts := map snd valid in
      let valid_indices := map fst valid in
      match valid_texts with
      | [] => repeat zero_vector (List.length texts)
      | _ =>
          let embeddings := encode_batch valid_texts in
          let result := repeat zero_vector (List.length texts) in
          fold_left (fun result '(idx, embedding) => list_assign idx embedding result)
            (combine valid_indices embeddings) result
      end
  end.

End WithModel.

(** [np.dot] on two one-dimensional arrays of the same length. *)
Fixpoint dot (v1 v2 : list R) : R :=
  match v1, v2 with
  | x :: v1', y :: v2' => (x * y + dot v1' v2')%R
  | _, _ => 0%R
  end.

(** [np.linalg.norm] *)
Definition norm (v : list R) : R := sqrt (dot v v).

(** [np.dot] raises [ValueError] on arrays of different lengths. *)
Definition similarity (embedding1 embedding2 : list R) : Exc string R :=
  if Nat.eqb (List.length embedding1) (List.length embedding2) then
    let dot_product := dot embedding1 embedding2 in
    let norm1 := norm embedding1 in
    let norm2 := norm embedding2 in
    if Req_dec_T norm1 0 then Return 0%R
    else if Req_dec_T norm2 0 then Return 0%R
    else Return (dot_product / (norm1 * norm2))%R
  else Raise "shapes not aligned".

End EmbeddingService.

(* ------------------------------------------------------------------ *)
(** * agents/state.py *)
(* ------------------------------------------------------------------ *)

Module State.

(** An element of [retrieved_chunks]: the dictionary the hybrid retriever
    produces; ['score'] is the only key the reranker reads with [.get]. *)
Record RetrievedChunk := {
  chunk_id : string;
  content : string;
  metadata : Dict;
  score : option R;
  dense_rank : option Z;
  sparse_rank : option Z;
  dense_score : option R;
  sparse_score : option R
}.

(** [{**chunk, 'rerank_score': final_score, 'similarity': similarity}] *)
Record RerankedChunk := {
  chunk : RetrievedChunk;
  rerank_score : R;
  similarity : R
}.

Record AgentState := {
  query : string;
  conversation_id : option string;
  messages : list string;
  query_type : option string;
  needs_web_search : bool;
  search_keywords : list string;
  retrieved_chunks : list RetrievedChunk;
  web_results : list Dict;
  reranked_chunks : list RerankedChunk;
  generated_response : option string;
  citations : list Dict;
  final_response : option string;
  processing_steps : list string;
  error : option string
}.

Definition set_retrieved_chunks (v : list RetrievedChunk) (s : AgentState) : AgentState :=
  {| query := query s; conversation_id := conversation_id s; messages := messages s;
     query_type := query_type s; needs_web_search := needs_web_search s;
     search_keywords := search_keywords s; retrieved_chunks := v;
     web_results := web_results s; reranked_chunks := reranked_chunks s;
     generated_response := generated_response s; citations := citations s;
     final_response := final_response s; processing_steps := processing_steps s;
     error := error s |}.

Definition set_reranked_chunks (v : list RerankedChunk) (s : AgentState) : AgentState :=
  {| query := query s; conversation_id := conversation_id s; messages := messages s;
     query_type := query_type s; needs_web_search := needs_web_search s;
     search_keywords := search_keywords s; retrieved_chunks := retrieved_chunks s;
     web_results := web_results s; reranked_chunks := v;
     generated_response := generated_response s; citations := citations s;
     final_response := final_response s; processing_steps := processing_steps s;
     error := error s |}.

Definition set_processing_steps (v : list string) (s : AgentState) : AgentState :=
  {| query := query s; conversation_id := conversation_id s; messages := messages s;
     query_type := query_type s; needs_web_search := needs_web_search s;
     search_keywords := search_keywords s; retrieved_chunks := retrieved_chunks s;
     web_results := web_results s; reranked_chunks := reranked_chunks s;
     generated_response := generated_response s; citations := citations s;
     final_response := final_response s; processing_steps := v;
     error := error s |}.

Definition set_error (v : option string) (s : AgentState) : AgentState :=
  {| query := query s; conversation_id := conversation_id s; messages := messages s;
     query_type := query_type s; needs_web_search := needs_web_search s;
     search_keywords := search_keywords s; retrieved_chunks := retrieved_chunks s;
     web_results := web_results s; reranked_chunks := reranked_chunks s;
     generated_response := generated_response s; citations := citations s;
     final_response := final_response s; processing_steps := processing_steps s;
     error := v |}.

(** What a graph node does with the state it is given. The list under
    ['processing_steps'] is one object shared by the initial state and by
    every state a node sees, so a node that raises hands back, with the
    exception text, the steps appended in place so far. *)
Inductive Outcome : Type :=
| Done (s : AgentState)
| Failed (msg : string) (steps : list string).

End State.

(* ------------------------------------------------------------------ *)
(** * agents/reranking_agent.py *)
(* ------------------------------------------------------------------ *)

Module RerankingAgent.
Import State.

Section WithModel.
Context {model : SentenceTransformer}.
Variable settings : Settings.

(** The body of [for chunk in chunks]. *)
Definition score_chunk (query_embedding : list R) (chunk : RetrievedChunk)
  : Exc string RerankedChunk :=
  let chunk_embedding := EmbeddingService.embed_text settings (content chunk) in
  match EmbeddingService.similarity query_embedding chunk_embedding with
  | Raise e => Raise e
  | Return similarity =>
      let existing_score := or_default (score chunk) 0.5%R in
      let final_score := (similarity * 0.6 + existing_score * 0.4)%R in
      Return {| chunk := chunk; rerank_score := final_score; similarity := similarity |}
  end.

Fixpoint score_chunks (query_embedding : list R) (chunks : list RetrievedChunk)
  : Exc string (list RerankedChunk) :=
  match chunks with
  | [] => Return []
  | chunk :: rest =>
      match score_chunk query_embedding chunk with
      | Raise e => Raise e
      | Return scored =>
          match score_chunks query_embedding rest with
          | Raise e => Raise e
          | Return scored_rest => Return (scored :: scored_rest)
          end
      end
  end.

Definition rerank (state : AgentState) : Outcome :=
  let query := query state in
  let chunks := retrieved_chunks state in
  let steps := processing_steps state ++ ["reranking"] in
  let state := set_processing_steps steps state in
  match chunks with
  | [] => Done (set_reranked_chunks [] state)
  | _ =>
      let query_embedding := EmbeddingService.embed_text settings query in
      match score_chunks query_embedding chunks with
      | Raise e => Failed e steps
      | Return scored_chunks =>
          let scored_chunks := sorted_reverse rerank_score scored_chunks in
          let top_chunks := slice_to (reranking_top_k settings) scored_chunks in
          Done (set_reranked_chunks top_chunks state)
      end
  end.

End WithModel.
End RerankingAgent.

(* ------------------------------------------------------------------ *)
(** * agents/workflow.py *)
(* ------------------------------------------------------------------ *)

Module RAGWorkflow.
Import State.

(** The five agents a workflow is built from, each seen as a graph node. *)
Record t := {
  analyze : AgentState -> Outcome;
  retrieve : AgentState -> Outcome;
  rerank : AgentState -> Outcome;
  generate : AgentState -> Outcome;
  add_citations : AgentState -> Outcome
}.

(** [_build_graph]: a chain
    query_analysis -> retrieval -> reranking -> generation -> citation -> END. *)
Definition _build_graph (self : t) : list (AgentState -> Outcome) :=
  [analyze self; retrieve self; rerank self; generate self; add_citations self].

(** [graph.ainvoke]: the nodes run in order, each on the state the
    previous one returned; an exception raised by a node leaves the graph. *)
Fixpoint ainvoke (graph : list (AgentState -> Outcome)) (state : AgentState) : Outcome :=
  match graph with
  | [] => Done state
  | node :: rest =>
      match node state with
      | Done state' => ainvoke rest state'
      | Failed e steps => Failed e steps
      end
  end.

Definition initial_state (query : string) (conversation_id : option string) : AgentState :=
  {| State.query := query;
     State.conversation_id := conversation_id;
     messages := [];
     query_type := None;
     needs_web_search := false;
     search_keywords := [];
     retrieved_chunks := [];
     web_results := [];
     reranked_chunks := [];
     generated_response := None;
     citations := [];
     final_response := None;
     processing_steps := [];
     error := None |}.

Definition run (self : t) (query : string) (conversation_id : option string) : AgentState :=
  let initial_state := initial_state query conversation_id in
  match ainvoke (_build_graph self) initial_state with
  | Done final_state => final_state
  | Failed e steps => set_error (Some e) (set_processing_steps steps initial_state)
  end.

End RAGWorkflow.

(* ------------------------------------------------------------------ *)
(** * services/chunking_service.py *)
(* ------------------------------------------------------------------ *)

(** [RecursiveCharacterTextSplitter.split_text], configured in
    [ChunkingService.__init__]. *)
Class TextSplitter := {
  split_text : string -> list string
}.

Module ChunkingService.

Record DocumentMetadata := {
  md_doc_id : string;
  md_filename : string;
  md_file_type : string;
  md_upload_timestamp : string
}.

Record ChunkMetadata := {
  doc_id : string;
  filename : string;
  file_type : string;
  chunk_index : nat;
  page_number : option Z;
  total_chunks : option nat;
  upload_timestamp : string
}.

Record Chunk := {
  chunk_id : string;
  content : string;
  metadata : ChunkMetadata
}.

Definition set_total_chunks (total : option nat) (m : ChunkMetadata) : ChunkMetadata :=
  {| doc_id := doc_id m; filename := filename m; file_type := file_type m;
     chunk_index := chunk_index m; page_number := page_number m;
     total_chunks := total; upload_timestamp := upload_timestamp m |}.

Definition set_chunk_index (idx : nat) (m : ChunkMetadata) : ChunkMetadata :=
  {| doc_id := doc_id m; filename := filename m; file_type := file_type m;
     chunk_index := idx; page_number := page_number m;
     total_chunks := total_chunks m; upload_timestamp := upload_timestamp m |}.

Definition newline : string := String (ascii_of_nat 10) EmptyString.

(** ** The page pattern [\[Page (\d+)\]\n] and [re.split] *)

Definition is_digit (c : ascii) : bool :=
  let n := nat_of_ascii c in (48 <=? n) && (n <=? 57).

(** The longest run of digits at the head of [s], and what follows it. *)
Fixpoint span_digits (s : string) : string * string :=
  match s with
  | EmptyString => (EmptyString, EmptyString)
  | String c s' =>
      if is_digit c then
        let (ds, rest) := span_digits s' in (String c ds, rest)
      else (EmptyString, s)
  end.

Fixpoint strip_prefix (p s : string) : option string :=
  match p, s with
  | EmptyString, _ => Some s
  | String a p', String b s' => if Ascii.eqb a b then strip_prefix p' s' else None
  | String _ _, EmptyString => None
  end.

(** A match of the pattern at the head of [s]: the digits of the group and
    the number of characters matched. *)
Definition match_page (s : string) : option (string * nat) :=
  match strip_prefix "[Page " s with
  | None => None
  | Some r =>
      let (ds, r') := span_digits r in
      match ds, strip_prefix ("]" ++ newline)%string r' with
      | String _ _, Some _ => Some (ds, 6 + String.length ds + 2)
      | _, _ => None
      end
  end.

(** [re.split(page_pattern, content)]: the text before each match and the
    digits of each match, then the remaining text.  [skip] counts the
    characters of the current match still to be passed; [cur] is the text
    read since the last match, reversed. *)
Fixpoint re_split_from (skip : nat) (cur : list ascii) (s : string) : list string :=
  match s with
  | EmptyString => [string_of_list_ascii (rev cur)]
  | String c s' =>
      match skip with
      | S n => re_split_from n cur s'
      | O =>
          match match_page s with
          | Some (ds, len) =>
              string_of_list_ascii (rev cur) :: ds :: re_split_from (len - 1) [] s'
          | None => re_split_from 0 (c :: cur) s'
          end
      end
  end.

Definition re_split (content : string) : list string := re_split_from 0 [] content.

(** [int(s)] on a string of decimal digits, which is what the group of the
    page pattern holds; any other string raises [ValueError]. *)
Fixpoint int_digits (acc : Z) (s : string) : option Z :=
  match s with
  | EmptyString => Some acc
  | String c s' =>
      if is_digit c
      then int_digits (10 * acc + Z.of_nat (nat_of_ascii c - 48))%Z s'
      else None
  end.

Definition int (s : string) : Exc string Z :=
  match s with
  | EmptyString => Raise "invalid literal for int()"
  | _ =>
      match int_digits 0 s with
      | Some z => Return z
      | None => Raise "invalid literal for int()"
      end
  end.

Section WithSplitter.
Context {text_splitter : TextSplitter}.

Definition chunk_name (doc : string) (idx : nat) : string :=
  (doc ++ "_chunk_" ++ str_of_nat idx)%string.

(** ** [_chunk_with_pages] *)

(** [for chunk_text in page_chunks]: returns the grown list and the next
    [chunk_index]. *)
Fixpoint page_chunks_loop (metadata : DocumentMetadata) (page_num : Z)
    (page_chunks : list string) (chunks : list Chunk) (chunk_index : nat)
  : list Chunk * nat :=
  match page_chunks with
  | [] => (chunks, chunk_index)
  | chunk_text :: rest =>
      if String.length (strip chunk_text) <? 10 then
        page_chunks_loop metadata page_num rest chunks chunk_index
      else
        page_chunks_loop metadata page_num rest
          (chunks ++
           [ {| chunk_id := chunk_name (md_doc_id metadata) chunk_index;
                content := strip chunk_text;
                metadata :=
                  {| doc_id := md_doc_id metadata;
                     filename := md_filename metadata;
                     file_type := md_file_type metadata;
                     chunk_index := chunk_index;
                     page_number := Some page_num;
                     total_chunks := None;
                     upload_timestamp := md_upload_timestamp metadata |} |} ])
          (S chunk_index)
  end.

(** [for i in range(1, len(sections), 2): if i + 1 < len(sections): ...],
    on the sections from index [i] on. *)
Fixpoint pages_loop (metadata : DocumentMetadata) (sections : list string)
    (chunks : list Chunk) (chunk_index : nat) : Exc string (list Chunk) :=
  match sections with
  | number :: text :: rest =>
      match int number with
      | Raise e => Raise e
      | Return page_num =>
          let page_text := strip text in
          if negb (truthy page_text) || String.eqb page_text "[No text content]" then
            pages_loop metadata rest chunks chunk_index
          else
            let page_chunks := split_text page_text in
            let (chunks', chunk_index') :=
              page_chunks_loop metadata page_num page_chunks chunks chunk_index in
            pages_loop metadata rest chunks' chunk_index'
      end
  | _ => Return chunks
  end.

Definition stamp_total (total : nat) (chunk : Chunk) : Chunk :=
  {| chunk_id := chunk_id chunk;
     content := content chunk;
     metadata := set_total_chunks (Some total) (metadata chunk) |}.

Definition _chunk_with_pages (sections : list string) (metadata : DocumentMetadata)
  : Exc string (list Chunk) :=
  match pages_loop metadata (tl sections) [] 0 with
  | Raise e => Raise e
  | Return chunks =>
      let total := List.length chunks in
      Return (map (stamp_total total) chunks)
  end.

(** ** [_chunk_plain_text] *)

(** [for idx, chunk_text in enumerate(text_chunks)], from index [idx] on;
    [total] is [len(text_chunks)]. *)
Fixpoint plain_loop (metadata : DocumentMetadata) (total : nat) (idx : nat)
    (text_chunks : list string) : list Chunk :=
  match text_chunks with
  | [] => []
  | chunk_text :: rest =>
      if String.length (strip chunk_text) <? 10 then
        plain_loop metadata total (S idx) rest
      else
        {| chunk_id := chunk_name (md_doc_id metadata) idx;
           content := strip chunk_text;
           metadata :=
             {| doc_id := md_doc_id metadata;
                filename := md_filename metadata;
                file_type := md_file_type metadata;
                chunk_index := idx;
                page_number := None;
                total_chunks := Some total;
                upload_timestamp := md_upload_timestamp metadata |} |}
        :: plain_loop metadata total (S idx) rest
  end.

Definition _chunk_plain_text (content : string) (metadata : DocumentMetadata)
  : list Chunk :=
  let text_chunks := split_text content in
  plain_loop metadata (List.length text_chunks) 0 text_chunks.

Definition chunk_document (content : string) (metadata : DocumentMetadata)
  : Exc string (list Chunk) :=
  let sections := re_split content in
  if 1 <? List.length sections
  then _chunk_with_pages sections metadata
  else Return (_chunk_plain_text content metadata).

End WithSplitter.

(** ** [merge_small_chunks] *)

(** The dictionary appended when the buffer is flushed.  Subscripting a
    [buffer_metadata] that is still [None] raises [TypeError]. *)
Definition flush (merged : list Chunk) (buffer : string)
    (buffer_metadata : option ChunkMetadata) : Exc string (list Chunk) :=
  match buffer_metadata with
  | Some m =>
      Return (merged ++
              [ {| chunk_id := (doc_id m ++ "_chunk_" ++ str_of_nat (List.length merged))%string;
                   content := buffer;
                   metadata := m |} ])
  | None => Raise "'NoneType' object is not subscriptable"
  end.

(** [for chunk in chunks], followed by the flush of what remains. *)
Fixpoint merge_loop (min_size : Z) (chunks : list Chunk) (merged : list Chunk)
    (buffer : string) (buffer_metadata : option ChunkMetadata)
  : Exc string (list Chunk) :=
  match chunks with
  | [] =>
      match truthy buffer, buffer_metadata with
      | true, Some _ => flush merged buffer buffer_metadata
      | _, _ => Return merged
      end
  | chunk :: rest =>
      let content := content chunk in
      if (Z.of_nat (String.length content) <? min_size)%Z then
        if truthy buffer then
          merge_loop min_size rest merged (buffer ++ " " ++ content)%string buffer_metadata
        else
          merge_loop min_size rest merged content (Some (metadata chunk))
      else
        if truthy buffer then
          match flush merged buffer buffer_metadata with
          | Raise e => Raise e
          | Return merged' => merge_loop min_size rest (merged' ++ [chunk]) "" None
          end
        else
          merge_loop min_size rest (merged ++ [chunk]) buffer buffer_metadata
  end.

(** [for idx, chunk in enumerate(merged)], from index [idx] on. *)
Fixpoint renumber (total : nat) (idx : nat) (merged : list Chunk) : list Chunk :=
  match merged with
  | [] => []
  | chunk :: rest =>
      {| chunk_id := chunk_id chunk;
         content := content chunk;
         metadata := set_total_chunks (Some total) (set_chunk_index idx (metadata chunk)) |}
      :: renumber total (S idx) rest
  end.

(** The chunks of the input are taken to be distinct objects with distinct
    metadata dictionaries, so that the in-place renumbering of one does not
    show in another. *)
Definition merge_small_chunks (chunks : list Chunk) (min_size : Z)
  : Exc string (list Chunk) :=
  match chunks with
  | [] => Return []
  | _ =>
      match merge_loop min_size chunks [] "" None with
      | Raise e => Raise e
      | Return merged => Return (renumber (List.length merged) 0 merged)
      end
  end.

End ChunkingService.

(* ------------------------------------------------------------------ *)
(** * Vocabulary of the statements *)
(* ------------------------------------------------------------------ *)

Module Spec.

(** A list is in descending order of [key]. *)
Definition descending {A} (key : A -> R) (l : list A) : Prop :=
  StronglySorted (fun a b => (key a >= key b)%R) l.

(** The chunk ids of a ranked list of hits, in rank order. *)
Definition ids (l : list Hit) : list string :=
  map hit_chunk_id l.

(** The hit at 1-based rank [r] of [l] has chunk id [cid]. *)
Definition at_rank (l : list Hit) (r : Z) (cid : string) : Prop :=
  (1 <= r)%Z /\
  option_map hit_chunk_id (nth_error l (Z.to_nat (r - 1))) = Some cid.

(** The share of the fused score a list with weight [w] gives to its hit
    at rank [r]. *)
Definition partial_score (w : R) (r : Z) : R := (w / IZR (60 + r))%R.

(** The fused result carrying chunk id [cid], if any. *)
Definition fused_for (cid : string) (out : list HybridSearch.FusedResult)
  : option HybridSearch.FusedResult :=
  find (fun x => String.eqb (HybridSearch.chunk_id x) cid) out.

Definition hit (cid : string) : Hit :=
  {| hit_chunk_id := cid;
     hit_score := None;
     hit_content := cid;
     hit_metadata := [] |}.


Definition idle_bm25 : RankBM25 :=
  {| BM25Okapi := unit;
     BM25Okapi_new := fun _ => tt;
     get_scores := fun _ _ => [];
     argsort := fun _ => [] |}.

(** A text that is empty or made of white space only. *)
Fixpoint whitespace_only (s : string) : bool :=
  match s with
  | EmptyString => true
  | String c s' => is_space c && whitespace_only s'
  end.

(** A model that embeds a text as the one-dimensional vector of its
    length, and a batch text by text. *)
Definition length_model : SentenceTransformer :=
  {| encode := fun text => [INR (String.length text)];
     encode_batch := map (fun text => [INR (String.length text)]) |}.

(** The score a chunk brings from retrieval: its fused score when it has
    one, the neutral 0.5 otherwise. *)
Definition prior_score (c : State.RetrievedChunk) : R :=
  match State.score c with
  | Some s => s
  | None => 0.5%R
  end.

(** [r] carries the fresh cosine similarity of the query and its chunk,
    and the blend of it with the prior score. *)
Definition blended {model : SentenceTransformer} (settings : Settings)
    (query : string) (r : State.RerankedChunk) : Prop :=
  exists sim,
    EmbeddingService.similarity
      (EmbeddingService.embed_text settings query)
      (EmbeddingService.embed_text settings (State.content (State.chunk r)))
    = Return sim /\
    State.similarity r = sim /\
    State.rerank_score r = (0.6 * sim + 0.4 * prior_score (State.chunk r))%R.

Definition one_dimension : Settings :=
  {| embedding_dimension := 1;
     chunk_size := 512;
     chunk_overlap := 128;
     retrieval_top_k := 10;
     reranking_top_k := 5 |}.

Definition retrieved (cid text : string) (fused : option R) : State.RetrievedChunk :=
  {| State.chunk_id := cid;
     State.content := text;
     State.metadata := [];
     State.score := fused;
     State.dense_rank := None;
     State.sparse_rank := None;
     State.dense_score := None;
     State.sparse_score := None |}.

(** [state["processing_steps"].append(name)] *)
Definition step (name : string) (s : State.AgentState) : State.AgentState :=
  State.set_processing_steps (State.processing_steps s ++ [name]) s.

Definition found_chunk : State.RetrievedChunk :=
  retrieved "doc_chunk_0" "retrieval augmented generation" (Some 0.016%R).

Definition ranked_chunk : State.RerankedChunk :=
  {| State.chunk := found_chunk;
     State.rerank_score := 0.5%R;
     State.similarity := 0.8%R |}.

(** A workflow in which retrieval and reranking deliver one chunk each and
    the generation stage raises. *)
Definition generation_fails : RAGWorkflow.t :=
  {| RAGWorkflow.analyze := fun s => State.Done (step "query_analysis" s);
     RAGWorkflow.retrieve := fun s =>
       State.Done (State.set_retrieved_chunks [found_chunk] (step "retrieval" s));
     RAGWorkflow.rerank := fun s =>
       State.Done (State.set_reranked_chunks [ranked_chunk] (step "reranking" s));
     RAGWorkflow.generate := fun s =>
       State.Failed "model unavailable" (State.processing_steps s ++ ["generation"]);
     RAGWorkflow.add_citations := fun s => State.Done (step "citation" s) |}.

(** ** Chunks *)

(** The chunk index invariant of a document: the indices are 0..n-1 in
    order, and every chunk reports n as the total, n being the number of
    chunks in the list. *)
Definition numbered (chunks : list ChunkingService.Chunk) : Prop :=
  map (fun c => ChunkingService.chunk_index (ChunkingService.metadata c)) chunks
  = seq 0 (List.length chunks) /\
  Forall (fun c => ChunkingService.total_chunks (ChunkingService.metadata c)
                   = Some (List.length chunks)) chunks.

Definition index_of (c : ChunkingService.Chunk) : nat :=
  ChunkingService.chunk_index (ChunkingService.metadata c).

(** A text chunk the chunker drops. *)
Definition dropped (chunk_text : string) : Prop :=
  String.length (strip chunk_text) < 10.

Definition undersized (min_size : Z) (c : ChunkingService.Chunk) : Prop :=
  (Z.of_nat (String.length (ChunkingService.content c)) < min_size)%Z.

Definition has_content (c : ChunkingService.Chunk) : Prop :=
  ChunkingService.content c <> EmptyString.

(** Two metadata records that differ at most in [chunk_index] and
    [total_chunks]. *)
Definition same_but_numbering (m m' : ChunkingService.ChunkMetadata) : Prop :=
  ChunkingService.doc_id m' = ChunkingService.doc_id m /\
  ChunkingService.filename m' = ChunkingService.filename m /\
  ChunkingService.file_type m' = ChunkingService.file_type m /\
  ChunkingService.page_number m' = ChunkingService.page_number m /\
  ChunkingService.upload_timestamp m' = ChunkingService.upload_timestamp m.

(** [out] is the chunk [c] of the group [[c]], which is not undersized,
    up to its numbering. *)
Definition kept (min_size : Z) (group : list ChunkingService.Chunk)
    (out : ChunkingService.Chunk) : Prop :=
  exists c,
    group = [c] /\ ~ undersized min_size c /\
    ChunkingService.chunk_id out = ChunkingService.chunk_id c /\
    ChunkingService.content out = ChunkingService.content c /\
    same_but_numbering (ChunkingService.metadata c) (ChunkingService.metadata out).

(** [out] is the merge of the group, a run of undersized chunks: their
    contents joined by single spaces, under the metadata of the first. *)
Definition merged_run (min_size : Z) (group : list ChunkingService.Chunk)
    (out : ChunkingService.Chunk) : Prop :=
  exists c rest,
    group = c :: rest /\ Forall (undersized min_size) group /\
    ChunkingService.content out
    = String.concat " " (map ChunkingService.content group) /\
    same_but_numbering (ChunkingService.metadata c) (ChunkingService.metadata out).

Definition made_from (min_size : Z) (group : list ChunkingService.Chunk)
    (out : ChunkingService.Chunk) : Prop :=
  kept min_size group out \/ merged_run min_size group out.

Definition is_run (min_size : Z) (group : list ChunkingService.Chunk) : Prop :=
  group <> [] /\ Forall (undersized min_size) group.

(** No two neighbouring groups are both runs of undersized chunks: the
    runs are maximal. *)
Fixpoint maximal_runs (min_size : Z) (groups : list (list ChunkingService.Chunk)) : Prop :=
  match groups with
  | g1 :: rest =>
      match rest with
      | g2 :: _ => ~ (is_run min_size g1 /\ is_run min_size g2)
      | [] => True
      end /\ maximal_runs min_size rest
  | [] => True
  end.

(** [out] has the content the merge gives the group: that of its single
    chunk, which is not undersized, or the contents of a run of undersized
    chunks joined by single spaces. *)
Definition joins (min_size : Z) (group : list ChunkingService.Chunk)
    (out : ChunkingService.Chunk) : Prop :=
  (exists c, group = [c] /\ ~ undersized min_size c /\
             ChunkingService.content out = ChunkingService.content c) \/
  (is_run min_size group /\
   ChunkingService.content out
   = String.concat " " (map ChunkingService.content group)).

(** What the buffer of the merge holds when the chunks of [pending] have
    been read since the last flush. *)
Definition buffer_holds (pending : list ChunkingService.Chunk) (buffer : string)
    (buffer_metadata : option ChunkingService.ChunkMetadata) : Prop :=
  match pending with
  | [] => buffer = EmptyString /\ buffer_metadata = None
  | c :: _ =>
      buffer = String.concat " " (map ChunkingService.content pending) /\
      buffer_metadata = Some (ChunkingService.metadata c)
  end.

Definition doc (name : string) : ChunkingService.DocumentMetadata :=
  {| ChunkingService.md_doc_id := name;
     ChunkingService.md_filename := "notes.txt";
     ChunkingService.md_file_type := "txt";
     ChunkingService.md_upload_timestamp := "2024-01-01T00:00:00" |}.

Definition chunk_of (name : string) (idx total : nat) (text : string)
  : ChunkingService.Chunk :=
  {| ChunkingService.chunk_id := ChunkingService.chunk_name name idx;
     ChunkingService.content := text;
     ChunkingService.metadata :=
       {| ChunkingService.doc_id := name;
          ChunkingService.filename := "notes.txt";
          ChunkingService.file_type := "txt";
          ChunkingService.chunk_index := idx;
          ChunkingService.page_number := None;
          ChunkingService.total_chunks := Some total;
          ChunkingService.upload_timestamp := "2024-01-01T00:00:00" |} |}.

(** Two short chunks of two different documents, and a longer one. *)
Definition mixed_chunks : list ChunkingService.Chunk :=
  [chunk_of "report" 0 1 "alpha"; chunk_of "memo" 0 2 "beta";
   chunk_of "memo" 1 2 "retrieval augmented generation"].

(** A splitter that cuts a text at its blank lines. *)
Fixpoint paragraphs (cur : list ascii) (s : string) : list string :=
  match s with
  | EmptyString => [string_of_list_ascii (rev cur)]
  | String a s' =>
      match s' with
      | String b s'' =>
          if Ascii.eqb a (ascii_of_nat 10) && Ascii.eqb b (ascii_of_nat 10)
          then string_of_list_ascii (rev cur) :: paragraphs [] s''
          else paragraphs (a :: cur) s'
      | EmptyString => [string_of_list_ascii (rev (a :: cur))]
      end
  end.

Definition paragraph_splitter : TextSplitter :=
  {| split_text := paragraphs [] |}.

Definition headed_text : string :=
  ("Summary" ++ ChunkingService.newline ++ ChunkingService.newline
   ++ "Retrieval augmented generation answers from documents.")%string.

End Spec.

(* ------------------------------------------------------------------ *)
(** * Further vocabulary *)
(* ------------------------------------------------------------------ *)

Module Props.

(** The entries the first loop of the fusion appends for a list of hits
    with fresh, pairwise distinct chunk ids, from rank [rank] on. *)
Fixpoint dense_items (w : R) (k : nat) (rank : Z) (results : list Hit)
  : list (string * HybridSearch.FusedData) :=
  match results with
  | [] => []
  | h :: rest =>
      (hit_chunk_id h, HybridSearch.dense_entry w k rank h)
      :: dense_items w k (rank + 1) rest
  end.

(** The shares [w/(60+1)], [w/(60+2)], ... of the first [n] ranks. *)
Definition rank_shares (w : R) (n : nat) : list R :=
  map (fun r => Spec.partial_score w (Z.of_nat r)) (seq 1 n).

(** [h] is the hit the sparse search builds for the indexed chunk at
    position [idx], with a positive score. *)
Definition hit_of_indexed (chunks : list HybridSearch.IndexedChunk) (h : Hit) : Prop :=
  exists idx chunk s,
    nth_error chunks idx = Some chunk /\
    hit_chunk_id h
    = or_default (HybridSearch.ic_chunk_id chunk) ("bm25_" ++ str_of_nat idx)%string /\
    hit_content h = HybridSearch.ic_content chunk /\
    hit_metadata h = or_default (HybridSearch.ic_metadata chunk) [] /\
    hit_score h = Some s /\ (s > 0)%R.

End Props.

Module Props2.

(** A vector store that answers every query with the same hits. *)
Definition fixed_store (hits : list Hit) : VectorStore :=
  {| StoreError := string;
     similarity_search := fun _ _ _ => Return hits |}.

(** A sparse library that scores the documents 1.0, 0.0, 2.0, ... as
    given, and ranks indices in ascending order of position. *)
Definition scored_bm25 (scores : list R) (order : list nat) : RankBM25 :=
  {| BM25Okapi := unit;
     BM25Okapi_new := fun _ => tt;
     get_scores := fun _ _ => scores;
     argsort := fun _ => order |}.

Definition indexed (cid text : string) : HybridSearch.IndexedChunk :=
  {| HybridSearch.ic_chunk_id := Some cid;
     HybridSearch.ic_content := text;
     HybridSearch.ic_metadata := None |}.

End Props2.

(* ------------------------------------------------------------------ *)
(** * services/chunking_service.py: statistics *)
(* ------------------------------------------------------------------ *)

Module ChunkStats.

(** The dictionary [get_chunk_stats] returns. *)
Record t := {
  total_chunks : nat;
  avg_chunk_size : nat;
  min_chunk_size : nat;
  max_chunk_size : nat
}.

(** [min(l)] and [max(l)] on a list that is not empty; on the empty list
    Python raises [ValueError], a case [get_chunk_stats] excludes before. *)
Definition py_min (l : list nat) : nat :=
  match l with
  | [] => 0
  | x :: rest => fold_left Nat.min rest x
  end.

Definition py_max (l : list nat) : nat :=
  match l with
  | [] => 0
  | x :: rest => fold_left Nat.max rest x
  end.

Definition get_chunk_stats (chunks : list ChunkingService.Chunk) : t :=
  match chunks with
  | [] =>
      {| total_chunks := 0; avg_chunk_size := 0;
         min_chunk_size := 0; max_chunk_size := 0 |}
  | _ =>
      let chunk_sizes :=
        map (fun chunk => String.length (ChunkingService.content chunk)) chunks in
      {| total_chunks := List.length chunks;
         avg_chunk_size := list_sum chunk_sizes / List.length chunk_sizes;
         min_chunk_size := py_min chunk_sizes;
         max_chunk_size := py_max chunk_sizes |}
  end.

End ChunkStats.

Module Props3.

(** The sections that follow the first one in the result of [re.split]:
    the digits of a page marker, the text after it, and so on. *)
Inductive paged : list string -> Prop :=
| paged_nil : paged []
| paged_cons number text rest :
    number <> EmptyString ->
    (forall acc, exists z, ChunkingService.int_digits acc number = Some z) ->
    paged rest ->
    paged (number :: text :: rest).

(** What every chunk of a document carries: a stripped text of at least 10
    characters, the identifier made of the document id and of its index,
    and the fields of the document. *)
Definition of_document (md : ChunkingService.DocumentMetadata)
    (c : ChunkingService.Chunk) : Prop :=
  10 <= String.length (ChunkingService.content c) /\
  (exists chunk_text, ChunkingService.content c = strip chunk_text) /\
  ChunkingService.chunk_id c
  = ChunkingService.chunk_name (ChunkingService.md_doc_id md)
      (ChunkingService.chunk_index (ChunkingService.metadata c)) /\
  ChunkingService.doc_id (ChunkingService.metadata c) = ChunkingService.md_doc_id md /\
  ChunkingService.filename (ChunkingService.metadata c)
  = ChunkingService.md_filename md /\
  ChunkingService.file_type (ChunkingService.metadata c)
  = ChunkingService.md_file_type md /\
  ChunkingService.upload_timestamp (ChunkingService.metadata c)
  = ChunkingService.md_upload_timestamp md.

(** The page number of a chunk is the number of one of the page markers. *)
Definition on_marked_page (sections : list string) (c : ChunkingService.Chunk) : Prop :=
  exists number p,
    In number sections /\ ChunkingService.int number = Return p /\
    ChunkingService.page_number (ChunkingService.metadata c) = Some p.

Definition size_of (c : ChunkingService.Chunk) : nat :=
  String.length (ChunkingService.content c).

(** Two pages with their markers, as the PDF extraction writes them. *)
Definition two_pages : string :=
  ("[Page 1]" ++ ChunkingService.newline
   ++ "Retrieval augmented generation." ++ ChunkingService.newline
   ++ ChunkingService.newline
   ++ "[Page 2]" ++ ChunkingService.newline
   ++ "Vector databases store embeddings.")%string.

End Props3.

(* ------------------------------------------------------------------ *)
(** * services/web_search.py *)
(* ------------------------------------------------------------------ *)

(** The two search libraries: [DDGS().text(query, max_results=n)] and
    [TavilyClient(...).search(query, max_results=n)], the latter seen
    through [response.get('results', [])]. *)
Class SearchProviders := {
  ddgs_text : string -> Z -> Exc string (list Dict);
  tavily_search : string -> Z -> Exc string (list Dict)
}.

Module WebSearchService.

(** The settings the service reads. *)
Record t := {
  provider : string;
  tavily_api_key : string
}.

(** [d.get(key, '')] on a result of a search library. *)
Definition get_or_empty (key : string) (d : Dict) : Value :=
  or_default (dict_get key d) (VStr "").

Definition duckduckgo_result (result : Dict) : Dict :=
  [("title", get_or_empty "title" result);
   ("url", get_or_empty "href" result);
   ("snippet", get_or_empty "body" result);
   ("source", VStr "duckduckgo")].

Definition tavily_result (result : Dict) : Dict :=
  [("title", get_or_empty "title" result);
   ("url", get_or_empty "url" result);
   ("snippet", get_or_empty "content" result);
   ("source", VStr "tavily")].

Section WithProviders.
Context {providers : SearchProviders}.

(** An exception of the library is printed and swallowed. *)
Definition _duckduckgo_search (query : string) (max_results : Z) : list Dict :=
  match ddgs_text query max_results with
  | Return search_results => map duckduckgo_result search_results
  | Raise _ => []
  end.

Definition _tavily_search (self : t) (query : string) (max_results : Z)
  : Exc string (list Dict) :=
  if negb (truthy (tavily_api_key self)) then
    Raise "Tavily API key not configured"
  else
    match tavily_search query max_results with
    | Return results => Return (map tavily_result results)
    | Raise _ => Return []
    end.

Definition search (self : t) (query : string) (max_results : Z)
  : Exc string (list Dict) :=
  if String.eqb (provider self) "duckduckgo" then
    Return (_duckduckgo_search query max_results)
  else if String.eqb (provider self) "tavily" then
    _tavily_search self query max_results
  else
    Raise ("Unknown search provider: " ++ provider self)%string.

End WithProviders.
End WebSearchService.

(* ------------------------------------------------------------------ *)
(** * agents/retrieval_agent.py *)
(* ------------------------------------------------------------------ *)

(** [str(e)] on an exception of the vector store. *)
Class StoreMessages {store : VectorStore} := {
  store_message : StoreError -> string
}.

Module RetrievalAgent.
Import State.

Definition set_web_results (v : list Dict) (s : AgentState) : AgentState :=
  {| query := query s; conversation_id := conversation_id s; messages := messages s;
     query_type := query_type s; needs_web_search := needs_web_search s;
     search_keywords := search_keywords s; retrieved_chunks := retrieved_chunks s;
     web_results := v; reranked_chunks := reranked_chunks s;
     generated_response := generated_response s; citations := citations s;
     final_response := final_response s; processing_steps := processing_steps s;
     error := error s |}.

(** A fused result as an element of [retrieved_chunks]. *)
Definition of_fused (x : HybridSearch.FusedResult) : RetrievedChunk :=
  {| chunk_id := HybridSearch.chunk_id x;
     content := HybridSearch.content (HybridSearch.data x);
     metadata := HybridSearch.metadata (HybridSearch.data x);
     score := Some (HybridSearch.score (HybridSearch.data x));
     dense_rank := HybridSearch.dense_rank (HybridSearch.data x);
     sparse_rank := HybridSearch.sparse_rank (HybridSearch.data x);
     dense_score := HybridSearch.dense_score (HybridSearch.data x);
     sparse_score := HybridSearch.sparse_score (HybridSearch.data x) |}.

Section WithServices.
Context {bm25 : RankBM25} {store : VectorStore} {messages_of : StoreMessages}
        {providers : SearchProviders}.
Variable settings : Settings.

(** [str(e)] on what [hybrid_search] raises. *)
Definition error_message (e : HybridSearch.Error StoreError) : string :=
  match e with
  | HybridSearch.ValueError msg => msg
  | HybridSearch.Propagated e' => store_message e'
  end.

Definition retrieve (hybrid_search : HybridSearch.t) (web_search : WebSearchService.t)
    (state : AgentState) : Outcome :=
  let query := query state in
  let needs_web := needs_web_search state in
  let steps := processing_steps state ++ ["retrieval"] in
  let state := set_processing_steps steps state in
  match HybridSearch.hybrid_search hybrid_search query (retrieval_top_k settings)
          0.7 0.3 None with
  | Raise e => Failed (error_message e) steps
  | Return vector_results =>
      let state := set_retrieved_chunks (map of_fused vector_results) state in
      if needs_web then
        match WebSearchService.search web_search query 5 with
        | Raise e => Failed e steps
        | Return web_results => Done (set_web_results web_results state)
        end
      else Done (set_web_results [] state)
  end.

End WithServices.
End RetrievalAgent.

(* ------------------------------------------------------------------ *)
(** * agents/citation_agent.py *)
(* ------------------------------------------------------------------ *)

(** [f"{v}"] on a value of a dictionary. *)
Class PyFormat := {
  format_value : Value -> string
}.

Module CitationAgent.
Import State.

Definition set_citations (v : list Dict) (s : AgentState) : AgentState :=
  {| query := query s; conversation_id := conversation_id s; messages := messages s;
     query_type := query_type s; needs_web_search := needs_web_search s;
     search_keywords := search_keywords s; retrieved_chunks := retrieved_chunks s;
     web_results := web_results s; reranked_chunks := reranked_chunks s;
     generated_response := generated_response s; citations := v;
     final_response := final_response s; processing_steps := processing_steps s;
     error := error s |}.

Definition set_final_response (v : option string) (s : AgentState) : AgentState :=
  {| query := query s; conversation_id := conversation_id s; messages := messages s;
     query_type := query_type s; needs_web_search := needs_web_search s;
     search_keywords := search_keywords s; retrieved_chunks := retrieved_chunks s;
     web_results := web_results s; reranked_chunks := reranked_chunks s;
     generated_response := generated_response s; citations := citations s;
     final_response := v; processing_steps := processing_steps s;
     error := error s |}.

(** Python truthiness of a value. *)
Definition value_truthy (v : Value) : bool :=
  match v with
  | VNone => false
  | VStr s => truthy s
  | VInt z => negb (z =? 0)%Z
  | VFloat r => if Req_dec_T r 0 then false else true
  end.

(** [v[:n]]: a string is cut; [None] and numbers cannot be subscripted. *)
Definition preview (n : nat) (v : Value) : Exc string string :=
  match v with
  | VStr s => Return (substring 0 n s)
  | VNone => Raise "'NoneType' object is not subscriptable"
  | VInt _ => Raise "'int' object is not subscriptable"
  | VFloat _ => Raise "'float' object is not subscriptable"
  end.

(** [for i, chunk in enumerate(chunks[:5], 1)], from id [i] on. *)
Fixpoint document_citations (i : Z) (chunks : list RerankedChunk) : list Dict :=
  match chunks with
  | [] => []
  | chunk :: rest =>
      let metadata := metadata (State.chunk chunk) in
      let filename := or_default (dict_get "filename" metadata) (VStr "Unknown Document") in
      let page := or_default (dict_get "page_number" metadata) VNone in
      [("id", VInt i);
       ("type", VStr "document");
       ("filename", filename);
       ("page", page);
       ("content_preview", VStr (substring 0 100 (content (State.chunk chunk))))]
      :: document_citations (i + 1) rest
  end.

(** [for i, result in enumerate(web_results[:3], web_start)] *)
Fixpoint web_citations (i : Z) (web_results : list Dict) : Exc string (list Dict) :=
  match web_results with
  | [] => Return []
  | result :: rest =>
      match preview 100 (or_default (dict_get "snippet" result) (VStr "")) with
      | Raise e => Raise e
      | Return snippet =>
          match web_citations (i + 1) rest with
          | Raise e => Raise e
          | Return citations =>
              Return ([("id", VInt i);
                       ("type", VStr "web");
                       ("title", or_default (dict_get "title" result) (VStr "Web Source"));
                       ("url", or_default (dict_get "url" result) (VStr ""));
                       ("snippet", VStr snippet)]
                      :: citations)
          end
      end
  end.

Section WithFormat.
Context {fmt : PyFormat}.

Definition newline : string := String (ascii_of_nat 10) EmptyString.

(** [citation[key]] for a key the citation has. *)
Definition field (key : string) (citation : Dict) : Value :=
  or_default (dict_get key citation) VNone.

(** The lines one citation adds to the formatted response. *)
Definition citation_lines (citation : Dict) : string :=
  match field "type" citation with
  | VStr "document" =>
      ("[" ++ format_value (field "id" citation) ++ "] "
       ++ format_value (field "filename" citation)
       ++ (if value_truthy (field "page" citation)
           then ", Page " ++ format_value (field "page" citation)
           else "")
       ++ newline)%string
  | VStr "web" =>
      ("[" ++ format_value (field "id" citation) ++ "] "
       ++ format_value (field "title" citation) ++ newline
       ++ "    " ++ format_value (field "url" citation) ++ newline)%string
  | _ => EmptyString
  end.

Definition _format_with_citations (response : string) (citations : list Dict) : string :=
  let formatted := (response ++ newline ++ newline)%string in
  match citations with
  | [] => formatted
  | _ =>
      fold_left (fun formatted citation => (formatted ++ citation_lines citation)%string)
        citations
        (formatted ++ "**Sources:**" ++ newline ++ newline)%string
  end.

Definition add_citations (state : AgentState) : Outcome :=
  let response := or_default (generated_response state) "" in
  let chunks := reranked_chunks state in
  let web_results := web_results state in
  let steps := processing_steps state ++ ["citation"] in
  let state := set_processing_steps steps state in
  if negb (truthy response) then
    Done (set_citations [] (set_final_response (Some "") state))
  else
    let citations := document_citations 1 (firstn 5 chunks) in
    let web_start := (Z.of_nat (List.length citations) + 1)%Z in
    match web_citations web_start (firstn 3 web_results) with
    | Raise e => Failed e steps
    | Return web =>
        let citations := citations ++ web in
        let final_response := _format_with_citations response citations in
        Done (set_final_response (Some final_response) (set_citations citations state))
    end.

End WithFormat.
End CitationAgent.

Module Props4.

(** The citations carry the ids 1, 2, ..., in order. *)
Definition numbered_from_one (citations : list Dict) : Prop :=
  map (dict_get "id") citations
  = map (fun k => Some (VInt (Z.of_nat k))) (seq 1 (List.length citations)).

(** The citations carry the ids [i], [i + 1], ..., in order. *)
Definition ids_from (i : Z) (citations : list Dict) : Prop :=
  map (dict_get "id") citations
  = map (fun k => Some (VInt (i + Z.of_nat k))) (seq 0 (List.length citations)).

Definition of_type (kind : string) (citation : Dict) : Prop :=
  dict_get "type" citation = Some (VStr kind).

(** A search library that is down. *)
Definition failing_providers : SearchProviders :=
  {| ddgs_text := fun _ _ => Raise "rate limit";
     tavily_search := fun _ _ => Raise "rate limit" |}.

Definition duckduckgo : WebSearchService.t :=
  {| WebSearchService.provider := "duckduckgo";
     WebSearchService.tavily_api_key := "" |}.

End Props4.

(* ------------------------------------------------------------------ *)
(** * agents/query_analysis_agent.py *)
(* ------------------------------------------------------------------ *)

Module QueryAnalysisAgent.

(** The [QueryAnalysisResult] of [agents/state.py]. *)
Record QueryAnalysisResult := {
  query_type : string;
  needs_web_search : bool;
  search_keywords : list string;
  reasoning : string
}.

(** [self.llm], seen through the [try] block of [_llm_analysis]: the
    answer of the model to the query, parsed as JSON and read with the
    defaults of the code, or the exception raised on the way. *)
Record t := {
  llm : option (string -> Exc string QueryAnalysisResult)
}.

(** [word in s] on strings: [word] occurs in [s]. *)
Fixpoint contains (word s : string) : bool :=
  String.prefix word s ||
  match s with
  | EmptyString => false
  | String _ s' => contains word s'
  end.

Definition question_words : list string :=
  ["what"; "why"; "how"; "when"; "where"; "who"].

Definition conversational_words : list string :=
  ["hello"; "hi"; "thanks"; "thank you"].

Definition current_info_indicators : list string :=
  ["latest"; "recent"; "current"; "today"; "now";
   "2024"; "2025"; "2026"; "this year"].

Definition stop_words : list string :=
  ["what"; "is"; "the"; "a"; "an"; "in"; "on"; "at"; "to"; "for";
   "of"; "and"; "or"; "but"; "with"; "from"; "by"; "about"].

(** [w in stop_words] *)
Definition is_stop_word (w : string) : bool :=
  existsb (String.eqb w) stop_words.

Definition _rule_based_analysis (query : string) : QueryAnalysisResult :=
  let query_lower := lower query in
  let query_type :=
    if existsb (fun word => contains word query_lower) conversational_words then
      "conversational"
    else if existsb (fun word => String.prefix word query_lower) question_words then
      if contains "why" query_lower || contains "how" query_lower
      then "analytical"
      else "factual"
    else "factual" in
  let needs_web_search :=
    existsb (fun word => contains word query_lower) current_info_indicators in
  let words := split query_lower in
  let keywords :=
    firstn 5 (filter (fun w => negb (is_stop_word w) && (2 <? String.length w)) words) in
  {| query_type := query_type;
     needs_web_search := needs_web_search;
     search_keywords := keywords;
     reasoning := "Rule-based analysis" |}.

Definition _llm_analysis (attempt : string -> Exc string QueryAnalysisResult)
    (query : string) : QueryAnalysisResult :=
  match attempt query with
  | Return result => result
  | Raise _ => _rule_based_analysis query
  end.

Definition set_analysis (result : QueryAnalysisResult) (s : State.AgentState)
  : State.AgentState :=
  {| State.query := State.query s;
     State.conversation_id := State.conversation_id s;
     State.messages := State.messages s;
     State.query_type := Some (query_type result);
     State.needs_web_search := needs_web_search result;
     State.search_keywords := search_keywords result;
     State.retrieved_chunks := State.retrieved_chunks s;
     State.web_results := State.web_results s;
     State.reranked_chunks := State.reranked_chunks s;
     State.generated_response := State.generated_response s;
     State.citations := State.citations s;
     State.final_response := State.final_response s;
     State.processing_steps := State.processing_steps s;
     State.error := State.error s |}.

Definition analyze (self : t) (state : State.AgentState) : State.Outcome :=
  let query := State.query state in
  let steps := State.processing_steps state ++ ["query_analysis"] in
  let state := State.set_processing_steps steps state in
  let result :=
    match llm self with
    | Some attempt => _llm_analysis attempt query
    | None => _rule_based_analysis query
    end in
  State.Done (set_analysis result state).

End QueryAnalysisAgent.

(* ------------------------------------------------------------------ *)
(** * agents/generation_agent.py *)
(* ------------------------------------------------------------------ *)

Module GenerationAgent.
Import State.

(** [self.llm]: [invoke] on the system prompt and the user prompt gives the
    answer of the model, or raises; the error is seen as its [str(e)]. *)
Record t := {
  llm : option (string -> string -> Exc string string)
}.

Definition set_generated_response (v : option string) (s : AgentState) : AgentState :=
  {| query := query s; conversation_id := conversation_id s; messages := messages s;
     query_type := query_type s; needs_web_search := needs_web_search s;
     search_keywords := search_keywords s; retrieved_chunks := retrieved_chunks s;
     web_results := web_results s; reranked_chunks := reranked_chunks s;
     generated_response := v; citations := citations s;
     final_response := final_response s; processing_steps := processing_steps s;
     error := error s |}.

Definition newline : string := String (ascii_of_nat 10) EmptyString.

Section WithFormat.
Context {fmt : PyFormat}.

(** [for i, chunk in enumerate(chunks[:5], 1)] of [_build_context]. *)
Fixpoint document_parts (i : nat) (chunks : list RerankedChunk) : list string :=
  match chunks with
  | [] => []
  | chunk :: rest =>
      let metadata := metadata (State.chunk chunk) in
      let filename := or_default (dict_get "filename" metadata) (VStr "Unknown") in
      let page := or_default (dict_get "page_number" metadata) VNone in
      let content := content (State.chunk chunk) in
      let source_info := ("[Source " ++ str_of_nat i ++ ": " ++ format_value filename)%string in
      let source_info :=
        if CitationAgent.value_truthy page
        then (source_info ++ ", Page " ++ format_value page)%string
        else source_info in
      let source_info := (source_info ++ "]")%string in
      (source_info ++ newline ++ content ++ newline)%string
      :: document_parts (S i) rest
  end.

(** [for i, result in enumerate(web_results[:3], 1)] of [_build_context]. *)
Fixpoint web_parts (i : nat) (web_results : list Dict) : list string :=
  match web_results with
  | [] => []
  | result :: rest =>
      let title := or_default (dict_get "title" result) (VStr "Unknown") in
      let snippet := or_default (dict_get "snippet" result) (VStr "") in
      let url := or_default (dict_get "url" result) (VStr "") in
      ("[Web " ++ str_of_nat i ++ ": " ++ format_value title ++ "]" ++ newline
       ++ format_value snippet ++ newline
       ++ "URL: " ++ format_value url ++ newline)%string
      :: web_parts (S i) rest
  end.

Definition _build_context (chunks : list RerankedChunk) (web_results : list Dict)
  : string :=
  let context_parts :=
    match chunks with
    | [] => []
    | _ => ("=== Retrieved Documents ===" ++ newline)%string
           :: document_parts 1 (firstn 5 chunks)
    end in
  let context_parts :=
    match web_results with
    | [] => context_parts
    | _ => context_parts
           ++ (newline ++ "=== Web Search Results ===" ++ newline)%string
              :: web_parts 1 (firstn 3 web_results)
    end in
  String.concat newline context_parts.

End WithFormat.

Definition system_prompt : string :=
  "You are a helpful AI assistant that answers questions based on provided context.

Guidelines:
1. Answer the question using ONLY the information from the provided context
2. If the context doesn't contain enough information, say so clearly
3. Be concise but comprehensive
4. Use specific details and quotes from the context when relevant
5. Maintain a professional, informative tone".

Definition user_prompt (query context : string) : string :=
  ("Context:" ++ newline ++ context ++ newline ++ newline
   ++ "Question: " ++ query ++ newline ++ newline ++ "Answer:")%string.

Definition _llm_generate (invoke : string -> string -> Exc string string)
    (query context : string) : string :=
  match invoke system_prompt (user_prompt query context) with
  | Return response => strip response
  | Raise e =>
      ("I apologize, but I encountered an error generating a response: " ++ e)%string
  end.

(** [for i, chunk in enumerate(chunks[:3], 1)] of [_fallback_response]. *)
Fixpoint fallback_documents (i : nat) (chunks : list RerankedChunk) : list string :=
  match chunks with
  | [] => []
  | chunk :: rest =>
      let content := substring 0 200 (content (State.chunk chunk)) in
      (newline ++ str_of_nat i ++ ". " ++ content ++ "...")%string
      :: fallback_documents (S i) rest
  end.

(** [for i, result in enumerate(web_results[:2], 1)] of [_fallback_response];
    the slice of a snippet that is not a string raises. *)
Fixpoint fallback_web (i : nat) (web_results : list Dict) : Exc string (list string) :=
  match web_results with
  | [] => Return []
  | result :: rest =>
      match CitationAgent.preview 150 (or_default (dict_get "snippet" result) (VStr "")) with
      | Return snippet =>
          match fallback_web (S i) rest with
          | Raise e => Raise e
          | Return parts =>
              Return ((newline ++ str_of_nat i ++ ". " ++ snippet ++ "...")%string :: parts)
          end
      | Raise e => Raise e
      end
  end.

Definition _fallback_response (query : string) (chunks : list RerankedChunk)
    (web_results : list Dict) : Exc string string :=
  match chunks, web_results with
  | [], [] => Return "I don't have enough information to answer your question."
  | _, _ =>
      let response_parts :=
        [("Based on the available information regarding '" ++ query ++ "':" ++ newline)%string] in
      let response_parts :=
        match chunks with
        | [] => response_parts
        | _ => response_parts
               ++ (newline ++ "From documents (" ++ str_of_nat (List.length chunks)
                   ++ " relevant sections found):")%string
                  :: fallback_documents 1 (firstn 3 chunks)
        end in
      match web_results with
      | [] => Return (String.concat newline response_parts)
      | _ =>
          match fallback_web 1 (firstn 2 web_results) with
          | Raise e => Raise e
          | Return parts =>
              Return (String.concat newline
                        (response_parts
                         ++ (newline ++ newline ++ "From web search ("
                             ++ str_of_nat (List.length web_results) ++ " results):")%string
                            :: parts))
          end
      end
  end.

Section WithFormat.
Context {fmt : PyFormat}.

Definition generate (self : t) (state : AgentState) : Outcome :=
  let query := query state in
  let chunks := reranked_chunks state in
  let web_results := web_results state in
  let steps := processing_steps state ++ ["generation"] in
  let state := set_processing_steps steps state in
  match llm self with
  | None =>
      match _fallback_response query chunks web_results with
      | Raise e => Failed e steps
      | Return response => Done (set_generated_response (Some response) state)
      end
  | Some invoke =>
      let context := _build_context chunks web_results in
      let response := _llm_generate invoke query context in
      Done (set_generated_response (Some response) state)
  end.

End WithFormat.
End GenerationAgent.

(* ------------------------------------------------------------------ *)
(** * The workflow of the five agents *)
(* ------------------------------------------------------------------ *)

Module Pipeline.

Section WithServices.
Context {bm25 : RankBM25} {store : VectorStore} {messages_of : StoreMessages}
        {providers : SearchProviders} {model : SentenceTransformer}
        {fmt : PyFormat}.
Variable settings : Settings.

(** [RAGWorkflow.__init__]: the workflow of the five agents of the code. *)
Definition workflow (query_agent : QueryAnalysisAgent.t)
    (hybrid_search : HybridSearch.t) (web_search : WebSearchService.t)
    (generation_agent : GenerationAgent.t) : RAGWorkflow.t :=
  {| RAGWorkflow.analyze := QueryAnalysisAgent.analyze query_agent;
     RAGWorkflow.retrieve := RetrievalAgent.retrieve settings hybrid_search web_search;
     RAGWorkflow.rerank := RerankingAgent.rerank settings;
     RAGWorkflow.generate := GenerationAgent.generate generation_agent;
     RAGWorkflow.add_citations := CitationAgent.add_citations |}.

End WithServices.

Definition stage_names : list string :=
  ["query_analysis"; "retrieval"; "reranking"; "generation"; "citation"].

(** A node that appends [name] to the steps before it can fail, and leaves
    [query] and [error] alone. *)
Definition records_step (name : string) (node : State.AgentState -> State.Outcome)
  : Prop :=
  forall s,
    match node s with
    | State.Done final =>
        State.processing_steps final = State.processing_steps s ++ [name] /\
        State.query final = State.query s /\
        State.error final = State.error s
    | State.Failed _ steps => steps = State.processing_steps s ++ [name]
    end.

End Pipeline.

Module Props5.

(** [word] occurs in [s]; [s] starts with [word]. *)
Definition occurs (word s : string) : Prop :=
  exists pre post, s = (pre ++ word ++ post)%string.

Definition starts_with (word s : string) : Prop :=
  exists post, s = (word ++ post)%string.

End Props5.

(* ------------------------------------------------------------------ *)
(** * routes/query.py *)
(* ------------------------------------------------------------------ *)

Module QueryRoute.

(** [result.get("final_response") or
     result.get("generated_response", "No response generated.")]
    on a state returned by [run], which has both keys: the default of the
    second [get] is for a missing key only. *)
Definition response_text (result : State.AgentState) : option string :=
  match State.final_response result with
  | Some text =>
      if truthy text then Some text else State.generated_response result
  | None => State.generated_response result
  end.

(** [result.get("citations", [])] *)
Definition citations_list (result : State.AgentState) : list Dict :=
  State.citations result.

End QueryRoute.

(* ------------------------------------------------------------------ *)
(** * services/conversation_manager.py *)
(* ------------------------------------------------------------------ *)

(** [pathlib]: [directory / name]. *)
Class PathLib := {
  joinpath : string -> string -> string
}.

Module ConversationManager.

Record Message := {
  role : string;
  content : option string;
  timestamp : string;
  citations : list Dict
}.

Record Conversation := {
  conversation_id : string;
  title : string;
  created_at : string;
  updated_at : string;
  messages : list Message
}.

(** The conversation files, by path; a file holds what [json.dump] wrote,
    which [json.load] gives back. *)
Definition Files := list (string * Conversation).

Record t := {
  conversations_dir : string
}.

(** [file_path.unlink()] *)
Fixpoint unlink (path : string) (files : Files) : Files :=
  match files with
  | [] => []
  | (p, c) :: rest =>
      if String.eqb path p then unlink path rest else (p, c) :: unlink path rest
  end.

Section WithPaths.
Context {paths : PathLib}.

(** [self.conversations_dir / f"{conversation_id}.json"] *)
Definition file_path (self : t) (conversation_id : string) : string :=
  joinpath (conversations_dir self) (conversation_id ++ ".json")%string.

Definition _save_conversation (self : t) (conversation_id : string)
    (conversation : Conversation) (files : Files) : Files :=
  dict_set (file_path self conversation_id) conversation files.

Definition get_conversation (self : t) (conversation_id : string) (files : Files)
  : option Conversation :=
  dict_get (file_path self conversation_id) files.

(** [uuid4] and [utcnow] are what [str(uuid.uuid4())] and
    [datetime.utcnow().isoformat()] give at the call. *)
Definition create_conversation (self : t) (title : option string)
    (uuid4 utcnow : string) (files : Files) : string * Files :=
  let conversation_id := uuid4 in
  let timestamp := utcnow in
  let conversation :=
    {| conversation_id := conversation_id;
       title :=
         (let default := ("Conversation " ++ substring 0 8 conversation_id)%string in
          match title with
          | Some title => if truthy title then title else default
          | None => default
          end);
       created_at := timestamp;
       updated_at := timestamp;
       messages := [] |} in
  (conversation_id, _save_conversation self conversation_id conversation files).

(** The clock is read twice: for the message, then for [updated_at]. *)
Definition add_message (self : t) (conversation_id role : string)
    (content : option string) (citations : option (list Dict))
    (utcnow1 utcnow2 : string) (files : Files) : Exc string Files :=
  match get_conversation self conversation_id files with
  | None => Raise ("Conversation " ++ conversation_id ++ " not found")%string
  | Some conversation =>
      let message :=
        {| role := role;
           content := content;
           timestamp := utcnow1;
           citations := or_default citations [] |} in
      let conversation :=
        {| ConversationManager.conversation_id :=
             ConversationManager.conversation_id conversation;
           title := title conversation;
           created_at := created_at conversation;
           updated_at := utcnow2;
           messages := messages conversation ++ [message] |} in
      Return (_save_conversation self conversation_id conversation files)
  end.

Definition delete_conversation (self : t) (conversation_id : string) (files : Files)
  : bool * Files :=
  match dict_get (file_path self conversation_id) files with
  | None => (false, files)
  | Some _ => (true, unlink (file_path self conversation_id) files)
  end.

End WithPaths.
End ConversationManager.

(* ------------------------------------------------------------------ *)
(** * services/vector_store.py: [add_chunks] *)
(* ------------------------------------------------------------------ *)

Module Pinecone.

Record VectorMetadata := {
  doc_id : string;
  filename : string;
  chunk_index : nat;
  page_number : option Z;
  content : string
}.

Record Vector := {
  id : string;
  values : list R;
  metadata : VectorMetadata
}.

End Pinecone.

(** The Pinecone index: [index.upsert(vectors=batch)] changes the index or
    raises. *)
Class PineconeIndex := {
  Index : Type;
  UpsertError : Type;
  upsert : list Pinecone.Vector -> Index -> Exc UpsertError Index
}.

Module VectorStoreService.

Section WithIndex.
Context {model : SentenceTransformer} {pinecone : PineconeIndex}.
Variable settings : Settings.

(** The body of [for chunk, embedding in zip(chunks, embeddings)]. *)
Definition vector_of (entry : ChunkingService.Chunk * list R) : Pinecone.Vector :=
  let (chunk, embedding) := entry in
  {| Pinecone.id := ChunkingService.chunk_id chunk;
     Pinecone.values := embedding;
     Pinecone.metadata :=
       {| Pinecone.doc_id := ChunkingService.doc_id (ChunkingService.metadata chunk);
          Pinecone.filename := ChunkingService.filename (ChunkingService.metadata chunk);
          Pinecone.chunk_index :=
            ChunkingService.chunk_index (ChunkingService.metadata chunk);
          Pinecone.page_number :=
            ChunkingService.page_number (ChunkingService.metadata chunk);
          Pinecone.content := substring 0 1000 (ChunkingService.content chunk) |} |}.

(** [range(0, stop, step)] for a positive [step]. *)
Definition range_step (stop step : nat) : list nat :=
  map (fun k => k * step) (seq 0 ((stop + step - 1) / step)).

Definition batch_size : nat := 100.

(** [for i in range(0, len(vectors), batch_size)], on the starts left. *)
Fixpoint upsert_loop (starts : list nat) (vectors : list Pinecone.Vector)
    (total_upserted : nat) (index : Index) : Exc UpsertError (nat * Index) :=
  match starts with
  | [] => Return (total_upserted, index)
  | i :: rest =>
      let batch := firstn batch_size (skipn i vectors) in
      match upsert batch index with
      | Raise e => Raise e
      | Return index' =>
          upsert_loop rest vectors (total_upserted + List.length batch) index'
      end
  end.

Definition add_chunks (chunks : list ChunkingService.Chunk) (index : Index)
  : Exc UpsertError (nat * Index) :=
  match chunks with
  | [] => Return (0, index)
  | _ =>
      let texts := map ChunkingService.content chunks in
      let embeddings := EmbeddingService.embed_batch settings texts in
      let vectors := map vector_of (combine chunks embeddings) in
      upsert_loop (range_step (List.length vectors) batch_size) vectors 0 index
  end.

End WithIndex.
End VectorStoreService.

Module Props6.

(** The upserts of [batches] one after the other, counting the vectors. *)
Fixpoint upsert_in_turn {pinecone : PineconeIndex} (batches : list (list Pinecone.Vector))
    (total : nat) (index : Index) : Exc UpsertError (nat * Index) :=
  match batches with
  | [] => Return (total, index)
  | batch :: rest =>
      match upsert batch index with
      | Raise e => Raise e
      | Return index' => upsert_in_turn rest (total + List.length batch) index'
      end
  end.

(** The vector of a chunk: its id, its fields and the first 1000
    characters of its content. *)
Definition stands_for (v : Pinecone.Vector) (c : ChunkingService.Chunk) : Prop :=
  Pinecone.id v = ChunkingService.chunk_id c /\
  Pinecone.doc_id (Pinecone.metadata v)
  = ChunkingService.doc_id (ChunkingService.metadata c) /\
  Pinecone.filename (Pinecone.metadata v)
  = ChunkingService.filename (ChunkingService.metadata c) /\
  Pinecone.chunk_index (Pinecone.metadata v)
  = ChunkingService.chunk_index (ChunkingService.metadata c) /\
  Pinecone.page_number (Pinecone.metadata v)
  = ChunkingService.page_number (ChunkingService.metadata c) /\
  Pinecone.content (Pinecone.metadata v)
  = substring 0 1000 (ChunkingService.content c).

End Props6.

(* ------------------------------------------------------------------ *)
(** * services/document_processor.py: PDF extraction *)
(* ------------------------------------------------------------------ *)

Module DocumentProcessor.

Definition newline : string := String (ascii_of_nat 10) EmptyString.

(** [for page_num, page in enumerate(pdf.pages, 1)] of [_extract_pdf];
    a page is what [page.extract_text()] gives for it. *)
Fixpoint plumber_parts (page_num : nat) (pages : list (option string)) : list string :=
  match pages with
  | [] => []
  | text :: rest =>
      (if truthy (or_default text EmptyString)
       then ("[Page " ++ str_of_nat page_num ++ "]" ++ newline
             ++ or_default text EmptyString)%string
       else ("[Page " ++ str_of_nat page_num ++ "]" ++ newline
             ++ "[No text content]")%string)
      :: plumber_parts (S page_num) rest
  end.

(** [for page_num, page in enumerate(pdf_reader.pages, 1)] of
    [_extract_pdf_pypdf2]. *)
Fixpoint pypdf2_parts (page_num : nat) (pages : list (option string)) : list string :=
  match pages with
  | [] => []
  | text :: rest =>
      if truthy (or_default text EmptyString)
      then ("[Page " ++ str_of_nat page_num ++ "]" ++ newline
            ++ or_default text EmptyString)%string
           :: pypdf2_parts (S page_num) rest
      else pypdf2_parts (S page_num) rest
  end.

(** [pypdf2] is what PyPDF2 reads, or the exception it raises. *)
Definition _extract_pdf_pypdf2 (pypdf2 : Exc string (list (option string)))
  : Exc string string :=
  match pypdf2 with
  | Return pages => Return (String.concat (newline ++ newline) (pypdf2_parts 1 pages))
  | Raise e => Raise e
  end.

(** [plumber] is what pdfplumber reads, or the exception it raises. *)
Definition _extract_pdf (plumber pypdf2 : Exc string (list (option string)))
  : Exc string string :=
  match plumber with
  | Return pages => Return (String.concat (newline ++ newline) (plumber_parts 1 pages))
  | Raise _ => _extract_pdf_pypdf2 pypdf2
  end.

End DocumentProcessor.

Module Props7.

(** The pages read by the library that answered. *)
Definition pages_read (plumber pypdf2 : Exc string (list (option string)))
  : list (option string) :=
  match plumber, pypdf2 with
  | Return pages, _ => pages
  | Raise _, Return pages => pages
  | Raise _, Raise _ => []
  end.

(** Page [p] of the document, counted from 1, has the text [text]. *)
Definition page_of (pages : list (option string)) (p : nat) (text : string) : Prop :=
  In (p, Some text) (combine (seq 1 (List.length pages)) pages).

(** The chunk is a piece of the text of the page whose number it carries. *)
Definition from_page {text_splitter : TextSplitter} (pages : list (option string))
    (c : ChunkingService.Chunk) : Prop :=
  exists p text piece,
    page_of pages p text /\
    ChunkingService.page_number (ChunkingService.metadata c) = Some (Z.of_nat p) /\
    In piece (split_text (strip text)) /\
    ChunkingService.content c = strip piece.

(** The page numbers and the texts written after their markers. *)
Fixpoint plumber_entries (page_num : nat) (pages : list (option string))
  : list (nat * string) :=
  match pages with
  | [] => []
  | text :: rest =>
      (page_num,
       if truthy (or_default text EmptyString) then or_default text EmptyString
       else "[No text content]")
      :: plumber_entries (S page_num) rest
  end.

Fixpoint pypdf2_entries (page_num : nat) (pages : list (option string))
  : list (nat * string) :=
  match pages with
  | [] => []
  | text :: rest =>
      if truthy (or_default text EmptyString)
      then (page_num, or_default text EmptyString) :: pypdf2_entries (S page_num) rest
      else pypdf2_entries (S page_num) rest
  end.

Definition part (entry : nat * string) : string :=
  ("[Page " ++ str_of_nat (fst entry) ++ "]" ++ DocumentProcessor.newline
   ++ snd entry)%string.

(** What [re.split] finds after the first section in the text written for
    [entries]. *)
Fixpoint sections_of (entries : list (nat * string)) : list string :=
  match entries with
  | [] => []
  | (page_num, body) :: rest =>
      str_of_nat page_num
      :: match rest with
         | [] => body
         | _ => (body ++ DocumentProcessor.newline ++ DocumentProcessor.newline)%string
         end
      :: sections_of rest
  end.

(** Two pages as pdfplumber reads them, the second one without text. *)
Definition scanned : Exc string (list (option string)) :=
  Return [Some "Retrieval augmented generation answers from documents."; None].

End Props7.

(* ------------------------------------------------------------------ *)
(** * Facts about the Python preliminaries *)
(* ------------------------------------------------------------------ *)

Section SortFacts.
Variable A : Type.
Variable key : A -> R.

Lemma insert_desc_perm (x : A) (l : list A) :
  Permutation (insert_desc key x l) (x :: l).
Proof.
  induction l as [|y l IH]; simpl.
  - apply Permutation_refl.
  - destruct (Rlt_dec (key x) (key y)).
    + apply Permutation_trans with (y :: x :: l).
      * now apply perm_skip.
      * apply perm_swap.
    + apply Permutation_refl.
Qed.

Lemma sorted_reverse_perm (l : list A) :
  Permutation (sorted_reverse key l) l.
Proof.
  induction l as [|x l IH]; simpl.
  - apply perm_nil.
  - eapply Permutation_trans; [apply insert_desc_perm|].
    now apply perm_skip.
Qed.

Lemma insert_desc_descending (x : A) (l : list A) :
  Spec.descending key l -> Spec.descending key (insert_desc key x l).
Proof.
  unfold Spec.descending.
  induction l as [|y l IH]; simpl; intros Hs.
  - constructor; [constructor | constructor].
  - inversion Hs as [|? ? Hl Hy]; subst.
    destruct (Rlt_dec (key x) (key y)) as [Hlt|Hge].
    + constructor; [now apply IH|].
      rewrite Forall_forall; intros z Hz.
      apply (Permutation_in _ (insert_desc_perm x l)) in Hz.
      destruct Hz as [<-|Hz]; [lra|].
      rewrite Forall_forall in Hy; now apply Hy.
    + constructor; [exact Hs|].
      constructor; [lra|].
      rewrite Forall_forall in Hy |- *; intros z Hz.
      specialize (Hy z Hz); lra.
Qed.

Lemma sorted_reverse_descending (l : list A) :
  Spec.descending key (sorted_reverse key l).
Proof.
  induction l as [|x l IH]; simpl.
  - constructor.
  - now apply insert_desc_descending.
Qed.

Lemma sorted_reverse_length (l : list A) :
  List.length (sorted_reverse key l) = List.length l.
Proof. apply Permutation_length, sorted_reverse_perm. Qed.

Lemma firstn_In (n : nat) (l : list A) (x : A) :
  In x (firstn n l) -> In x l.
Proof.
  intros Hx. rewrite <- (firstn_skipn n l). apply in_or_app; now left.
Qed.

Lemma descending_firstn (n : nat) (l : list A) :
  Spec.descending key l -> Spec.descending key (firstn n l).
Proof.
  unfold Spec.descending. revert n.
  induction l as [|x l IH]; intros [|n] Hs; simpl; try constructor.
  - inversion Hs; subst; now apply IH.
  - inversion Hs as [|? ? _ Hx]; subst.
    rewrite Forall_forall in Hx |- *; intros z Hz.
    apply Hx. eapply firstn_In; eauto.
Qed.

Lemma descending_slice_to (n : Z) (l : list A) :
  Spec.descending key l -> Spec.descending key (slice_to n l).
Proof.
  intros Hs; unfold slice_to; destruct (n <? 0)%Z; now apply descending_firstn.
Qed.

End SortFacts.

Section DictFacts.
Variable V : Type.
Implicit Types (d : list (string * V)) (k : string) (v : V).

Lemma dict_get_set_eq k v d : dict_get k (dict_set k v d) = Some v.
Proof.
  induction d as [|[k' v'] d IH]; simpl.
  - now rewrite String.eqb_refl.
  - destruct (String.eqb k k') eqn:E; simpl; rewrite ?String.eqb_refl, ?E; auto.
Qed.

Lemma dict_get_set_neq k k' v d :
  k <> k' -> dict_get k (dict_set k' v d) = dict_get k d.
Proof.
  intros Hne.
  induction d as [|[k0 v0] d IH]; simpl.
  - apply String.eqb_neq in Hne; now rewrite Hne.
  - destruct (String.eqb k' k0) eqn:E; simpl.
    + apply String.eqb_eq in E; subst k0.
      apply String.eqb_neq in Hne; now rewrite Hne.
    + now rewrite IH.
Qed.

Lemma dict_set_keys_in k v d x :
  In x (map fst (dict_set k v d)) <-> x = k \/ In x (map fst d).
Proof.
  induction d as [|[k0 v0] d IH]; simpl.
  - intuition.
  - destruct (String.eqb k k0) eqn:E; simpl.
    + apply String.eqb_eq in E; subst; intuition.
    + rewrite IH; intuition.
Qed.

Lemma dict_set_nodup k v d :
  NoDup (map fst d) -> NoDup (map fst (dict_set k v d)).
Proof.
  induction d as [|[k0 v0] d IH]; simpl; intros Hn.
  - constructor; [intros []| constructor].
  - inversion Hn as [|? ? Hnot Hd]; subst.
    destruct (String.eqb k k0) eqn:E; simpl.
    + apply String.eqb_eq in E; subst; now constructor.
    + constructor; [|now apply IH].
      rewrite dict_set_keys_in; intros [->|Hin]; [|contradiction].
      now rewrite String.eqb_refl in E.
Qed.

End DictFacts.

(* ------------------------------------------------------------------ *)
(** * The hybrid retriever: rank fusion *)
(* ------------------------------------------------------------------ *)

Section FusionFacts.
Import HybridSearch.
Variables (w : R) (k : nat).

Lemma add_dense_skip cid results : forall rank fused,
  ~ In cid (Spec.ids results) ->
  dict_get cid (add_dense w k rank results fused) = dict_get cid fused.
Proof.
  induction results as [|h results IH]; simpl; intros rank fused Hn; auto.
  rewrite IH by tauto.
  apply dict_get_set_neq; intros ->; tauto.
Qed.

Lemma add_dense_hit results : forall rank fused i h,
  NoDup (Spec.ids results) ->
  nth_error results i = Some h ->
  dict_get (hit_chunk_id h) (add_dense w k rank results fused)
  = Some (dense_entry w k (rank + Z.of_nat i) h).
Proof.
  induction results as [|h0 results IH]; intros rank fused i h Hnd Hi.
  - destruct i; discriminate.
  - simpl in Hnd; inversion Hnd as [|? ? Hnot Hnd']; subst.
    destruct i as [|i]; simpl in Hi |- *.
    + injection Hi as ->.
      rewrite add_dense_skip by exact Hnot.
      rewrite dict_get_set_eq. do 2 f_equal. lia.
    + rewrite (IH _ _ i h Hnd' Hi). do 2 f_equal. lia.
Qed.

Lemma add_dense_nodup results : forall rank fused,
  NoDup (map fst fused) -> NoDup (map fst (add_dense w k rank results fused)).
Proof.
  induction results as [|h results IH]; simpl; intros rank fused Hn; auto.
  apply IH, dict_set_nodup, Hn.
Qed.

Lemma add_sparse_skip cid results : forall rank fused,
  ~ In cid (Spec.ids results) ->
  dict_get cid (add_sparse w k rank results fused) = dict_get cid fused.
Proof.
  induction results as [|h results IH]; simpl; intros rank fused Hn; auto.
  rewrite IH by tauto.
  destruct (dict_get (hit_chunk_id h) fused);
    apply dict_get_set_neq; intros ->; tauto.
Qed.

Lemma add_sparse_hit results : forall rank fused i h,
  NoDup (Spec.ids results) ->
  nth_error results i = Some h ->
  dict_get (hit_chunk_id h) (add_sparse w k rank results fused)
  = Some (match dict_get (hit_chunk_id h) fused with
          | Some d => both_entry w k (rank + Z.of_nat i) h d
          | None => sparse_entry w k (rank + Z.of_nat i) h
          end).
Proof.
  induction results as [|h0 results IH]; intros rank fused i h Hnd Hi.
  - destruct i; discriminate.
  - simpl in Hnd; inversion Hnd as [|? ? Hnot Hnd']; subst.
    destruct i as [|i]; simpl in Hi; cbn [add_sparse].
    + injection Hi as ->.
      rewrite add_sparse_skip by exact Hnot.
      replace (rank + Z.of_nat 0)%Z with rank by lia.
      destruct (dict_get (hit_chunk_id h) fused); now rewrite dict_get_set_eq.
    + rewrite (IH _ _ i h Hnd' Hi).
      assert (Hne : hit_chunk_id h <> hit_chunk_id h0).
      { intros E. apply Hnot. rewrite <- E.
        apply in_map, (nth_error_In _ _ Hi). }
      replace (rank + 1 + Z.of_nat i)%Z with (rank + Z.of_nat (S i))%Z by lia.
      destruct (dict_get (hit_chunk_id h0) fused);
        now rewrite (dict_get_set_neq _ _ Hne).
Qed.

Lemma add_sparse_nodup results : forall rank fused,
  NoDup (map fst fused) -> NoDup (map fst (add_sparse w k rank results fused)).
Proof.
  induction results as [|h results IH]; simpl; intros rank fused Hn; auto.
  apply IH. destruct (dict_get (hit_chunk_id h) fused); now apply dict_set_nodup.
Qed.

End FusionFacts.

Section FusedLookup.
Import HybridSearch.

Lemma fused_for_items cid (fused : list (string * FusedData)) :
  Spec.fused_for cid (map result_of_item fused)
  = option_map (fun d => {| chunk_id := cid; data := d |}) (dict_get cid fused).
Proof.
  unfold Spec.fused_for.
  induction fused as [|[c d] fused IH]; simpl; auto.
  rewrite String.eqb_sym.
  destruct (String.eqb cid c) eqn:E; auto.
  apply String.eqb_eq in E; now subst.
Qed.

Lemma chunk_id_unique (l : list FusedResult) x y :
  NoDup (map chunk_id l) -> In x l -> In y l -> chunk_id x = chunk_id y -> x = y.
Proof.
  induction l as [|z l IH]; simpl; intros Hn Hx Hy E; [tauto|].
  inversion Hn as [|? ? Hnot Hn']; subst.
  destruct Hx as [->|Hx], Hy as [->|Hy]; auto.
  - exfalso; apply Hnot; rewrite E; now apply in_map.
  - exfalso; apply Hnot; rewrite <- E; now apply in_map.
Qed.

Lemma fused_for_perm cid (l l' : list FusedResult) :
  Permutation l l' -> NoDup (map chunk_id l) ->
  Spec.fused_for cid l' = Spec.fused_for cid l.
Proof.
  intros Hp Hn. unfold Spec.fused_for.
  destruct (find _ l) as [x|] eqn:Hl.
  - apply find_some in Hl as [Hin Hx]. apply String.eqb_eq in Hx.
    destruct (find _ l') as [y|] eqn:Hl'.
    + apply find_some in Hl' as [Hin' Hy]. apply String.eqb_eq in Hy.
      f_equal. apply (chunk_id_unique l); auto.
      * eapply Permutation_in; [apply Permutation_sym|]; eauto.
      * congruence.
    + exfalso.
      assert (Hf : String.eqb (chunk_id x) cid = false).
      { apply (find_none _ _ Hl' x). eapply Permutation_in; eauto. }
      rewrite Hx, String.eqb_refl in Hf. discriminate.
  - destruct (find _ l') as [y|] eqn:Hl'; auto.
    apply find_some in Hl' as [Hin' Hy].
    apply (Permutation_in _ (Permutation_sym Hp)) in Hin'.
    now rewrite (find_none _ _ Hl y Hin') in Hy.
Qed.

Lemma items_nodup (fused : list (string * FusedData)) :
  NoDup (map fst fused) -> NoDup (map chunk_id (map result_of_item fused)).
Proof. now rewrite map_map. Qed.

(** What the fusion holds for a chunk id, read off the dictionary built by
    the two loops. *)
Lemma fusion_lookup dense sparse dw sw k cid :
  Spec.fused_for cid (_reciprocal_rank_fusion dense sparse dw sw k)
  = option_map (fun d => {| chunk_id := cid; data := d |})
      (dict_get cid (add_sparse sw k 1 sparse (add_dense dw k 1 dense []))).
Proof.
  unfold _reciprocal_rank_fusion.
  rewrite (fused_for_perm cid (Permutation_sym (sorted_reverse_perm fused_score _))).
  - apply fused_for_items.
  - apply items_nodup, add_sparse_nodup, add_dense_nodup. constructor.
Qed.

Lemma fusion_ids_nodup dense sparse dw sw k :
  NoDup (map chunk_id (_reciprocal_rank_fusion dense sparse dw sw k)).
Proof.
  unfold _reciprocal_rank_fusion.
  eapply Permutation_NoDup.
  - apply Permutation_map, Permutation_sym, sorted_reverse_perm.
  - apply items_nodup, add_sparse_nodup, add_dense_nodup. constructor.
Qed.

Lemma at_rank_nth l r cid :
  Spec.at_rank l r cid ->
  exists i h, nth_error l i = Some h /\ hit_chunk_id h = cid /\ r = (1 + Z.of_nat i)%Z.
Proof.
  intros [Hr Hn].
  destruct (nth_error l (Z.to_nat (r - 1))) as [h|] eqn:E; [|discriminate].
  exists (Z.to_nat (r - 1)), h. repeat split; auto.
  - simpl in Hn; congruence.
  - lia.
Qed.

End FusedLookup.

Section FusionClaim.
Import HybridSearch.

Lemma entry_score_dense dw r h :
  score (dense_entry dw RRF_K r h) = Spec.partial_score dw r.
Proof. reflexivity. Qed.

Lemma entry_score_sparse sw r h :
  score (sparse_entry sw RRF_K r h) = Spec.partial_score sw r.
Proof. reflexivity. Qed.

Lemma entry_score_both sw r h d :
  score (both_entry sw RRF_K r h d) = (score d + Spec.partial_score sw r)%R.
Proof. reflexivity. Qed.

(** The fused entry of a chunk id found in both lists, in the dense list
    only, or in the sparse list only, when no list repeats a chunk id. *)
Lemma fusion_per_chunk dense sparse dw sw :
  NoDup (Spec.ids dense) -> NoDup (Spec.ids sparse) ->
  let out := _reciprocal_rank_fusion dense sparse dw sw RRF_K in
  forall cid,
    (forall rd rs, Spec.at_rank dense rd cid -> Spec.at_rank sparse rs cid ->
       exists x, Spec.fused_for cid out = Some x /\
         fused_score x = (Spec.partial_score dw rd + Spec.partial_score sw rs)%R /\
         dense_rank (data x) = Some rd /\ sparse_rank (data x) = Some rs) /\
    (forall rd, Spec.at_rank dense rd cid -> ~ In cid (Spec.ids sparse) ->
       exists x, Spec.fused_for cid out = Some x /\
         fused_score x = Spec.partial_score dw rd /\
         dense_rank (data x) = Some rd /\ sparse_rank (data x) = None) /\
    (forall rs, Spec.at_rank sparse rs cid -> ~ In cid (Spec.ids dense) ->
       exists x, Spec.fused_for cid out = Some x /\
         fused_score x = Spec.partial_score sw rs /\
         dense_rank (data x) = None /\ sparse_rank (data x) = Some rs).
Proof.
  intros Hd Hs out cid. subst out. repeat split.
  - intros rd rs Hrd Hrs.
    destruct (at_rank_nth Hrd) as (i & h & Hi & <- & ->).
    destruct (at_rank_nth Hrs) as (j & h' & Hj & E & ->).
    rewrite fusion_lookup, <- E, (@add_sparse_hit sw RRF_K sparse 1%Z _ j h' Hs Hj), E.
    rewrite (@add_dense_hit dw RRF_K dense 1%Z [] i h Hd Hi). simpl option_map.
    eexists; split; [reflexivity|]. now repeat split.
  - intros rd Hrd Hns.
    destruct (at_rank_nth Hrd) as (i & h & Hi & <- & ->).
    rewrite fusion_lookup, add_sparse_skip by exact Hns.
    rewrite (@add_dense_hit dw RRF_K dense 1%Z [] i h Hd Hi). simpl option_map.
    eexists; split; [reflexivity|]. now repeat split.
  - intros rs Hrs Hnd.
    destruct (at_rank_nth Hrs) as (j & h' & Hj & <- & ->).
    rewrite fusion_lookup, (@add_sparse_hit sw RRF_K sparse 1%Z _ j h' Hs Hj).
    rewrite add_dense_skip by exact Hnd. simpl.
    eexists; split; [reflexivity|]. now repeat split.
Qed.

Lemma fusion_example :
  let out := _reciprocal_rank_fusion
               (map Spec.hit ["A"; "B"; "C"]) (map Spec.hit ["B"; "A"; "D"])
               0.7 0.3 RRF_K in
  map chunk_id out = ["A"; "B"; "C"; "D"] /\
  map fused_score out
  = [ (0.7 / 61 + 0.3 / 62)%R; (0.7 / 62 + 0.3 / 61)%R; (0.7 / 63)%R; (0.3 / 63)%R ].
Proof.
  cbv beta iota zeta delta
    [_reciprocal_rank_fusion map Spec.hit add_dense add_sparse
     hit_chunk_id hit_content hit_metadata hit_score
     dict_set dict_get String.eqb Ascii.eqb Bool.eqb result_of_item fst snd
     sorted_reverse fold_right insert_desc fused_score
     both_entry dense_entry sparse_entry data score chunk_id or_default RRF_K].
  change (Z.of_nat 60) with 60%Z.
  change (60 + 1)%Z with 61%Z.
  change (60 + (1 + 1))%Z with 62%Z.
  change (60 + (1 + 1 + 1))%Z with 63%Z.
  repeat match goal with
    | |- context [Rlt_dec ?a ?b] =>
        destruct (Rlt_dec a b); [try (exfalso; lra) | try (exfalso; lra)]
    end.
  split; reflexivity.
Qed.

End FusionClaim.

(** C1. Weighted reciprocal rank fusion.  For ranked lists of hits in which
    no chunk id occurs twice, a hit at 1-based rank [r] of a list with
    weight [w] contributes [w / (60 + r)]: a chunk id found at rank [rd] of
    the dense list and rank [rs] of the sparse list has the sum of the two
    shares as its fused score and both ranks recorded; a chunk id found in
    one list only has that list's share alone and no rank for the other
    side.  For all lists and weights the output is in descending order of
    fused score, each chunk id occurring once.  With dense ranks A, B, C,
    sparse ranks B, A, D and weights 0.7 and 0.3 the fused scores are
    0.7/61 + 0.3/62 for A, 0.7/62 + 0.3/61 for B, 0.7/63 for C and 0.3/63
    for D, in this order. *)
Theorem rank_fusion_weighted_rrf :
  (forall dense sparse dw sw,
     NoDup (Spec.ids dense) -> NoDup (Spec.ids sparse) ->
     let out := HybridSearch._reciprocal_rank_fusion dense sparse dw sw HybridSearch.RRF_K in
     forall cid,
       (forall rd rs, Spec.at_rank dense rd cid -> Spec.at_rank sparse rs cid ->
          exists x, Spec.fused_for cid out = Some x /\
            HybridSearch.fused_score x
            = (Spec.partial_score dw rd + Spec.partial_score sw rs)%R /\
            HybridSearch.dense_rank (HybridSearch.data x) = Some rd /\
            HybridSearch.sparse_rank (HybridSearch.data x) = Some rs) /\
       (forall rd, Spec.at_rank dense rd cid -> ~ In cid (Spec.ids sparse) ->
          exists x, Spec.fused_for cid out = Some x /\
            HybridSearch.fused_score x = Spec.partial_score dw rd /\
            HybridSearch.dense_rank (HybridSearch.data x) = Some rd /\
            HybridSearch.sparse_rank (HybridSearch.data x) = None) /\
       (forall rs, Spec.at_rank sparse rs cid -> ~ In cid (Spec.ids dense) ->
          exists x, Spec.fused_for cid out = Some x /\
            HybridSearch.fused_score x = Spec.partial_score sw rs /\
            HybridSearch.dense_rank (HybridSearch.data x) = None /\
            HybridSearch.sparse_rank (HybridSearch.data x) = Some rs)) /\
  (forall dense sparse dw sw,
     let out := HybridSearch._reciprocal_rank_fusion dense sparse dw sw HybridSearch.RRF_K in
     Spec.descending HybridSearch.fused_score out /\
     NoDup (map HybridSearch.chunk_id out)) /\
  (let out := HybridSearch._reciprocal_rank_fusion
                (map Spec.hit ["A"; "B"; "C"]) (map Spec.hit ["B"; "A"; "D"])
                0.7 0.3 HybridSearch.RRF_K in
   map HybridSearch.chunk_id out = ["A"; "B"; "C"; "D"] /\
   map HybridSearch.fused_score out
   = [ (0.7 / 61 + 0.3 / 62)%R; (0.7 / 62 + 0.3 / 61)%R; (0.7 / 63)%R; (0.3 / 63)%R ]).
Proof.
  split; [|split].
  - intros dense sparse dw sw Hd Hs. now apply fusion_per_chunk.
  - intros dense sparse dw sw out; split.
    + apply sorted_reverse_descending.
    + apply fusion_ids_nodup.
  - exact fusion_example.
Qed.

Lemma rank_fusion_weighted_rrf_witness :
  let dense := map Spec.hit ["A"; "B"; "C"] in
  let sparse := map Spec.hit ["B"; "A"; "D"] in
  NoDup (Spec.ids dense) /\ NoDup (Spec.ids sparse) /\
  Spec.at_rank dense 1 "A" /\ Spec.at_rank sparse 2 "A" /\
  exists x,
    Spec.fused_for "A"
      (HybridSearch._reciprocal_rank_fusion dense sparse 0.7 0.3 HybridSearch.RRF_K)
    = Some x /\
    HybridSearch.fused_score x
    = (Spec.partial_score 0.7 1 + Spec.partial_score 0.3 2)%R /\
    HybridSearch.dense_rank (HybridSearch.data x) = Some 1%Z /\
    HybridSearch.sparse_rank (HybridSearch.data x) = Some 2%Z.
Proof.
  intros dense sparse.
  assert (Hd : NoDup (Spec.ids dense)).
  { repeat constructor; simpl; intuition discriminate. }
  assert (Hs : NoDup (Spec.ids sparse)).
  { repeat constructor; simpl; intuition discriminate. }
  assert (Ha : Spec.at_rank dense 1 "A") by (split; [lia | reflexivity]).
  assert (Hb : Spec.at_rank sparse 2 "A") by (split; [lia | reflexivity]).
  split; [exact Hd | split; [exact Hs | split; [exact Ha | split; [exact Hb |]]]].
  exact (proj1 (proj1 rank_fusion_weighted_rrf dense sparse 0.7%R 0.3%R Hd Hs "A")
           1%Z 2%Z Ha Hb).
Defined.

(* ------------------------------------------------------------------ *)
(** * The hybrid retriever: weight check and sparse index *)
(* ------------------------------------------------------------------ *)

Section RetrieverFacts.
Import HybridSearch.
Context {bm25 : RankBM25} {store : VectorStore}.


Lemma hybrid_search_good_weights self query top_k dw sw filter :
  ~ (Rabs (dw + sw - 1.0) > 0.01)%R ->
  hybrid_search self query top_k dw sw filter
  = match similarity_search query (top_k * 2) filter with
    | Raise e => Raise (Propagated e)
    | Return found =>
        Return (slice_to top_k
                  (_reciprocal_rank_fusion found
                     (_bm25_search self query (top_k * 2)) dw sw RRF_K))
    end.
Proof.
  intros H. unfold hybrid_search.
  destruct (Rgt_dec _ _); [contradiction | reflexivity].
Qed.

End RetrieverFacts.



(** C9. A sparse search on an index that was never built returns the empty
    list, without an exception, whatever the query and [top_k]; so does a
    search after [index_for_bm25] was given no chunks. *)
Theorem bm25_search_before_build :
  forall (bm25 : RankBM25) (query : string) (top_k : Z),
    HybridSearch._bm25_search HybridSearch.__init__ query top_k = [] /\
    (forall self,
       HybridSearch._bm25_search (HybridSearch.index_for_bm25 self []) query top_k = []).
Proof.
  intros bm25 query top_k; split; [|intros self]; reflexivity.
Qed.

(* ------------------------------------------------------------------ *)
(** * The embedding client *)
(* ------------------------------------------------------------------ *)

Section SimilarityFacts.
Import EmbeddingService.
Local Open Scope R_scope.

Lemma dot_self_nonneg v : 0 <= dot v v.
Proof.
  induction v as [|x v IH]; simpl; [lra|].
  pose proof (Rle_0_sqr x) as Hx. unfold Rsqr in Hx. lra.
Qed.


Lemma norm_zero_dot v : norm v = 0 -> dot v v = 0.
Proof. intros H. apply sqrt_eq_0; [apply dot_self_nonneg | exact H]. Qed.

(** On vectors of one length the similarity is defined, and it is [0.0]
    as soon as one of the norms is zero. *)
Lemma similarity_zero_norm v1 v2 :
  List.length v1 = List.length v2 ->
  norm v1 = 0 \/ norm v2 = 0 ->
  similarity v1 v2 = Return 0.
Proof.
  intros Hl Hz. unfold similarity.
  rewrite Hl, Nat.eqb_refl.
  destruct (Req_dec_T (norm v1) 0); [reflexivity|].
  destruct (Req_dec_T (norm v2) 0); [reflexivity|].
  tauto.
Qed.

Lemma similarity_defined v1 v2 :
  List.length v1 = List.length v2 -> exists s, similarity v1 v2 = Return s.
Proof.
  intros Hl. unfold similarity. rewrite Hl, Nat.eqb_refl.
  destruct (Req_dec_T (norm v1) 0); [eauto|].
  destruct (Req_dec_T (norm v2) 0); eauto.
Qed.

End SimilarityFacts.

(** C4. The similarity of the unit vector [[1.0]] and its opposite
    [[-1.0]] is [-1.0], which is outside [0, 1]: the cosine of two
    embeddings is not confined to the range the docstring gives. *)
Theorem similarity_opposite_vectors :
  EmbeddingService.similarity [1%R] [(-1)%R] = Return (-1)%R /\
  ~ (0 <= -1 <= 1)%R.
Proof.
  split.
  - unfold EmbeddingService.similarity, EmbeddingService.norm. simpl.
    replace (1 * 1 + 0)%R with 1%R by lra.
    replace (-1 * -1 + 0)%R with 1%R by lra.
    rewrite sqrt_1.
    destruct (Req_dec_T 1 0); [lra|].
    f_equal. lra.
  - lra.
Qed.

Section BatchFacts.
Import EmbeddingService.
Context {model : SentenceTransformer}.
Variable settings : Settings.

Lemma embed_text_blank text :
  non_blank text = false -> embed_text settings text = zero_vector settings.
Proof.
  unfold non_blank, embed_text.
  destruct (truthy text), (truthy (strip text)); simpl; congruence.
Qed.

Lemma embed_text_non_blank text :
  non_blank text = true -> embed_text settings text = encode text.
Proof.
  unfold non_blank, embed_text.
  destruct (truthy text), (truthy (strip text)); simpl; congruence.
Qed.

Lemma list_assign_app {A} (pre : list A) (x v : A) (post : list A) :
  list_assign (List.length pre) v (pre ++ x :: post) = pre ++ v :: post.
Proof. induction pre as [|p pre IH]; simpl; [reflexivity | now rewrite IH]. Qed.

Lemma combine_valid idx texts :
  combine (map fst (valid_entries idx texts))
          (map encode (map snd (valid_entries idx texts)))
  = map (fun it => (fst it, encode (snd it))) (valid_entries idx texts).
Proof.
  induction (valid_entries idx texts) as [|[i t] l IH]; simpl; [|rewrite IH]; reflexivity.
Qed.

(** The loop that fills [result]: with the slots before [texts] already
    final, the slots of [texts] end up holding the embedding of each text. *)
Lemma fill_valid texts : forall (pre : list (list R)),
  fold_left (fun result '(idx, embedding) => list_assign idx embedding result)
    (map (fun it => (fst it, encode (snd it))) (valid_entries (List.length pre) texts))
    (pre ++ repeat (zero_vector settings) (List.length texts))
  = pre ++ map (embed_text settings) texts.
Proof.
  induction texts as [|text texts IH]; intros pre; simpl; [reflexivity|].
  destruct (non_blank text) eqn:E.
  - simpl. rewrite list_assign_app.
    rewrite (embed_text_non_blank _ E).
    specialize (IH (pre ++ [encode text])).
    rewrite length_app, Nat.add_comm in IH. simpl in IH.
    rewrite <- !app_assoc in IH. exact IH.
  - rewrite (embed_text_blank _ E).
    specialize (IH (pre ++ [zero_vector settings])).
    rewrite length_app, Nat.add_comm in IH. simpl in IH.
    rewrite <- !app_assoc in IH. exact IH.
Qed.

Lemma valid_entries_none idx texts :
  map snd (valid_entries idx texts) = [] ->
  map (embed_text settings) texts = repeat (zero_vector settings) (List.length texts).
Proof.
  revert idx. induction texts as [|text texts IH]; intros idx; simpl; [reflexivity|].
  destruct (non_blank text) eqn:E; simpl; [discriminate|].
  intros H. now rewrite (embed_text_blank _ E), (IH _ H).
Qed.

(** With a model whose batch call encodes each text as the single call
    does, the batch is the list of the single embeddings. *)
Lemma embed_batch_map texts :
  (forall l, encode_batch l = map encode l) ->
  embed_batch settings texts = map (embed_text settings) texts.
Proof.
  intros Hb. unfold embed_batch.
  destruct texts as [|t0 texts0] eqn:Et; [reflexivity|]. rewrite <- Et. clear Et.
  destruct (map snd (valid_entries 0 texts)) eqn:Ev.
  - symmetry. eapply valid_entries_none; eauto.
  - rewrite <- Ev, Hb, combine_valid.
    exact (fill_valid texts []).
Qed.

End BatchFacts.

Section BlankFacts.

Lemma lstrip_whitespace s : Spec.whitespace_only s = true -> lstrip s = EmptyString.
Proof.
  induction s as [|c s IH]; simpl; auto.
  destruct (is_space c); simpl; [exact IH | discriminate].
Qed.

Lemma rstrip_head c s : is_space c = false -> truthy (rstrip (String c s)) = true.
Proof. intros H. simpl. destruct (rstrip s); [now rewrite H | reflexivity]. Qed.

Lemma strip_truthy s : truthy (strip s) = negb (Spec.whitespace_only s).
Proof.
  unfold strip.
  induction s as [|c s IH]; [reflexivity|].
  cbn [lstrip Spec.whitespace_only].
  destruct (is_space c) eqn:E; [exact IH|].
  now rewrite rstrip_head.
Qed.

Lemma non_blank_whitespace s :
  EmbeddingService.non_blank s = negb (Spec.whitespace_only s).
Proof.
  unfold EmbeddingService.non_blank. rewrite strip_truthy.
  destruct s; reflexivity.
Qed.

End BlankFacts.

(** C5. For a model whose batch call encodes each text as its single call
    does, [embed_batch] returns one vector per text, in input order: the
    vector at index [i] is [embed_text] of the text at index [i]; it is the
    all-zero vector of the configured dimension for an empty or
    white-space-only text and the model's encoding for any other text. *)
Theorem embed_batch_keeps_order :
  forall (model : SentenceTransformer) (settings : Settings) (texts : list string),
    (forall l, encode_batch l = map encode l) ->
    let batch := EmbeddingService.embed_batch settings texts in
    List.length batch = List.length texts /\
    (forall i text, nth_error texts i = Some text ->
       nth_error batch i = Some (EmbeddingService.embed_text settings text)) /\
    (forall i text, nth_error texts i = Some text ->
       Spec.whitespace_only text = true ->
       nth_error batch i
       = Some (repeat 0%R (Z.to_nat (embedding_dimension settings)))) /\
    (forall i text, nth_error texts i = Some text ->
       Spec.whitespace_only text = false ->
       nth_error batch i = Some (encode text) /\
       EmbeddingService.embed_text settings text = encode text).
Proof.
  intros model settings texts Hb batch. subst batch.
  rewrite (embed_batch_map settings texts Hb).
  split; [apply length_map|].
  assert (Hnth : forall i text, nth_error texts i = Some text ->
            nth_error (map (EmbeddingService.embed_text settings) texts) i
            = Some (EmbeddingService.embed_text settings text)).
  { intros i text Hi. now rewrite nth_error_map, Hi. }
  split; [exact Hnth|]. split.
  - intros i text Hi Hw. rewrite (Hnth _ _ Hi).
    rewrite embed_text_blank; [reflexivity|].
    now rewrite non_blank_whitespace, Hw.
  - intros i text Hi Hw. rewrite (Hnth _ _ Hi).
    assert (E : EmbeddingService.non_blank text = true)
      by now rewrite non_blank_whitespace, Hw.
    now rewrite (embed_text_non_blank settings _ E).
Qed.

Lemma embed_batch_keeps_order_witness :
  let texts := ["rag"; "   "; ""; "chat"] in
  (forall l, @encode_batch Spec.length_model l = map (@encode Spec.length_model) l) /\
  List.length (EmbeddingService.embed_batch (model := Spec.length_model)
                 default_settings texts) = 4 /\
  nth_error (EmbeddingService.embed_batch (model := Spec.length_model)
               default_settings texts) 3
  = Some (EmbeddingService.embed_text (model := Spec.length_model)
            default_settings "chat").
Proof.
  intros texts.
  assert (Hb : forall l, @encode_batch Spec.length_model l
                         = map (@encode Spec.length_model) l) by reflexivity.
  pose proof (@embed_batch_keeps_order Spec.length_model default_settings texts Hb)
    as [Hlen [Hnth _]].
  split; [exact Hb|]. split; [exact Hlen|].
  exact (Hnth 3 "chat" eq_refl).
Defined.

(* ------------------------------------------------------------------ *)
(** * The reranker *)
(* ------------------------------------------------------------------ *)

Section RerankFacts.
Import State RerankingAgent.
Context {model : SentenceTransformer}.
Variable settings : Settings.
Hypothesis encode_dimension :
  forall text, List.length (encode text) = Z.to_nat (embedding_dimension settings).

Lemma embed_text_length text :
  List.length (EmbeddingService.embed_text settings text)
  = Z.to_nat (embedding_dimension settings).
Proof.
  unfold EmbeddingService.embed_text.
  destruct (_ || _); [apply repeat_length | apply encode_dimension].
Qed.

Lemma score_chunk_blended query chunk :
  exists r,
    score_chunk settings (EmbeddingService.embed_text settings query) chunk = Return r /\
    State.chunk r = chunk /\ Spec.blended settings query r.
Proof.
  unfold score_chunk.
  destruct (@similarity_defined
              (EmbeddingService.embed_text settings query)
              (EmbeddingService.embed_text settings (content chunk))) as [sim Hs].
  { now rewrite !embed_text_length. }
  rewrite Hs. eexists; split; [reflexivity|]. split; [reflexivity|].
  exists sim. simpl. repeat split; auto.
  unfold Spec.prior_score, or_default. destruct (score chunk); lra.
Qed.

Lemma score_chunks_blended query chunks :
  exists scored,
    score_chunks settings (EmbeddingService.embed_text settings query) chunks
    = Return scored /\
    map State.chunk scored = chunks /\
    Forall (Spec.blended settings query) scored.
Proof.
  induction chunks as [|c chunks (scored & Hs & Hm & Hf)]; simpl.
  - exists []. repeat split; constructor.
  - destruct (score_chunk_blended query c) as (r & Hr & Hc & Hb).
    rewrite Hr, Hs. exists (r :: scored). repeat split.
    + simpl; congruence.
    + now constructor.
Qed.

End RerankFacts.

Lemma slice_to_nonneg {A} (n : Z) (l : list A) :
  (0 <= n)%Z -> slice_to n l = firstn (Z.to_nat n) l.
Proof.
  intros H. unfold slice_to.
  destruct (n <? 0)%Z eqn:E; [|reflexivity].
  apply Z.ltb_lt in E. lia.
Qed.

(** C7. With a model whose vectors have the configured dimension, [rerank]
    gives every retrieved chunk the score
    0.6 x (cosine similarity of the embeddings of the query and of the
    chunk) + 0.4 x (prior score), the prior score being the fused score of
    the chunk when it has one and 0.5 otherwise; the reranked chunks are
    these, sorted in descending order of that score and cut to the
    configured top-N, which is 5 by default; with no retrieved chunk the
    reranked list is empty and nothing is raised. *)
Theorem rerank_blends_and_truncates :
  forall (model : SentenceTransformer) (settings : Settings) (state : State.AgentState),
    (forall text, List.length (encode text) = Z.to_nat (embedding_dimension settings)) ->
    exists scored ranked final,
      RerankingAgent.rerank settings state = State.Done final /\
      map State.chunk scored = State.retrieved_chunks state /\
      Forall (Spec.blended settings (State.query state)) scored /\
      Permutation ranked scored /\
      Spec.descending State.rerank_score ranked /\
      State.reranked_chunks final = slice_to (reranking_top_k settings) ranked /\
      ((0 <= reranking_top_k settings)%Z ->
       State.reranked_chunks final = firstn (Z.to_nat (reranking_top_k settings)) ranked /\
       (Z.of_nat (List.length (State.reranked_chunks final)) <= reranking_top_k settings)%Z) /\
      Spec.descending State.rerank_score (State.reranked_chunks final) /\
      (State.retrieved_chunks state = [] -> State.reranked_chunks final = []) /\
      reranking_top_k default_settings = 5%Z.
Proof.
  intros model settings state Hdim.
  destruct (score_chunks_blended settings Hdim (State.query state)
              (State.retrieved_chunks state)) as (scored & Hs & Hm & Hf).
  exists scored, (sorted_reverse State.rerank_score scored).
  assert (Hdesc : Spec.descending State.rerank_score
                    (sorted_reverse State.rerank_score scored))
    by apply sorted_reverse_descending.
  unfold RerankingAgent.rerank.
  destruct (State.retrieved_chunks state) as [|c chunks] eqn:Ec.
  - destruct scored; [|discriminate]. simpl.
    eexists; split; [reflexivity|]. simpl.
    assert (Hnil : slice_to (reranking_top_k settings) (@nil State.RerankedChunk) = [])
      by (unfold slice_to; destruct (_ <? _)%Z; now rewrite firstn_nil).
    repeat split; auto; try constructor; try (now rewrite firstn_nil); simpl; lia.
  - rewrite Hs.
    eexists; split; [reflexivity|]. simpl.
    split; [exact Hm|]. split; [exact Hf|].
    split; [apply sorted_reverse_perm|]. split; [exact Hdesc|].
    split; [reflexivity|]. split; [|split; [|split]].
    + intros Hk. rewrite (slice_to_nonneg _ Hk). split; [reflexivity|].
      pose proof (firstn_le_length (Z.to_nat (reranking_top_k settings))
                    (sorted_reverse State.rerank_score scored)). lia.
    + now apply descending_slice_to.
    + discriminate.
    + reflexivity.
Qed.

Lemma rerank_blends_and_truncates_witness :
  let state :=
    State.set_retrieved_chunks
      [Spec.retrieved "doc_chunk_0" "retrieval augmented generation" (Some 0.016%R);
       Spec.retrieved "doc_chunk_1" "vector databases" None]
      (RAGWorkflow.initial_state "what is rag" None) in
  (forall text, List.length (@encode Spec.length_model text)
                = Z.to_nat (embedding_dimension Spec.one_dimension)) /\
  exists scored ranked final,
    RerankingAgent.rerank (model := Spec.length_model) Spec.one_dimension state
    = State.Done final /\
    map State.chunk scored = State.retrieved_chunks state /\
    Forall (Spec.blended (model := Spec.length_model) Spec.one_dimension
              (State.query state)) scored /\
    Permutation ranked scored /\
    Spec.descending State.rerank_score ranked /\
    State.reranked_chunks final = slice_to (reranking_top_k Spec.one_dimension) ranked.
Proof.
  intros state.
  assert (Hdim : forall text, List.length (@encode Spec.length_model text)
                              = Z.to_nat (embedding_dimension Spec.one_dimension))
    by reflexivity.
  split; [exact Hdim|].
  destruct (@rerank_blends_and_truncates Spec.length_model Spec.one_dimension state Hdim)
    as (scored & ranked & final & H1 & H2 & H3 & H4 & H5 & H6 & _).
  exists scored, ranked, final. repeat split; assumption.
Defined.

(* ------------------------------------------------------------------ *)
(** * The pipeline orchestrator *)
(* ------------------------------------------------------------------ *)

Section WorkflowFacts.
Import State RAGWorkflow.

(** A graph fails exactly when one of its nodes raises on the state the
    nodes before it produced. *)
Lemma ainvoke_stage_raises before node after state mid msg steps :
  ainvoke before state = Done mid ->
  node mid = Failed msg steps ->
  ainvoke (before ++ node :: after) state = Failed msg steps.
Proof.
  revert state.
  induction before as [|n before IH]; simpl; intros state Hb Hn.
  - injection Hb as ->. now rewrite Hn.
  - destruct (n state); [now apply IH | discriminate].
Qed.

Lemma ainvoke_failed_stage graph : forall state msg steps,
  ainvoke graph state = Failed msg steps ->
  exists before node after mid,
    graph = before ++ node :: after /\
    ainvoke before state = Done mid /\
    node mid = Failed msg steps.
Proof.
  induction graph as [|n graph IH]; simpl; intros state msg steps H; [discriminate|].
  destruct (n state) as [s'|m st] eqn:En.
  - destruct (IH _ _ _ H) as (before & node & after & mid & -> & Hb & Hn).
    exists (n :: before), node, after, mid. simpl. rewrite En. auto.
  - injection H as -> ->.
    exists [], n, graph, state. auto.
Qed.

End WorkflowFacts.

(** C8, as the code has it.  When a stage of the pipeline raises, [run]
    returns the state it built before the graph started, with the text of
    the exception in [error]: [retrieved_chunks] and [reranked_chunks] are
    the empty lists of the initial state, whatever the stages that
    completed had computed. *)
Theorem run_failure_returns_initial_state :
  forall (self : RAGWorkflow.t) (query : string) (conversation_id : option string)
         before node after mid msg steps,
    RAGWorkflow._build_graph self = before ++ node :: after ->
    RAGWorkflow.ainvoke before (RAGWorkflow.initial_state query conversation_id)
    = State.Done mid ->
    node mid = State.Failed msg steps ->
    let returned := RAGWorkflow.run self query conversation_id in
    State.error returned = Some msg /\
    State.retrieved_chunks returned = [] /\
    State.reranked_chunks returned = [] /\
    returned
    = State.set_error (Some msg)
        (State.set_processing_steps steps
           (RAGWorkflow.initial_state query conversation_id)).
Proof.
  intros self query cid before node after mid msg steps Hg Hb Hn returned.
  subst returned. unfold RAGWorkflow.run.
  rewrite Hg, (@ainvoke_stage_raises before node after _ mid msg steps Hb Hn).
  repeat split.
Qed.

Lemma run_failure_returns_initial_state_witness :
  let self := Spec.generation_fails in
  let before := [RAGWorkflow.analyze self; RAGWorkflow.retrieve self;
                 RAGWorkflow.rerank self] in
  exists mid,
    RAGWorkflow._build_graph self
    = before ++ RAGWorkflow.generate self :: [RAGWorkflow.add_citations self] /\
    RAGWorkflow.ainvoke before (RAGWorkflow.initial_state "what is rag" None)
    = State.Done mid /\
    RAGWorkflow.generate self mid
    = State.Failed "model unavailable"
        ["query_analysis"; "retrieval"; "reranking"; "generation"] /\
    State.error (RAGWorkflow.run self "what is rag" None) = Some "model unavailable" /\
    State.retrieved_chunks (RAGWorkflow.run self "what is rag" None) = [] /\
    State.reranked_chunks (RAGWorkflow.run self "what is rag" None) = [].
Proof.
  intros self before.
  eexists. split; [reflexivity|]. split; [reflexivity|]. split; [reflexivity|].
  pose proof (@run_failure_returns_initial_state self "what is rag" None
                before (RAGWorkflow.generate self) [RAGWorkflow.add_citations self]
                _ _ _ eq_refl eq_refl eq_refl) as (He & Hr & Hk & _).
  repeat split; assumption.
Defined.

(** C8, as the claim has it, fails: after retrieval and reranking have each
    delivered a chunk, a failure of the generation stage makes [run] return
    a state whose [retrieved_chunks] and [reranked_chunks] are empty. *)
Lemma run_discards_intermediate_results :
  let self := Spec.generation_fails in
  exists mid,
    RAGWorkflow.ainvoke
      [RAGWorkflow.analyze self; RAGWorkflow.retrieve self; RAGWorkflow.rerank self]
      (RAGWorkflow.initial_state "what is rag" None) = State.Done mid /\
    State.retrieved_chunks mid = [Spec.found_chunk] /\
    State.reranked_chunks mid = [Spec.ranked_chunk] /\
    (exists steps, RAGWorkflow.generate self mid = State.Failed "model unavailable" steps) /\
    State.error (RAGWorkflow.run self "what is rag" None) = Some "model unavailable" /\
    State.retrieved_chunks (RAGWorkflow.run self "what is rag" None)
    <> State.retrieved_chunks mid /\
    State.reranked_chunks (RAGWorkflow.run self "what is rag" None)
    <> State.reranked_chunks mid.
Proof.
  intros self. eexists.
  split; [reflexivity|]. split; [reflexivity|]. split; [reflexivity|].
  split; [eexists; reflexivity|]. split; [reflexivity|].
  split; discriminate.
Qed.

(* ------------------------------------------------------------------ *)
(** * The chunker: numbering *)
(* ------------------------------------------------------------------ *)

Section ChunkerFacts.
Import ChunkingService.
Context {text_splitter : TextSplitter}.
Variable md : DocumentMetadata.

(** *** Page by page: the counter moves only when a chunk is kept *)

Lemma page_chunks_loop_indices page_num page_chunks : forall chunks chunk_index,
  chunk_index = List.length chunks ->
  map Spec.index_of chunks = seq 0 (List.length chunks) ->
  let (chunks', chunk_index') :=
    page_chunks_loop md page_num page_chunks chunks chunk_index in
  chunk_index' = List.length chunks' /\
  map Spec.index_of chunks' = seq 0 (List.length chunks').
Proof.
  induction page_chunks as [|t page_chunks IH]; simpl; intros chunks idx Hi Hm; auto.
  destruct (String.length (strip t) <? 10); [now apply IH|].
  apply IH.
  - rewrite length_app; simpl; lia.
  - rewrite map_app, length_app, Hm, seq_app. simpl. now subst idx.
Qed.

Lemma pages_loop_indices : forall sections chunks chunk_index out,
  chunk_index = List.length chunks ->
  map Spec.index_of chunks = seq 0 (List.length chunks) ->
  pages_loop md sections chunks chunk_index = Return out ->
  map Spec.index_of out = seq 0 (List.length out).
Proof.
  fix IH 1. intros [|number [|text rest]] chunks idx out Hi Hm; simpl.
  - intros [= <-]; exact Hm.
  - intros [= <-]; exact Hm.
  - destruct (int number) as [page_num|e]; [|discriminate].
    destruct (negb (truthy (strip text)) || (strip text =? "[No text content]")%string).
    + now apply IH.
    + pose proof (page_chunks_loop_indices page_num (split_text (strip text)) chunks Hi Hm)
        as Hp.
      destruct (page_chunks_loop md page_num (split_text (strip text)) chunks idx)
        as [chunks' idx'].
      destruct Hp as [Hi' Hm']. now apply IH.
Qed.

(** [_chunk_with_pages] establishes the invariant. *)
Lemma chunk_with_pages_numbered sections out :
  _chunk_with_pages sections md = Return out -> Spec.numbered out.
Proof.
  unfold _chunk_with_pages.
  destruct (pages_loop md (tl sections) [] 0) as [chunks|e] eqn:E; [|discriminate].
  intros [= <-].
  apply pages_loop_indices in E; auto.
  unfold Spec.numbered. rewrite length_map. split.
  - rewrite map_map. exact E.
  - apply Forall_forall. intros c Hc.
    apply in_map_iff in Hc as (c0 & <- & _). reflexivity.
Qed.

(** *** Plain text: the index and the total are those before the filter *)

Lemma plain_loop_total total : forall text_chunks idx,
  Forall (fun c => total_chunks (metadata c) = Some total)
    (plain_loop md total idx text_chunks).
Proof.
  induction text_chunks as [|t text_chunks IH]; simpl; intros idx; [constructor|].
  destruct (String.length (strip t) <? 10); [apply IH|].
  constructor; [reflexivity | apply IH].
Qed.

Lemma plain_loop_length total : forall text_chunks idx,
  List.length (plain_loop md total idx text_chunks) <= List.length text_chunks.
Proof.
  induction text_chunks as [|t text_chunks IH]; simpl; intros idx; [lia|].
  destruct (String.length (strip t) <? 10); simpl; specialize (IH (S idx)); lia.
Qed.

Lemma plain_loop_drops total : forall text_chunks idx t,
  In t text_chunks -> Spec.dropped t ->
  List.length (plain_loop md total idx text_chunks) < List.length text_chunks.
Proof.
  induction text_chunks as [|t0 text_chunks IH]; simpl; intros idx t Hin Hd; [tauto|].
  destruct Hin as [->|Hin].
  - unfold Spec.dropped in Hd. apply Nat.ltb_lt in Hd. rewrite Hd.
    pose proof (plain_loop_length total text_chunks (S idx)). lia.
  - specialize (IH (S idx) t Hin Hd).
    destruct (String.length (strip t0) <? 10); simpl; lia.
Qed.

Lemma chunk_plain_text_not_numbered content t :
  In t (split_text content) -> Spec.dropped t ->
  _chunk_plain_text content md <> [] ->
  ~ Spec.numbered (_chunk_plain_text content md).
Proof.
  unfold _chunk_plain_text. intros Hin Hd Hne [_ Htot].
  pose proof (@plain_loop_drops (List.length (split_text content)) _ 0 _ Hin Hd) as Hlt.
  pose proof (plain_loop_total (List.length (split_text content)) (split_text content) 0)
    as Hall.
  remember (plain_loop md (List.length (split_text content)) 0 (split_text content))
    as out eqn:Eo.
  destruct out as [|c out]; [congruence|].
  inversion Htot as [|? ? Hc _]; inversion Hall as [|? ? Hc' _]; subst.
  rewrite Hc' in Hc. injection Hc as Hc. simpl in Hlt. lia.
Qed.

End ChunkerFacts.

(** C2, where the code departs from it.  On a document without page
    markers, as soon as the splitter yields one text chunk that the
    minimum-length filter drops, the chunks returned still carry the index
    they had before the filter and the number of text chunks before the
    filter as [total_chunks]; so, unless nothing is returned, the returned
    list does not have indices 0..n-1 and total n.  (With page markers the
    invariant holds: lemma [chunk_with_pages_numbered].) *)
Theorem chunk_plain_text_miscounts :
  forall (text_splitter : TextSplitter) (content : string)
         (md : ChunkingService.DocumentMetadata) (t : string),
    List.length (ChunkingService.re_split content) <= 1 ->
    In t (split_text content) -> Spec.dropped t ->
    let chunks := ChunkingService._chunk_plain_text content md in
    ChunkingService.chunk_document content md = Return chunks /\
    List.length chunks < List.length (split_text content) /\
    Forall (fun c => ChunkingService.total_chunks (ChunkingService.metadata c)
                     = Some (List.length (split_text content))) chunks /\
    (chunks <> [] -> ~ Spec.numbered chunks).
Proof.
  intros text_splitter content md t Hre Hin Hd chunks. subst chunks.
  repeat split.
  - unfold ChunkingService.chunk_document.
    destruct (1 <? List.length (ChunkingService.re_split content)) eqn:E; auto.
    apply Nat.ltb_lt in E. lia.
  - unfold ChunkingService._chunk_plain_text. eapply plain_loop_drops; eauto.
  - apply plain_loop_total.
  - intros Hne. eapply chunk_plain_text_not_numbered; eauto.
Qed.

Lemma chunk_plain_text_miscounts_witness :
  let kept := Spec.chunk_of "doc" 1 2
                "Retrieval augmented generation answers from documents." in
  List.length (ChunkingService.re_split Spec.headed_text) <= 1 /\
  In "Summary" (@split_text Spec.paragraph_splitter Spec.headed_text) /\
  Spec.dropped "Summary" /\
  ChunkingService.chunk_document (text_splitter := Spec.paragraph_splitter)
    Spec.headed_text (Spec.doc "doc") = Return [kept] /\
  ~ Spec.numbered [kept].
Proof.
  intros kept.
  assert (H1 : List.length (ChunkingService.re_split Spec.headed_text) <= 1)
    by (vm_compute; lia).
  assert (H2 : In "Summary" (@split_text Spec.paragraph_splitter Spec.headed_text))
    by (vm_compute; auto).
  assert (H3 : Spec.dropped "Summary") by (vm_compute; lia).
  pose proof (@chunk_plain_text_miscounts Spec.paragraph_splitter Spec.headed_text
                (Spec.doc "doc") "Summary" H1 H2 H3) as (Hc & _ & _ & Hn).
  split; [exact H1|]. split; [exact H2|]. split; [exact H3|].
  split; [exact Hc|].
  apply Hn. discriminate.
Defined.

(* ------------------------------------------------------------------ *)
(** * The chunker: merging small chunks *)
(* ------------------------------------------------------------------ *)

Section StringFacts.

Lemma append_assoc (a b c : string) : ((a ++ b) ++ c = a ++ (b ++ c))%string.
Proof. induction a as [|x a IH]; simpl; [reflexivity | now rewrite IH]. Qed.

Lemma concat_snoc sep x l y :
  (String.concat sep ((x :: l) ++ [y])
   = String.concat sep (x :: l) ++ sep ++ y)%string.
Proof.
  revert x. induction l as [|x' l IH]; intros x; [reflexivity|].
  change (String.concat sep ((x :: x' :: l) ++ [y]))
    with (x ++ sep ++ String.concat sep ((x' :: l) ++ [y]))%string.
  change (String.concat sep (x :: x' :: l))
    with (x ++ sep ++ String.concat sep (x' :: l))%string.
  now rewrite IH, !append_assoc.
Qed.

Lemma truthy_append a b : truthy a = true -> truthy (a ++ b) = true.
Proof. destruct a; [discriminate | reflexivity]. Qed.

Lemma truthy_nonempty a : a <> EmptyString -> truthy a = true.
Proof. destruct a; [congruence | reflexivity]. Qed.

Lemma truthy_concat sep x l :
  x <> EmptyString -> truthy (String.concat sep (x :: l)) = true.
Proof.
  intros Hx. destruct l; simpl.
  - now apply truthy_nonempty.
  - now apply truthy_append, truthy_nonempty.
Qed.

End StringFacts.

Section MergeFacts.
Import ChunkingService.
Variable min_size : Z.

Lemma same_but_numbering_refl m : Spec.same_but_numbering m m.
Proof. repeat split. Qed.

Lemma undersized_ltb c :
  (Z.of_nat (String.length (content c)) <? min_size)%Z = true
  <-> Spec.undersized min_size c.
Proof. apply Z.ltb_lt. Qed.

Lemma buffer_truthy pending buffer bm :
  Forall Spec.has_content pending -> Spec.buffer_holds pending buffer bm ->
  truthy buffer = match pending with [] => false | _ => true end.
Proof.
  intros Hc Hb. destruct pending as [|c pending]; unfold Spec.buffer_holds in Hb.
  - destruct Hb as [-> _]; reflexivity.
  - destruct Hb as [-> _]. inversion Hc; subst. now apply truthy_concat.
Qed.

Lemma flushed_run (merged : list Chunk) pending c rest :
  pending = c :: rest -> Forall (Spec.undersized min_size) pending ->
  Spec.made_from min_size pending
    {| chunk_id := (doc_id (metadata c) ++ "_chunk_"
                    ++ str_of_nat (List.length merged))%string;
       content := String.concat " " (map content pending);
       metadata := metadata c |}.
Proof.
  intros -> Hu. right. exists c, rest. repeat split; auto.
Qed.

Lemma kept_chunk c :
  ~ Spec.undersized min_size c -> Spec.made_from min_size [c] c.
Proof. intros Hn. left. exists c. repeat split; auto. Qed.

Lemma not_run_big c : ~ Spec.undersized min_size c -> ~ Spec.is_run min_size [c].
Proof. intros Hn [_ Hf]. inversion Hf; subst; contradiction. Qed.

(** The loop cuts what it has pending and what it still reads into
    groups, in order, and appends one chunk per group. *)
Lemma merge_loop_groups : forall chunks merged buffer bm pending,
  Forall Spec.has_content chunks ->
  Forall Spec.has_content pending ->
  Forall (Spec.undersized min_size) pending ->
  Spec.buffer_holds pending buffer bm ->
  exists groups outs,
    merge_loop min_size chunks merged buffer bm = Return (merged ++ outs) /\
    List.concat groups = pending ++ chunks /\
    Forall2 (Spec.made_from min_size) groups outs /\
    Spec.maximal_runs min_size groups.
Proof.
  induction chunks as [|chunk chunks IH]; intros merged buffer bm pending Hc Hp Hu Hb.
  - simpl. rewrite (@buffer_truthy pending buffer bm Hp Hb).
    destruct pending as [|c rest].
    + exists [], []. rewrite app_nil_r. repeat split; constructor.
    + destruct Hb as [-> ->]. unfold flush.
      eexists [c :: rest], [_]. split; [reflexivity|].
      split; [simpl; now rewrite !app_nil_r|].
      split; [|simpl; tauto].
      constructor; [|constructor]. now apply flushed_run with (rest := rest).
  - inversion Hc as [|? ? Hchunk Hc']; subst.
    cbn [merge_loop]. rewrite (@buffer_truthy pending buffer bm Hp Hb).
    destruct (Z.of_nat (String.length (content chunk)) <? min_size)%Z eqn:E.
    + apply undersized_ltb in E.
      assert (Hp' : Forall Spec.has_content (pending ++ [chunk]))
        by (apply Forall_app; split; [assumption | now constructor]).
      assert (Hu' : Forall (Spec.undersized min_size) (pending ++ [chunk]))
        by (apply Forall_app; split; [assumption | now constructor]).
      destruct pending as [|c rest].
      * destruct (IH merged (content chunk) (Some (metadata chunk)) [chunk]
                    Hc' Hp' Hu') as (groups & outs & Hm & Hg & Hf & Hx).
        { split; reflexivity. }
        exists groups, outs. repeat split; assumption.
      * destruct Hb as [-> ->].
        destruct (IH merged
                    (String.concat " " (map content (c :: rest)) ++ " " ++ content chunk)%string
                    (Some (metadata c)) ((c :: rest) ++ [chunk]) Hc' Hp' Hu')
          as (groups & outs & Hm & Hg & Hf & Hx).
        { split; [|reflexivity].
          rewrite map_app. simpl map. now rewrite concat_snoc. }
        exists groups, outs. rewrite <- app_assoc in Hg. repeat split; assumption.
    + assert (Hbig : ~ Spec.undersized min_size chunk).
      { intros H. apply undersized_ltb in H. congruence. }
      destruct pending as [|c rest].
      * destruct Hb as [-> ->].
        destruct (IH (merged ++ [chunk]) EmptyString None [] Hc' Hp Hu)
          as (groups & outs & Hm & Hg & Hf & Hx).
        { split; reflexivity. }
        exists ([chunk] :: groups), (chunk :: outs).
        rewrite Hm, <- app_assoc. split; [reflexivity|].
        split; [simpl; now rewrite Hg|].
        split; [constructor; [now apply kept_chunk | assumption]|].
        simpl. split; [|assumption].
        destruct groups; [tauto|]. intros [Hr _]. now apply (not_run_big Hbig).
      * destruct Hb as [-> ->]. unfold flush.
        destruct (IH ((merged ++ [ {| chunk_id := (doc_id (metadata c) ++ "_chunk_"
                                        ++ str_of_nat (List.length merged))%string;
                                      content := String.concat " " (map content (c :: rest));
                                      metadata := metadata c |} ]) ++ [chunk])
                    EmptyString None [] Hc' (Forall_nil _) (Forall_nil _))
          as (groups & outs & Hm & Hg & Hf & Hx).
        { split; reflexivity. }
        eexists ((c :: rest) :: [chunk] :: groups), (_ :: chunk :: outs).
        rewrite Hm, <- !app_assoc. split; [reflexivity|].
        split; [simpl; rewrite Hg; simpl; reflexivity|].
        split.
        { constructor; [now apply flushed_run with (rest := rest)|].
          constructor; [now apply kept_chunk | assumption]. }
        simpl. split; [intros [_ Hr]; now apply (not_run_big Hbig)|].
        split; [|assumption].
        destruct groups; [tauto|]. intros [Hr _]. now apply (not_run_big Hbig).
Qed.

End MergeFacts.

Section RenumberFacts.
Import ChunkingService.
Variable min_size : Z.

Lemma renumber_length total : forall merged idx,
  List.length (renumber total idx merged) = List.length merged.
Proof. induction merged; simpl; intros; [reflexivity | now rewrite IHmerged]. Qed.

Lemma renumber_indices total : forall merged idx,
  map Spec.index_of (renumber total idx merged) = seq idx (List.length merged).
Proof.
  induction merged as [|c merged IH]; simpl; intros idx; [reflexivity|].
  now rewrite IH.
Qed.

Lemma renumber_total total : forall merged idx,
  Forall (fun c => total_chunks (metadata c) = Some total) (renumber total idx merged).
Proof.
  induction merged as [|c merged IH]; simpl; intros idx; constructor; auto.
Qed.

Lemma renumber_numbered merged :
  Spec.numbered (renumber (List.length merged) 0 merged).
Proof.
  unfold Spec.numbered. rewrite renumber_length. split.
  - apply renumber_indices.
  - apply renumber_total.
Qed.

Lemma renumber_made_from total : forall groups merged idx,
  Forall2 (Spec.made_from min_size) groups merged ->
  Forall2 (Spec.made_from min_size) groups (renumber total idx merged).
Proof.
  intros groups merged idx H. revert idx.
  induction H as [|g o groups merged Hgo _ IH]; intros idx; simpl; constructor.
  - exact Hgo.
  - apply IH.
Qed.

(** The merge as a whole: the input is cut into consecutive groups, in
    order, each group being one chunk that is not undersized or a maximal
    run of undersized chunks; the output has one chunk per group, and is
    numbered afresh. *)
Lemma merge_structure chunks :
  Forall Spec.has_content chunks ->
  exists groups out,
    merge_small_chunks chunks min_size = Return out /\
    List.concat groups = chunks /\
    Forall2 (Spec.made_from min_size) groups out /\
    Spec.maximal_runs min_size groups /\
    Spec.numbered out.
Proof.
  intros Hc. unfold merge_small_chunks.
  destruct chunks as [|c0 chunks0] eqn:E.
  - exists [], []. repeat split; constructor.
  - rewrite <- E in *. clear E.
    destruct (@merge_loop_groups min_size chunks [] EmptyString None []
                Hc (Forall_nil _) (Forall_nil _))
      as (groups & outs & Hm & Hg & Hf & Hx).
    { split; reflexivity. }
    rewrite Hm. simpl app.
    exists groups, (renumber (List.length outs) 0 outs).
    split; [reflexivity|]. split; [exact Hg|].
    split; [now apply renumber_made_from|].
    split; [exact Hx | apply renumber_numbered].
Qed.

Lemma made_from_joins group out :
  Spec.made_from min_size group out -> Spec.joins min_size group out.
Proof.
  intros [(c & Hg & Hn & _ & Hc & _)|(c & rest & Hg & Hu & Hc & _)].
  - left. exists c. auto.
  - right. split; [split; [subst; discriminate | exact Hu] | exact Hc].
Qed.


End RenumberFacts.

(** C3, as the code has it.  On chunks with non-empty content,
    [merge_small_chunks] cuts the input, in order, into consecutive groups:
    each chunk that is not undersized is a group of its own, and the
    undersized chunks between them form maximal runs.  The output has one
    chunk per group, in the same order: the chunk itself, or the contents
    of the run joined by single spaces.  The source documents of the chunks
    play no part. *)
Theorem merge_joins_runs_in_order :
  forall (chunks : list ChunkingService.Chunk) (min_size : Z),
    Forall Spec.has_content chunks ->
    exists groups out,
      ChunkingService.merge_small_chunks chunks min_size = Return out /\
      List.concat groups = chunks /\
      Forall2 (Spec.joins min_size) groups out /\
      Spec.maximal_runs min_size groups.
Proof.
  intros chunks min_size Hc.
  destruct (merge_structure min_size Hc) as (groups & out & Hm & Hg & Hf & Hx & _).
  exists groups, out. repeat split; auto.
  eapply Forall2_impl; [|exact Hf]. apply made_from_joins.
Qed.

Lemma merge_joins_runs_in_order_witness :
  Forall Spec.has_content Spec.mixed_chunks /\
  exists groups out,
    ChunkingService.merge_small_chunks Spec.mixed_chunks 10 = Return out /\
    List.concat groups = Spec.mixed_chunks /\
    Forall2 (Spec.joins 10) groups out /\
    Spec.maximal_runs 10 groups.
Proof.
  assert (Hc : Forall Spec.has_content Spec.mixed_chunks)
    by (repeat constructor; discriminate).
  split; [exact Hc|].
  exact (@merge_joins_runs_in_order Spec.mixed_chunks 10%Z Hc).
Defined.

(** C3, as the claim has it, fails: two undersized neighbours that belong
    to two different documents are merged into one chunk. *)
Lemma merge_crosses_documents :
  let a := Spec.chunk_of "report" 0 1 "alpha" in
  let b := Spec.chunk_of "memo" 0 1 "beta" in
  ChunkingService.doc_id (ChunkingService.metadata a)
  <> ChunkingService.doc_id (ChunkingService.metadata b) /\
  exists out,
    ChunkingService.merge_small_chunks [a; b] 100 = Return [out] /\
    ChunkingService.content out = "alpha beta" /\
    ChunkingService.doc_id (ChunkingService.metadata out) = "report".
Proof.
  intros a b. split; [discriminate|].
  eexists. split; [reflexivity|]. split; reflexivity.
Qed.



(* ------------------------------------------------------------------ *)
(** * More on the hybrid retriever *)
(* ------------------------------------------------------------------ *)

Section FusionKeys.
Import HybridSearch.
Variables (w : R) (k : nat).

Lemma add_dense_keys results : forall rank fused x,
  In x (map fst (add_dense w k rank results fused))
  <-> In x (Spec.ids results) \/ In x (map fst fused).
Proof.
  induction results as [|h results IH]; simpl; intros rank fused x; [tauto|].
  rewrite IH, dict_set_keys_in. intuition (subst; auto).
Qed.

Lemma add_sparse_keys results : forall rank fused x,
  In x (map fst (add_sparse w k rank results fused))
  <-> In x (Spec.ids results) \/ In x (map fst fused).
Proof.
  induction results as [|h results IH]; simpl; intros rank fused x; [tauto|].
  rewrite IH.
  destruct (dict_get (hit_chunk_id h) fused);
    rewrite dict_set_keys_in; intuition (subst; auto).
Qed.

Lemma dict_set_fresh {V} key (v : V) d :
  ~ In key (map fst d) -> dict_set key v d = d ++ [(key, v)].
Proof.
  induction d as [|[k0 v0] d IH]; simpl; intros Hn; [reflexivity|].
  destruct (String.eqb key k0) eqn:E.
  - apply String.eqb_eq in E. subst. tauto.
  - rewrite IH; tauto.
Qed.

Lemma dense_items_keys results : forall rank,
  map fst (Props.dense_items w k rank results) = Spec.ids results.
Proof.
  induction results as [|h results IH]; simpl; intros rank; [reflexivity|].
  now rewrite IH.
Qed.

Lemma add_dense_fresh results : forall rank fused,
  NoDup (Spec.ids results) ->
  (forall x, In x (Spec.ids results) -> ~ In x (map fst fused)) ->
  add_dense w k rank results fused = fused ++ Props.dense_items w k rank results.
Proof.
  induction results as [|h results IH]; simpl; intros rank fused Hn Hf.
  - now rewrite app_nil_r.
  - inversion Hn as [|? ? Hnot Hn']; subst.
    rewrite IH; auto.
    + rewrite dict_set_fresh by (apply Hf; now left).
      now rewrite <- app_assoc.
    + intros x Hx. rewrite dict_set_keys_in. intros [->|Hin]; [contradiction|].
      apply (Hf x); auto.
Qed.

End FusionKeys.

Section SortedInput.
Variable A : Type.
Variable key : A -> R.

(** A stable sort leaves a list that is already in order as it is. *)
Lemma sorted_reverse_descending_id (l : list A) :
  Spec.descending key l -> sorted_reverse key l = l.
Proof.
  unfold Spec.descending.
  induction l as [|x l IH]; intros Hs; [reflexivity|].
  inversion Hs as [|? ? Hl Hx]; subst. simpl. rewrite (IH Hl).
  destruct l as [|y l]; [reflexivity|]. simpl.
  inversion Hx as [|? ? Hxy _]; subst.
  destruct (Rlt_dec (key x) (key y)); [lra | reflexivity].
Qed.

End SortedInput.

Section DenseOnly.
Import HybridSearch.
Variables (dw : R) (k : nat).
Hypothesis dw_nonneg : (0 <= dw)%R.

Lemma share_antitone (r r' : Z) :
  (1 <= r <= r')%Z ->
  (dw / IZR (Z.of_nat k + r') <= dw / IZR (Z.of_nat k + r))%R.
Proof.
  intros Hr. unfold Rdiv.
  apply Rmult_le_compat_l; [exact dw_nonneg|].
  apply Rinv_le_contravar.
  - apply IZR_lt. lia.
  - apply IZR_le. lia.
Qed.

Lemma dense_items_below results : forall rank r0,
  (1 <= r0 <= rank)%Z ->
  Forall (fun it => (dw / IZR (Z.of_nat k + r0) >= fused_score (result_of_item it))%R)
    (Props.dense_items dw k rank results).
Proof.
  induction results as [|h results IH]; simpl; intros rank r0 Hr; constructor.
  - unfold fused_score; simpl. apply Rle_ge, share_antitone. lia.
  - apply IH. lia.
Qed.

Lemma dense_items_descending results : forall rank,
  (1 <= rank)%Z ->
  Spec.descending fused_score (map result_of_item (Props.dense_items dw k rank results)).
Proof.
  unfold Spec.descending.
  induction results as [|h results IH]; simpl; intros rank Hr; constructor.
  - apply IH. lia.
  - rewrite Forall_map.
    eapply Forall_impl; [|apply (@dense_items_below results (rank + 1)%Z rank); lia].
    intros it Hit. exact Hit.
Qed.

Lemma dense_items_scores results : forall rank,
  map (fun it => score (snd it)) (Props.dense_items dw k rank results)
  = map (fun i => (dw / IZR (Z.of_nat k + (rank + Z.of_nat i)))%R)
      (seq 0 (List.length results)).
Proof.
  induction results as [|h results IH]; simpl; intros rank; [reflexivity|].
  f_equal.
  - now rewrite Z.add_0_r.
  - rewrite IH, <- seq_shift, map_map.
    apply map_ext. intros i. do 3 f_equal. lia.
Qed.

(** Without sparse hits the fusion is the dense list itself. *)
Lemma fusion_dense_only dense sw :
  NoDup (Spec.ids dense) ->
  _reciprocal_rank_fusion dense [] dw sw k
  = map result_of_item (Props.dense_items dw k 1 dense).
Proof.
  intros Hn. unfold _reciprocal_rank_fusion. simpl add_sparse.
  rewrite add_dense_fresh by (auto; intros x _ []).
  simpl app. apply sorted_reverse_descending_id, dense_items_descending. lia.
Qed.

End DenseOnly.

Lemma slice_to_map {A B} (f : A -> B) (n : Z) (l : list A) :
  slice_to n (map f l) = map f (slice_to n l).
Proof.
  unfold slice_to. rewrite length_map.
  destruct (n <? 0)%Z; apply firstn_map.
Qed.

Lemma slice_to_In {A} (n : Z) (l : list A) (x : A) :
  In x (slice_to n l) -> In x l.
Proof. unfold slice_to. destruct (n <? 0)%Z; apply firstn_In. Qed.

Lemma slice_to_NoDup {A} (n : Z) (l : list A) :
  NoDup l -> NoDup (slice_to n l).
Proof.
  intros Hn. unfold slice_to.
  destruct (n <? 0)%Z;
    match goal with |- NoDup (firstn ?m l) =>
      rewrite <- (firstn_skipn m l) in Hn; now apply NoDup_app_remove_r in Hn end.
Qed.

Lemma fusion_ids_iff (dense sparse : list Hit) (dw sw : R) (k : nat) (cid : string) :
  In cid (map HybridSearch.chunk_id
            (HybridSearch._reciprocal_rank_fusion dense sparse dw sw k))
  <-> In cid (Spec.ids dense) \/ In cid (Spec.ids sparse).
Proof.
  unfold HybridSearch._reciprocal_rank_fusion.
  assert (Hp : Permutation
            (map HybridSearch.chunk_id
               (sorted_reverse HybridSearch.fused_score
                  (map HybridSearch.result_of_item
                     (HybridSearch.add_sparse sw k 1 sparse
                        (HybridSearch.add_dense dw k 1 dense [])))))
            (map fst (HybridSearch.add_sparse sw k 1 sparse
                        (HybridSearch.add_dense dw k 1 dense [])))).
  { rewrite <- (map_map HybridSearch.result_of_item HybridSearch.chunk_id).
    apply Permutation_map, sorted_reverse_perm. }
  split.
  - intros Hin. apply (Permutation_in _ Hp) in Hin.
    apply add_sparse_keys in Hin as [Hin|Hin]; [now right|].
    apply add_dense_keys in Hin as [Hin|[]]. now left.
  - intros Hin. apply (Permutation_in _ (Permutation_sym Hp)).
    apply add_sparse_keys. destruct Hin as [Hin|Hin]; [right | now left].
    apply add_dense_keys. now left.
Qed.

(** X1. The fusion returns exactly the chunk ids of its two inputs: a chunk
    id is in the output if and only if a dense or a sparse hit carries it;
    no id occurs twice, so the output is never longer than the two lists
    together. *)
Theorem fusion_returns_the_union :
  forall (dense sparse : list Hit) (dw sw : R) (k : nat),
    let out := HybridSearch._reciprocal_rank_fusion dense sparse dw sw k in
    (forall cid, In cid (map HybridSearch.chunk_id out)
                 <-> In cid (Spec.ids dense) \/ In cid (Spec.ids sparse)) /\
    NoDup (map HybridSearch.chunk_id out) /\
    List.length out <= List.length dense + List.length sparse.
Proof.
  intros dense sparse dw sw k out.
  assert (Hids : forall cid, In cid (map HybridSearch.chunk_id out)
                   <-> In cid (Spec.ids dense) \/ In cid (Spec.ids sparse))
    by (intros cid; apply fusion_ids_iff).
  assert (Hn : NoDup (map HybridSearch.chunk_id out)) by apply fusion_ids_nodup.
  split; [exact Hids|]. split; [exact Hn|].
  rewrite <- (length_map HybridSearch.chunk_id out).
  replace (List.length dense + List.length sparse)
    with (List.length (Spec.ids dense ++ Spec.ids sparse))
    by (unfold Spec.ids; now rewrite length_app, !length_map).
  apply NoDup_incl_length; [exact Hn|].
  intros cid Hin. apply in_or_app. now apply Hids.
Qed.

(** X2. With no sparse hit, a non-negative dense weight and a dense list
    without repeated chunk ids, the fusion keeps the dense order: the
    output lists the dense chunk ids in rank order, the chunk at rank [r]
    with score [dense_weight / (60 + r)]. *)
Theorem fusion_without_sparse_keeps_dense_order :
  forall (dense : list Hit) (dw sw : R),
    (0 <= dw)%R -> NoDup (Spec.ids dense) ->
    let out := HybridSearch._reciprocal_rank_fusion dense [] dw sw HybridSearch.RRF_K in
    map HybridSearch.chunk_id out = Spec.ids dense /\
    map HybridSearch.fused_score out = Props.rank_shares dw (List.length dense).
Proof.
  intros dense dw sw Hw Hn out. subst out.
  rewrite (@fusion_dense_only dw HybridSearch.RRF_K Hw dense sw Hn). split.
  - rewrite map_map. change (fun x => HybridSearch.chunk_id (HybridSearch.result_of_item x))
      with (@fst string HybridSearch.FusedData).
    apply dense_items_keys.
  - rewrite map_map.
    change (fun x => HybridSearch.fused_score (HybridSearch.result_of_item x))
      with (fun it : string * HybridSearch.FusedData => HybridSearch.score (snd it)).
    rewrite dense_items_scores. unfold Props.rank_shares.
    rewrite <- seq_shift, map_map. apply map_ext. intros i.
    unfold Spec.partial_score. do 2 f_equal.
    change (Z.of_nat HybridSearch.RRF_K) with 60%Z. lia.
Qed.

Lemma fusion_without_sparse_keeps_dense_order_witness :
  let dense := map Spec.hit ["A"; "B"; "C"] in
  (0 <= 0.7)%R /\ NoDup (Spec.ids dense) /\
  map HybridSearch.chunk_id
    (HybridSearch._reciprocal_rank_fusion dense [] 0.7 0.3 HybridSearch.RRF_K)
  = ["A"; "B"; "C"].
Proof.
  intros dense.
  assert (Hw : (0 <= 0.7)%R) by lra.
  assert (Hn : NoDup (Spec.ids dense))
    by (repeat constructor; simpl; intuition discriminate).
  split; [exact Hw|]. split; [exact Hn|].
  exact (proj1 (@fusion_without_sparse_keeps_dense_order dense 0.7%R 0.3%R Hw Hn)).
Defined.

(** X3. Whatever [hybrid_search] returns is in descending order of fused
    score, has no chunk id twice, holds only chunk ids of the dense or of
    the sparse hits, and, for a non-negative [top_k], has at most [top_k]
    entries. *)
Theorem hybrid_search_result_shape :
  forall (bm25 : RankBM25) (store : VectorStore) (self : HybridSearch.t)
         (query : string) (top_k : Z) (dw sw : R) (filter_dict : option Dict)
         (out : list HybridSearch.FusedResult),
    HybridSearch.hybrid_search self query top_k dw sw filter_dict = Return out ->
    Spec.descending HybridSearch.fused_score out /\
    NoDup (map HybridSearch.chunk_id out) /\
    ((0 <= top_k)%Z -> (Z.of_nat (List.length out) <= top_k)%Z) /\
    exists found,
      similarity_search query (top_k * 2) filter_dict = Return found /\
      forall x, In x out ->
        In (HybridSearch.chunk_id x) (Spec.ids found) \/
        In (HybridSearch.chunk_id x)
           (Spec.ids (HybridSearch._bm25_search self query (top_k * 2))).
Proof.
  intros bm25 store self query top_k dw sw filter_dict out H.
  unfold HybridSearch.hybrid_search in H.
  destruct (Rgt_dec _ _); [discriminate|].
  destruct (similarity_search query (top_k * 2) filter_dict) as [found|e] eqn:Es;
    [|discriminate].
  injection H as <-.
  split; [apply descending_slice_to, sorted_reverse_descending|].
  split; [rewrite <- slice_to_map; apply slice_to_NoDup, fusion_ids_nodup|].
  split.
  - intros Hk. rewrite (slice_to_nonneg _ Hk).
    pose proof (firstn_le_length (Z.to_nat top_k)
                  (HybridSearch._reciprocal_rank_fusion found
                     (HybridSearch._bm25_search self query (top_k * 2))
                     dw sw HybridSearch.RRF_K)). lia.
  - exists found. split; [reflexivity|].
    intros x Hx. apply slice_to_In in Hx.
    apply (proj1 (fusion_ids_iff found _ dw sw HybridSearch.RRF_K _)).
    now apply in_map.
Qed.

Lemma hybrid_search_result_shape_witness :
  let store := Props2.fixed_store (map Spec.hit ["A"; "B"; "C"]) in
  exists out,
    HybridSearch.hybrid_search (bm25 := Spec.idle_bm25) (store := store)
      HybridSearch.__init__ "what is rag" 2 0.7 0.3 None = Return out /\
    Spec.descending HybridSearch.fused_score out /\
    NoDup (map HybridSearch.chunk_id out) /\
    (Z.of_nat (List.length out) <= 2)%Z.
Proof.
  intros store.
  assert (Hgood : ~ (Rabs (0.7 + 0.3 - 1.0) > 0.01)%R)
    by (unfold Rabs; destruct (Rcase_abs _); lra).
  eexists. split.
  - unfold HybridSearch.hybrid_search.
    destruct (Rgt_dec _ _); [contradiction | reflexivity].
  - match goal with |- Spec.descending _ ?o /\ _ =>
      assert (Hr : HybridSearch.hybrid_search (bm25 := Spec.idle_bm25) (store := store)
                     HybridSearch.__init__ "what is rag" 2 0.7 0.3 None = Return o)
    end.
    { unfold HybridSearch.hybrid_search.
      destruct (Rgt_dec _ _); [contradiction | reflexivity]. }
    destruct (@hybrid_search_result_shape Spec.idle_bm25 store HybridSearch.__init__
                "what is rag" 2%Z 0.7%R 0.3%R None _ Hr) as (Hd & Hn & Hl & _).
    split; [exact Hd|]. split; [exact Hn|]. apply Hl. lia.
Defined.



Section SparseSearch.
Import HybridSearch.
Context {bm25 : RankBM25}.

Lemma bm25_result_hits self scores idx h :
  In h (bm25_result self scores idx) ->
  exists chunk doc s,
    nth_error (bm25_metadata self) idx = Some chunk /\
    nth_error (bm25_corpus self) idx = Some doc /\
    nth_error scores idx = Some s /\ (s > 0)%R /\
    h = {| hit_chunk_id := or_default (ic_chunk_id chunk) ("bm25_" ++ str_of_nat idx)%string;
           hit_score := Some s;
           hit_content := doc;
           hit_metadata := or_default (ic_metadata chunk) [] |}.
Proof.
  unfold bm25_result.
  destruct (nth_error scores idx) as [s|]; [|intros []].
  destruct (nth_error (bm25_metadata self) idx) as [chunk|]; [|intros []].
  destruct (nth_error (bm25_corpus self) idx) as [doc|]; [|intros []].
  destruct (Rgt_dec s 0); [|intros []].
  intros [<-|[]]. exists chunk, doc, s. auto.
Qed.

Lemma bm25_result_length self scores idx :
  List.length (bm25_result self scores idx) <= 1.
Proof.
  unfold bm25_result.
  destruct (nth_error scores idx); [|simpl; lia].
  destruct (nth_error (bm25_metadata self) idx); [|simpl; lia].
  destruct (nth_error (bm25_corpus self) idx); [|simpl; lia].
  destruct (Rgt_dec _ 0); simpl; lia.
Qed.

Lemma flat_map_length_le {A B} (f : A -> list B) (l : list A) :
  (forall a, List.length (f a) <= 1) ->
  List.length (flat_map f l) <= List.length l.
Proof.
  intros Hf. induction l as [|a l IH]; simpl; [lia|].
  rewrite length_app. specialize (Hf a). lia.
Qed.

Lemma index_for_bm25_cons self c chunks :
  index_for_bm25 self (c :: chunks)
  = {| bm25_index :=
         Some (BM25Okapi_new
                 (map (fun doc => split (lower doc)) (map ic_content (c :: chunks))));
       bm25_corpus := map ic_content (c :: chunks);
       bm25_metadata := c :: chunks |}.
Proof. reflexivity. Qed.

End SparseSearch.

(** X5. After [index_for_bm25(chunks)], every hit of a sparse search stands
    for one of the indexed chunks: it has that chunk's content, its chunk id
    (or [bm25_<position>] when the chunk has none), its metadata (or an
    empty one), and a strictly positive score; for a non-negative [top_k]
    there are at most [top_k] hits. *)
Theorem bm25_search_hits :
  forall (bm25 : RankBM25) (self : HybridSearch.t)
         (chunks : list HybridSearch.IndexedChunk) (query : string) (top_k : Z),
    let hits := HybridSearch._bm25_search (HybridSearch.index_for_bm25 self chunks)
                  query top_k in
    Forall (Props.hit_of_indexed chunks) hits /\
    ((0 <= top_k)%Z -> (Z.of_nat (List.length hits) <= top_k)%Z).
Proof.
  intros bm25 self chunks query top_k hits. subst hits.
  destruct chunks as [|c0 chunks0].
  - simpl. split; [constructor | simpl; lia].
  - rewrite index_for_bm25_cons.
    remember (c0 :: chunks0) as chunks eqn:Ec. clear Ec.
    unfold HybridSearch._bm25_search; cbn [HybridSearch.bm25_index]. split.
    + apply Forall_forall. intros h Hh.
      apply in_flat_map in Hh as (idx & _ & Hh).
      apply bm25_result_hits in Hh as (chunk & doc & s & Hm & Hd & Hs & Hpos & ->).
      cbn [HybridSearch.bm25_metadata HybridSearch.bm25_corpus] in Hm, Hd.
      rewrite nth_error_map, Hm in Hd. injection Hd as <-.
      exists idx, chunk, s. repeat split; auto.
    + intros Hk.
      match goal with |- (Z.of_nat (List.length (flat_map ?f ?l)) <= _)%Z =>
        pose proof (@flat_map_length_le _ _ f l (bm25_result_length _ _)) as Hl
      end.
      rewrite (slice_to_nonneg _ Hk) in Hl |- *.
      match type of Hl with _ <= List.length (firstn ?n ?l) =>
        pose proof (firstn_le_length n l) end.
      lia.
Qed.

Lemma bm25_search_hits_witness :
  let lib := Props2.scored_bm25 [1%R; 0%R] [1; 0] in
  let chunks := [Props2.indexed "doc_chunk_0" "retrieval augmented generation";
                 Props2.indexed "doc_chunk_1" "vector databases"] in
  let hits := HybridSearch._bm25_search (bm25 := lib)
                (HybridSearch.index_for_bm25 HybridSearch.__init__ chunks)
                "retrieval" 5 in
  (0 <= 5)%Z /\
  Forall (Props.hit_of_indexed chunks) hits /\
  (Z.of_nat (List.length hits) <= 5)%Z.
Proof.
  intros lib chunks hits.
  destruct (@bm25_search_hits lib HybridSearch.__init__ chunks "retrieval" 5%Z)
    as [Hf Hl].
  split; [lia|]. split; [exact Hf | apply Hl; lia].
Defined.

(* ------------------------------------------------------------------ *)
(** * More on the embedding client *)
(* ------------------------------------------------------------------ *)

Section CosineFacts.
Import EmbeddingService.
Local Open Scope R_scope.

Lemma dot_comm v1 : forall v2, dot v1 v2 = dot v2 v1.
Proof.
  induction v1 as [|x v1 IH]; intros [|y v2]; simpl; auto.
  rewrite IH. lra.
Qed.





End CosineFacts.




(** X7. [similarity] raises exactly when the two vectors differ in length;
    on vectors of one length it returns, and the order of the two arguments
    does not matter. *)
Theorem similarity_defined_and_symmetric :
  forall (v1 v2 : list R),
    ((exists e, EmbeddingService.similarity v1 v2 = Raise e)
     <-> List.length v1 <> List.length v2) /\
    EmbeddingService.similarity v1 v2 = EmbeddingService.similarity v2 v1.
Proof.
  intros v1 v2. split.
  - split.
    + intros [e He] Hl.
      destruct (similarity_defined _ _ Hl) as [s Hs]. congruence.
    + intros Hl. unfold EmbeddingService.similarity.
      apply Nat.eqb_neq in Hl. rewrite Hl. eauto.
  - unfold EmbeddingService.similarity.
    rewrite (Nat.eqb_sym (List.length v2)).
    destruct (Nat.eqb _ _); [|reflexivity].
    rewrite (dot_comm v2 v1), (Rmult_comm (EmbeddingService.norm v2)).
    destruct (Req_dec_T (EmbeddingService.norm v1) 0),
             (Req_dec_T (EmbeddingService.norm v2) 0); reflexivity.
Qed.



(* ------------------------------------------------------------------ *)
(** * More on the reranker *)
(* ------------------------------------------------------------------ *)

Section ZeroVector.
Import EmbeddingService.

Lemma dot_repeat_zero n : dot (repeat 0%R n) (repeat 0%R n) = 0%R.
Proof. induction n as [|n IH]; simpl; [reflexivity | rewrite IH; lra]. Qed.

Lemma norm_repeat_zero n : norm (repeat 0%R n) = 0%R.
Proof. unfold norm. rewrite dot_repeat_zero. apply sqrt_0. Qed.

End ZeroVector.

Section RerankMore.
Import State RerankingAgent.
Context {model : SentenceTransformer}.
Variable settings : Settings.

Lemma score_chunks_chunks qe : forall chunks scored,
  score_chunks settings qe chunks = Return scored ->
  map State.chunk scored = chunks /\
  Forall (fun r => exists sim,
            EmbeddingService.similarity qe
              (EmbeddingService.embed_text settings (content (State.chunk r)))
            = Return sim /\
            State.similarity r = sim /\
            rerank_score r
            = (sim * 0.6 + or_default (score (State.chunk r)) 0.5 * 0.4)%R) scored.
Proof.
  induction chunks as [|c chunks IH]; simpl; intros scored H.
  - injection H as <-. split; constructor.
  - unfold score_chunk in H.
    destruct (EmbeddingService.similarity qe _) as [sim|e] eqn:Es; [|discriminate].
    destruct (score_chunks settings qe chunks) as [rest|e]; [|discriminate].
    injection H as <-. destruct (IH rest eq_refl) as [Hm Hf].
    split; [simpl; now rewrite Hm|].
    constructor; [|exact Hf]. exists sim. simpl. now rewrite Es.
Qed.

(** The reranked chunks are among the scored ones. *)
Lemma reranked_incl (scored : list RerankedChunk) r :
  In r (slice_to (reranking_top_k settings) (sorted_reverse rerank_score scored)) ->
  In r scored.
Proof.
  intros H. apply slice_to_In in H.
  eapply Permutation_in; [apply sorted_reverse_perm | exact H].
Qed.

Lemma reranked_length (scored : list RerankedChunk) :
  List.length (slice_to (reranking_top_k settings) (sorted_reverse rerank_score scored))
  <= List.length scored.
Proof.
  rewrite <- (sorted_reverse_length rerank_score scored).
  unfold slice_to. destruct (_ <? _)%Z; rewrite length_firstn; lia.
Qed.

End RerankMore.

(** X9. [rerank] always records its step, and never invents a chunk: it
    either raises, with ["reranking"] appended to the steps, or returns a
    state that differs from the one given only in the steps, with
    ["reranking"] appended, and in [reranked_chunks], every one of which
    wraps one of the retrieved chunks; there are no more reranked chunks
    than retrieved ones. *)
Theorem rerank_outcome :
  forall (model : SentenceTransformer) (settings : Settings) (state : State.AgentState),
    let steps := State.processing_steps state ++ ["reranking"] in
    (exists e, RerankingAgent.rerank settings state = State.Failed e steps) \/
    (exists reranked,
       RerankingAgent.rerank settings state
       = State.Done (State.set_reranked_chunks reranked
                       (State.set_processing_steps steps state)) /\
       (forall r, In r reranked ->
                  In (State.chunk r) (State.retrieved_chunks state)) /\
       List.length reranked <= List.length (State.retrieved_chunks state)).
Proof.
  intros model settings state steps. subst steps.
  unfold RerankingAgent.rerank.
  destruct (State.retrieved_chunks state) as [|c chunks] eqn:Ec.
  - right. exists []. split; [reflexivity|]. split; [intros r []|simpl; lia].
  - destruct (RerankingAgent.score_chunks settings _ (c :: chunks)) as [scored|e] eqn:Es.
    + right. eexists. split; [reflexivity|].
      destruct (score_chunks_chunks _ _ _ Es) as [Hm _]. split.
      * intros r Hr. apply reranked_incl in Hr.
        rewrite <- Hm. now apply in_map.
      * rewrite <- Hm, length_map. apply reranked_length.
    + left. now exists e.
Qed.



(** X11. With a model whose vectors have the configured dimension, a query
    that is empty or white space only gives every chunk the similarity 0:
    the rerank score is then 0.4 x the prior score of the chunk. *)
Theorem rerank_blank_query :
  forall (model : SentenceTransformer) (settings : Settings) (state : State.AgentState),
    (forall text, List.length (encode text) = Z.to_nat (embedding_dimension settings)) ->
    Spec.whitespace_only (State.query state) = true ->
    exists final,
      RerankingAgent.rerank settings state = State.Done final /\
      Forall (fun r =>
                State.similarity r = 0%R /\
                State.rerank_score r = (0.4 * Spec.prior_score (State.chunk r))%R)
        (State.reranked_chunks final).
Proof.
  intros model settings state Hdim Hblank.
  destruct (score_chunks_blended settings Hdim (State.query state)
              (State.retrieved_chunks state)) as (scored & Hs & Hm & Hf).
  unfold RerankingAgent.rerank.
  destruct (State.retrieved_chunks state) as [|c chunks] eqn:Ec.
  - eexists. split; [reflexivity|]. constructor.
  - rewrite Hs. eexists. split; [reflexivity|]. simpl.
    apply Forall_forall. intros r Hr. apply reranked_incl in Hr.
    rewrite Forall_forall in Hf. destruct (Hf r Hr) as (sim & Hsim & Hrs & Hsc).
    rewrite similarity_zero_norm in Hsim.
    + injection Hsim as <-. rewrite Hrs, Hsc. split; lra.
    + now rewrite !embed_text_length.
    + left. rewrite embed_text_blank
        by (now rewrite non_blank_whitespace, Hblank).
      apply norm_repeat_zero.
Qed.

Lemma rerank_blank_query_witness :
  let state :=
    State.set_retrieved_chunks
      [Spec.retrieved "doc_chunk_0" "retrieval augmented generation" (Some 0.016%R)]
      (RAGWorkflow.initial_state "   " None) in
  (forall text, List.length (@encode Spec.length_model text)
                = Z.to_nat (embedding_dimension Spec.one_dimension)) /\
  Spec.whitespace_only (State.query state) = true /\
  exists final,
    RerankingAgent.rerank (model := Spec.length_model) Spec.one_dimension state
    = State.Done final /\
    Forall (fun r => State.similarity r = 0%R) (State.reranked_chunks final).
Proof.
  intros state.
  assert (Hdim : forall text, List.length (@encode Spec.length_model text)
                              = Z.to_nat (embedding_dimension Spec.one_dimension))
    by reflexivity.
  assert (Hb : Spec.whitespace_only (State.query state) = true) by reflexivity.
  split; [exact Hdim|]. split; [exact Hb|].
  destruct (@rerank_blank_query Spec.length_model Spec.one_dimension state Hdim Hb)
    as (final & Hr & Hf).
  exists final. split; [exact Hr|].
  eapply Forall_impl; [|exact Hf]. intros r [H _]. exact H.
Defined.

(* ------------------------------------------------------------------ *)
(** * More on the chunker *)
(* ------------------------------------------------------------------ *)

Section PageMarkers.
Import ChunkingService.

Lemma span_digits_int : forall s ds rest,
  span_digits s = (ds, rest) -> forall acc, exists z, int_digits acc ds = Some z.
Proof.
  induction s as [|c s IH]; simpl; intros ds rest H.
  - injection H as <- <-. intros acc; simpl; eauto.
  - destruct (is_digit c) eqn:Ec.
    + destruct (span_digits s) as [ds' rest'] eqn:Es.
      injection H as <- <-. intros acc. simpl. rewrite Ec. eapply IH; eauto.
    + injection H as <- <-. intros acc; simpl; eauto.
Qed.

Lemma match_page_digits s ds len :
  match_page s = Some (ds, len) ->
  ds <> EmptyString /\ forall acc, exists z, int_digits acc ds = Some z.
Proof.
  unfold match_page.
  destruct (strip_prefix "[Page " s) as [r|]; [|discriminate].
  destruct (span_digits r) as [ds' r'] eqn:Es.
  destruct ds' as [|d ds']; [discriminate|].
  destruct (strip_prefix _ r'); [|discriminate].
  intros [= <- <-]. split; [discriminate|].
  eapply span_digits_int; eauto.
Qed.

Lemma re_split_from_paged : forall s skip cur,
  exists first rest, re_split_from skip cur s = first :: rest /\ Props3.paged rest.
Proof.
  induction s as [|c s IH]; intros skip cur.
  - simpl. eexists _, []. split; [reflexivity | constructor].
  - cbn [re_split_from]. destruct skip as [|n]; [|apply IH].
    destruct (match_page (String c s)) as [[ds len]|] eqn:Em; [|apply IH].
    destruct (IH (len - 1) []) as (first & rest & -> & Hp).
    eexists _, (ds :: first :: rest). split; [reflexivity|].
    destruct (match_page_digits _ Em) as [Hne Hd].
    now constructor.
Qed.

Lemma int_of_digits number :
  number <> EmptyString ->
  (forall acc, exists z, int_digits acc number = Some z) ->
  exists z, int number = Return z.
Proof.
  intros Hne Hd. unfold int. destruct number; [congruence|].
  destruct (Hd 0%Z) as [z ->]. eauto.
Qed.

End PageMarkers.

Section ChunkerMore.
Import ChunkingService.
Context {text_splitter : TextSplitter}.
Variable md : DocumentMetadata.

Lemma pages_loop_total sections :
  Props3.paged sections ->
  forall chunks idx, exists out, pages_loop md sections chunks idx = Return out.
Proof.
  induction 1 as [|number text rest Hne Hd _ IH]; intros chunks idx; simpl; [eauto|].
  destruct (int_of_digits Hne Hd) as [z ->].
  destruct (negb (truthy (strip text)) || _); [apply IH|].
  destruct (page_chunks_loop md z (split_text (strip text)) chunks idx). apply IH.
Qed.

(** *** What every chunk carries *)

Lemma page_chunks_loop_of_document page_num page_chunks : forall chunks idx,
  Forall (Props3.of_document md) chunks ->
  Forall (Props3.of_document md)
    (fst (page_chunks_loop md page_num page_chunks chunks idx)).
Proof.
  induction page_chunks as [|t page_chunks IH]; simpl; intros chunks idx Hf; auto.
  destruct (String.length (strip t) <? 10) eqn:E; [now apply IH|].
  apply IH. apply Forall_app. split; [exact Hf|].
  constructor; [|constructor].
  apply Nat.ltb_ge in E. unfold Props3.of_document; simpl.
  repeat split; eauto.
Qed.

Lemma pages_loop_of_document : forall sections chunks idx out,
  Forall (Props3.of_document md) chunks ->
  pages_loop md sections chunks idx = Return out ->
  Forall (Props3.of_document md) out.
Proof.
  fix IH 1. intros [|number [|text rest]] chunks idx out Hf; simpl.
  - now intros [= <-].
  - now intros [= <-].
  - destruct (int number) as [page_num|e]; [|discriminate].
    destruct (negb (truthy (strip text)) || _); [now apply IH|].
    pose proof (page_chunks_loop_of_document page_num (split_text (strip text)) idx Hf)
      as Hp.
    destruct (page_chunks_loop md page_num (split_text (strip text)) chunks idx)
      as [chunks' idx'].
    now apply IH.
Qed.

Lemma stamp_total_of_document total c :
  Props3.of_document md c -> Props3.of_document md (stamp_total total c).
Proof. intros H. exact H. Qed.

Lemma plain_loop_of_document total : forall text_chunks idx,
  Forall (Props3.of_document md) (plain_loop md total idx text_chunks).
Proof.
  induction text_chunks as [|t text_chunks IH]; simpl; intros idx; [constructor|].
  destruct (String.length (strip t) <? 10) eqn:E; [apply IH|].
  constructor; [|apply IH].
  apply Nat.ltb_ge in E. unfold Props3.of_document; simpl.
  repeat split; eauto.
Qed.

(** *** Page numbers *)

Lemma page_chunks_loop_pages (P : Chunk -> Prop) page_num page_chunks :
  (forall c, page_number (metadata c) = Some page_num -> P c) ->
  forall chunks idx,
    Forall P chunks ->
    Forall P (fst (page_chunks_loop md page_num page_chunks chunks idx)).
Proof.
  intros HP.
  induction page_chunks as [|t page_chunks IH]; simpl; intros chunks idx Hf; auto.
  destruct (String.length (strip t) <? 10); [now apply IH|].
  apply IH. apply Forall_app. split; [exact Hf|].
  constructor; [|constructor]. now apply HP.
Qed.

Lemma pages_loop_pages all : forall sections chunks idx out,
  (forall x, In x sections -> In x all) ->
  Forall (Props3.on_marked_page all) chunks ->
  pages_loop md sections chunks idx = Return out ->
  Forall (Props3.on_marked_page all) out.
Proof.
  fix IH 1. intros [|number [|text rest]] chunks idx out Hin Hf; simpl.
  - now intros [= <-].
  - now intros [= <-].
  - destruct (int number) as [page_num|e] eqn:Ei; [|discriminate].
    assert (Hrest : forall x, In x rest -> In x all)
      by (intros x Hx; apply Hin; simpl; auto).
    destruct (negb (truthy (strip text)) || _); [now apply IH|].
    assert (Hp : Forall (Props3.on_marked_page all)
                   (fst (page_chunks_loop md page_num (split_text (strip text))
                           chunks idx))).
    { apply page_chunks_loop_pages; [|exact Hf].
      intros c Hc. exists number, page_num. repeat split; auto.
      apply Hin. now left. }
    destruct (page_chunks_loop md page_num (split_text (strip text)) chunks idx)
      as [chunks' idx'].
    now apply IH.
Qed.

Lemma plain_loop_no_page total : forall text_chunks idx,
  Forall (fun c => page_number (metadata c) = None)
    (plain_loop md total idx text_chunks).
Proof.
  induction text_chunks as [|t text_chunks IH]; simpl; intros idx; [constructor|].
  destruct (String.length (strip t) <? 10); [apply IH|].
  constructor; [reflexivity | apply IH].
Qed.

(** *** Indices *)

Lemma plain_loop_from total : forall text_chunks idx,
  Forall (fun c => idx <= Spec.index_of c) (plain_loop md total idx text_chunks).
Proof.
  induction text_chunks as [|t text_chunks IH]; simpl; intros idx; [constructor|].
  assert (Hrest : Forall (fun c => idx <= Spec.index_of c)
                    (plain_loop md total (S idx) text_chunks)).
  { eapply Forall_impl; [|apply IH]. simpl; intros; lia. }
  destruct (String.length (strip t) <? 10); [exact Hrest|].
  constructor; [unfold Spec.index_of; simpl; lia | exact Hrest].
Qed.

Lemma plain_loop_indices_nodup total : forall text_chunks idx,
  NoDup (map Spec.index_of (plain_loop md total idx text_chunks)).
Proof.
  induction text_chunks as [|t text_chunks IH]; simpl; intros idx; [constructor|].
  destruct (String.length (strip t) <? 10); [apply IH|].
  simpl. constructor; [|apply IH].
  intros Hin. apply in_map_iff in Hin as (c & Hc & Hin).
  pose proof (plain_loop_from total text_chunks (S idx)) as Hf.
  rewrite Forall_forall in Hf. specialize (Hf c Hin).
  unfold Spec.index_of in Hc at 2. simpl in Hc. lia.
Qed.

End ChunkerMore.

Section ChunkNames.
Import ChunkingService.

Lemma append_inj_l (a b c : string) : (a ++ b = a ++ c)%string -> b = c.
Proof. induction a as [|x a IH]; simpl; [auto | intros [= H]; auto]. Qed.

Lemma str_of_nat_parse n :
  option_map Nat.of_uint (NilZero.uint_of_string (str_of_nat n)) = Some n.
Proof.
  unfold str_of_nat.
  destruct (Nat.to_uint n) eqn:E;
    try (rewrite NilZero.usu by discriminate; simpl;
         rewrite <- E, DecimalNat.Unsigned.of_to; reflexivity).
  simpl. f_equal.
  rewrite <- (DecimalNat.Unsigned.of_to n), E. reflexivity.
Qed.

Lemma str_of_nat_inj i j : str_of_nat i = str_of_nat j -> i = j.
Proof.
  intros H. pose proof (str_of_nat_parse i) as Hi.
  rewrite H, str_of_nat_parse in Hi. congruence.
Qed.

Lemma chunk_name_inj d i j : chunk_name d i = chunk_name d j -> i = j.
Proof.
  unfold chunk_name. intros H.
  apply append_inj_l, append_inj_l in H. now apply str_of_nat_inj.
Qed.

Lemma chunk_ids_nodup md chunks :
  Forall (Props3.of_document md) chunks ->
  NoDup (map Spec.index_of chunks) ->
  NoDup (map chunk_id chunks).
Proof.
  induction chunks as [|c chunks IH]; simpl; intros Hf Hn; [constructor|].
  inversion Hf as [|? ? Hc Hf']; inversion Hn as [|? ? Hnot Hn']; subst.
  constructor; [|now apply IH].
  intros Hin. apply Hnot.
  apply in_map_iff in Hin as (c' & Hid & Hin).
  apply in_map_iff. exists c'. split; [|exact Hin].
  rewrite Forall_forall in Hf'. specialize (Hf' c' Hin).
  destruct Hc as (_ & _ & Hc & _), Hf' as (_ & _ & Hc' & _).
  rewrite Hc, Hc' in Hid. now apply chunk_name_inj in Hid.
Qed.

End ChunkNames.

Section ChunkDocument.
Import ChunkingService.
Context {text_splitter : TextSplitter}.
Variables (content : string) (md : DocumentMetadata).

(** What [chunk_document] does on a text with page markers and on one
    without. *)
Lemma chunk_document_cases :
  (1 < List.length (re_split content) /\
   exists chunks,
     pages_loop md (tl (re_split content)) [] 0 = Return chunks /\
     chunk_document content md
     = Return (map (stamp_total (List.length chunks)) chunks)) \/
  (List.length (re_split content) <= 1 /\
   chunk_document content md = Return (_chunk_plain_text content md)).
Proof.
  unfold chunk_document.
  destruct (1 <? List.length (re_split content)) eqn:E.
  - left. apply Nat.ltb_lt in E. split; [exact E|].
    unfold _chunk_with_pages, re_split.
    destruct (re_split_from_paged content 0 []) as (first & rest & Hr & Hp).
    rewrite Hr. simpl tl.
    destruct (pages_loop_total md Hp [] 0) as [chunks Hc].
    rewrite Hc. eauto.
  - right. apply Nat.ltb_ge in E. auto.
Qed.

End ChunkDocument.


(** X13. The chunks [chunk_document] returns for a document have pairwise
    distinct chunk ids. *)
Theorem chunk_document_ids_unique :
  forall (text_splitter : TextSplitter) (content : string)
         (md : ChunkingService.DocumentMetadata) (chunks : list ChunkingService.Chunk),
    ChunkingService.chunk_document content md = Return chunks ->
    NoDup (map ChunkingService.chunk_id chunks).
Proof.
  intros text_splitter content md chunks H.
  destruct (chunk_document_cases content md) as [(_ & raw & Hp & Hc)|(_ & Hc)];
    rewrite Hc in H; injection H as <-.
  - apply (chunk_ids_nodup (md := md)).
    + apply pages_loop_of_document in Hp; [|constructor].
      rewrite Forall_map. eapply Forall_impl; [|exact Hp]. intros c Hd. exact Hd.
    + apply pages_loop_indices in Hp; auto.
      rewrite map_map.
      change (fun x => Spec.index_of (ChunkingService.stamp_total (List.length raw) x))
        with Spec.index_of.
      rewrite Hp. apply seq_NoDup.
  - apply (chunk_ids_nodup (md := md)).
    + apply plain_loop_of_document.
    + apply plain_loop_indices_nodup.
Qed.

Lemma chunk_document_ids_unique_witness :
  exists chunks,
    ChunkingService.chunk_document (text_splitter := Spec.paragraph_splitter)
      Props3.two_pages (Spec.doc "doc") = Return chunks /\
    List.length chunks = 2 /\
    NoDup (map ChunkingService.chunk_id chunks).
Proof.
  eexists. split; [vm_compute; reflexivity|]. split; [reflexivity|].
  eapply (@chunk_document_ids_unique Spec.paragraph_splitter Props3.two_pages
            (Spec.doc "doc")).
  vm_compute; reflexivity.
Defined.

(** X14. On a text with page markers, the chunks [chunk_document] returns
    have the indices 0..n-1 in order and the total n, and each has the page
    number of one of the markers; on a text without page markers no chunk
    has a page number. *)
Theorem chunk_document_pages :
  forall (text_splitter : TextSplitter) (content : string)
         (md : ChunkingService.DocumentMetadata) (chunks : list ChunkingService.Chunk),
    ChunkingService.chunk_document content md = Return chunks ->
    (1 < List.length (ChunkingService.re_split content) ->
     Spec.numbered chunks /\
     Forall (Props3.on_marked_page (ChunkingService.re_split content)) chunks) /\
    (List.length (ChunkingService.re_split content) <= 1 ->
     Forall (fun c => ChunkingService.page_number (ChunkingService.metadata c) = None)
       chunks).
Proof.
  intros text_splitter content md chunks H.
  destruct (chunk_document_cases content md) as [(Hl & raw & Hp & Hc)|(Hl & Hc)];
    rewrite Hc in H; injection H as <-.
  - split; [intros _ | intros Hle; lia]. split.
    + apply (chunk_with_pages_numbered md (ChunkingService.re_split content)).
      unfold ChunkingService._chunk_with_pages. now rewrite Hp.
    + apply pages_loop_pages with (all := ChunkingService.re_split content) in Hp.
      * rewrite Forall_map. eapply Forall_impl; [|exact Hp]. intros c Hd. exact Hd.
      * intros x Hx. destruct (ChunkingService.re_split content); [contradiction|].
        now right.
      * constructor.
  - split; [intros Hgt; lia | intros _]. apply plain_loop_no_page.
Qed.

Lemma chunk_document_pages_witness :
  exists chunks,
    ChunkingService.chunk_document (text_splitter := Spec.paragraph_splitter)
      Props3.two_pages (Spec.doc "doc") = Return chunks /\
    1 < List.length (ChunkingService.re_split Props3.two_pages) /\
    Spec.numbered chunks /\
    map (fun c => ChunkingService.page_number (ChunkingService.metadata c)) chunks
    = [Some 1%Z; Some 2%Z].
Proof.
  eexists. split; [vm_compute; reflexivity|].
  assert (Hl : 1 < List.length (ChunkingService.re_split Props3.two_pages))
    by (vm_compute; lia).
  split; [exact Hl|]. split; [|reflexivity].
  refine (proj1 (proj1 (@chunk_document_pages Spec.paragraph_splitter Props3.two_pages
                          (Spec.doc "doc") _ _) Hl)).
  vm_compute; reflexivity.
Defined.

Section MergeMore.
Import ChunkingService.
Variable min_size : Z.

(** The loop never subscripts a missing [buffer_metadata]: a non-empty
    buffer always comes with its metadata. *)
Lemma merge_loop_total : forall chunks merged buffer bm,
  (truthy buffer = true -> bm <> None) ->
  exists out,
    merge_loop min_size chunks merged buffer bm = Return out /\
    List.length out
    <= List.length merged + List.length chunks + (if truthy buffer then 1 else 0).
Proof.
  induction chunks as [|chunk chunks IH]; intros merged buffer bm Hinv.
  - simpl. destruct (truthy buffer) eqn:Et.
    + destruct bm as [m|]; [|exfalso; now apply Hinv].
      simpl. eexists. split; [reflexivity|]. rewrite length_app; simpl; lia.
    + eexists. split; [reflexivity|]. lia.
  - cbn [merge_loop].
    destruct (Z.of_nat (String.length (content chunk)) <? min_size)%Z;
      destruct (truthy buffer) eqn:Et.
    + destruct (IH merged (buffer ++ " " ++ content chunk)%string bm)
        as (out & Ho & Hl).
      { intros _. now apply Hinv. }
      exists out. split; [exact Ho|].
      rewrite (@truthy_append buffer _ Et) in Hl. simpl. lia.
    + destruct (IH merged (content chunk) (Some (metadata chunk)))
        as (out & Ho & Hl); [discriminate|].
      exists out. split; [exact Ho|].
      destruct (truthy (content chunk)); simpl; lia.
    + destruct bm as [m|]; [|exfalso; now apply Hinv].
      unfold flush.
      destruct (IH ((merged ++ [ {| chunk_id := (doc_id m ++ "_chunk_"
                                        ++ str_of_nat (List.length merged))%string;
                                    content := buffer;
                                    metadata := m |} ]) ++ [chunk])
                  EmptyString None) as (out & Ho & Hl); [discriminate|].
      exists out. split; [exact Ho|].
      rewrite !length_app in Hl. simpl in Hl |- *. lia.
    + destruct (IH (merged ++ [chunk]) buffer bm) as (out & Ho & Hl).
      { rewrite Et. discriminate. }
      exists out. split; [exact Ho|].
      rewrite Et, length_app in Hl. simpl in Hl |- *. lia.
Qed.

Lemma merge_loop_all_large : forall chunks merged,
  Forall (fun c => ~ Spec.undersized min_size c) chunks ->
  merge_loop min_size chunks merged EmptyString None = Return (merged ++ chunks).
Proof.
  induction chunks as [|chunk chunks IH]; intros merged Hf.
  - simpl. now rewrite app_nil_r.
  - inversion Hf as [|? ? Hc Hf']; subst. cbn [merge_loop].
    destruct (Z.of_nat (String.length (content chunk)) <? min_size)%Z eqn:E.
    + apply undersized_ltb in E. contradiction.
    + simpl truthy. cbv iota. rewrite IH by exact Hf'.
      now rewrite <- app_assoc.
Qed.

Lemma renumber_ids total : forall merged idx,
  map chunk_id (renumber total idx merged) = map chunk_id merged /\
  map content (renumber total idx merged) = map content merged.
Proof.
  induction merged as [|c merged IH]; simpl; intros idx; [split; reflexivity|].
  destruct (IH (S idx)) as [-> ->]. split; reflexivity.
Qed.

End MergeMore.

(** X15. [merge_small_chunks] never raises, whatever the chunks and the
    minimum size; its result has the indices 0..n-1 in order, reports the
    total n on every chunk, and is never longer than its input. *)
Theorem merge_renumbers :
  forall (chunks : list ChunkingService.Chunk) (min_size : Z),
    exists out,
      ChunkingService.merge_small_chunks chunks min_size = Return out /\
      Spec.numbered out /\
      List.length out <= List.length chunks.
Proof.
  intros chunks min_size. unfold ChunkingService.merge_small_chunks.
  destruct chunks as [|c0 chunks0] eqn:E.
  - exists []. repeat split; simpl; auto; constructor.
  - rewrite <- E.
    destruct (@merge_loop_total min_size chunks [] EmptyString None) as (out & Ho & Hl);
      [discriminate|].
    rewrite Ho. eexists. split; [reflexivity|].
    split; [apply renumber_numbered|].
    rewrite renumber_length. simpl in Hl. lia.
Qed.

(** X16. When no chunk is undersized, [merge_small_chunks] merges nothing:
    it returns as many chunks as it was given, with the same chunk ids and
    contents in the same order, renumbered. *)
Theorem merge_leaves_large_chunks :
  forall (chunks : list ChunkingService.Chunk) (min_size : Z),
    Forall (fun c => ~ Spec.undersized min_size c) chunks ->
    exists out,
      ChunkingService.merge_small_chunks chunks min_size = Return out /\
      map ChunkingService.chunk_id out = map ChunkingService.chunk_id chunks /\
      map ChunkingService.content out = map ChunkingService.content chunks /\
      Spec.numbered out.
Proof.
  intros chunks min_size Hf. unfold ChunkingService.merge_small_chunks.
  destruct chunks as [|c0 chunks0] eqn:E.
  - exists []. repeat split; simpl; auto; constructor.
  - rewrite <- E in *.
    rewrite (@merge_loop_all_large min_size chunks [] Hf). simpl app.
    eexists. split; [reflexivity|].
    destruct (renumber_ids (List.length chunks) chunks 0) as [Hi Hc].
    split; [exact Hi|]. split; [exact Hc | apply renumber_numbered].
Qed.

Lemma merge_leaves_large_chunks_witness :
  Forall (fun c => ~ Spec.undersized 4 c) Spec.mixed_chunks /\
  exists out,
    ChunkingService.merge_small_chunks Spec.mixed_chunks 4 = Return out /\
    map ChunkingService.content out = map ChunkingService.content Spec.mixed_chunks.
Proof.
  assert (Hf : Forall (fun c => ~ Spec.undersized 4 c) Spec.mixed_chunks)
    by (repeat constructor; unfold Spec.undersized; simpl; lia).
  split; [exact Hf|].
  destruct (@merge_leaves_large_chunks Spec.mixed_chunks 4%Z Hf)
    as (out & Ho & _ & Hc & _).
  exists out. split; [exact Ho | exact Hc].
Defined.

Section JoinFacts.
Variable sep : string.

Lemma concat_app_nonempty (l1 l2 : list string) :
  l1 <> [] -> l2 <> [] ->
  (String.concat sep (l1 ++ l2)
   = String.concat sep l1 ++ sep ++ String.concat sep l2)%string.
Proof.
  intros H1 H2. destruct l1 as [|x l1]; [congruence|]. clear H1.
  revert x. induction l1 as [|x' l1 IH]; intros x.
  - destruct l2; [congruence | reflexivity].
  - change (String.concat sep ((x :: x' :: l1) ++ l2))
      with (x ++ sep ++ String.concat sep ((x' :: l1) ++ l2))%string.
    change (String.concat sep (x :: x' :: l1))
      with (x ++ sep ++ String.concat sep (x' :: l1))%string.
    now rewrite IH, !append_assoc.
Qed.

Lemma concat_groups (groups : list (list string)) :
  Forall (fun g => g <> []) groups ->
  String.concat sep (map (String.concat sep) groups)
  = String.concat sep (List.concat groups).
Proof.
  induction groups as [|g groups IH]; intros Hf; [reflexivity|].
  inversion Hf as [|? ? Hg Hf']; subst.
  destruct groups as [|g' groups].
  - simpl. now rewrite app_nil_r.
  - change (String.concat sep (map (String.concat sep) (g :: g' :: groups)))
      with (String.concat sep g ++ sep
            ++ String.concat sep (map (String.concat sep) (g' :: groups)))%string.
    rewrite (IH Hf').
    change (List.concat (g :: g' :: groups)) with (g ++ List.concat (g' :: groups)).
    rewrite concat_app_nonempty; auto.
    inversion Hf' as [|? ? Hg' _]; subst. simpl.
    destruct g'; [congruence | discriminate].
Qed.

End JoinFacts.

Section MergeText.
Import ChunkingService.
Variable min_size : Z.

Lemma made_from_contents groups out :
  Forall2 (Spec.made_from min_size) groups out ->
  map content out = map (String.concat " ") (map (map content) groups) /\
  Forall (fun g => g <> []) (map (map content) groups).
Proof.
  induction 1 as [|g o groups out Hgo _ [IHc IHn]]; simpl; [split; constructor|].
  destruct Hgo as [(c & -> & _ & _ & Hc & _)|(c & rest & -> & _ & Hc & _)].
  - split; [now rewrite IHc, Hc | constructor; [discriminate | exact IHn]].
  - split; [now rewrite IHc, Hc | constructor; [discriminate | exact IHn]].
Qed.

End MergeText.

(** X17. On chunks with non-empty content, merging loses and reorders no
    text: the contents of the output joined by single spaces are the
    contents of the input joined by single spaces. *)
Theorem merge_preserves_text :
  forall (chunks : list ChunkingService.Chunk) (min_size : Z),
    Forall Spec.has_content chunks ->
    exists out,
      ChunkingService.merge_small_chunks chunks min_size = Return out /\
      String.concat " " (map ChunkingService.content out)
      = String.concat " " (map ChunkingService.content chunks).
Proof.
  intros chunks min_size Hc.
  destruct (merge_structure min_size Hc) as (groups & out & Hm & Hg & Hf & _).
  exists out. split; [exact Hm|].
  destruct (made_from_contents Hf) as [-> Hne].
  rewrite (concat_groups " " Hne), <- concat_map, Hg. reflexivity.
Qed.

Lemma merge_preserves_text_witness :
  Forall Spec.has_content Spec.mixed_chunks /\
  exists out,
    ChunkingService.merge_small_chunks Spec.mixed_chunks 10 = Return out /\
    String.concat " " (map ChunkingService.content out)
    = "alpha beta retrieval augmented generation".
Proof.
  assert (Hc : Forall Spec.has_content Spec.mixed_chunks)
    by (repeat constructor; discriminate).
  split; [exact Hc|].
  destruct (@merge_preserves_text Spec.mixed_chunks 10%Z Hc) as (out & Ho & Ht).
  exists out. split; [exact Ho | exact Ht].
Defined.

(* ------------------------------------------------------------------ *)
(** * Chunk statistics *)
(* ------------------------------------------------------------------ *)

Section StatsFacts.
Import ChunkStats.

Lemma fold_min_le : forall l x,
  fold_left Nat.min l x <= x /\ Forall (fun y => fold_left Nat.min l x <= y) l.
Proof.
  induction l as [|y l IH]; simpl; intros x; [split; [lia | constructor]|].
  destruct (IH (Nat.min x y)) as [H1 H2]. split; [lia|].
  constructor; [lia | exact H2].
Qed.

Lemma fold_max_ge : forall l x,
  x <= fold_left Nat.max l x /\ Forall (fun y => y <= fold_left Nat.max l x) l.
Proof.
  induction l as [|y l IH]; simpl; intros x; [split; [lia | constructor]|].
  destruct (IH (Nat.max x y)) as [H1 H2]. split; [lia|].
  constructor; [lia | exact H2].
Qed.

Lemma fold_min_in : forall l x, In (fold_left Nat.min l x) (x :: l).
Proof.
  induction l as [|y l IH]; intros x; [now left|].
  cbn [fold_left].
  destruct (IH (Nat.min x y)) as [H|H]; [|right; now right].
  destruct (Nat.min_spec x y) as [[_ E]|[_ E]]; rewrite E in *.
  - now left.
  - right; now left.
Qed.

Lemma fold_max_in : forall l x, In (fold_left Nat.max l x) (x :: l).
Proof.
  induction l as [|y l IH]; intros x; [now left|].
  cbn [fold_left].
  destruct (IH (Nat.max x y)) as [H|H]; [|right; now right].
  destruct (Nat.max_spec x y) as [[_ E]|[_ E]]; rewrite E in *.
  - right; now left.
  - now left.
Qed.

Lemma py_min_spec l :
  l <> [] -> In (py_min l) l /\ Forall (fun y => py_min l <= y) l.
Proof.
  destruct l as [|x l]; [congruence|]. intros _. unfold py_min.
  split; [apply fold_min_in|].
  destruct (fold_min_le l x) as [H1 H2]. now constructor.
Qed.

Lemma py_max_spec l :
  l <> [] -> In (py_max l) l /\ Forall (fun y => y <= py_max l) l.
Proof.
  destruct l as [|x l]; [congruence|]. intros _. unfold py_max.
  split; [apply fold_max_in|].
  destruct (fold_max_ge l x) as [H1 H2]. now constructor.
Qed.

Lemma list_sum_lower m l :
  Forall (fun y => m <= y) l -> List.length l * m <= list_sum l.
Proof. induction 1; simpl; lia. Qed.

Lemma list_sum_upper m l :
  Forall (fun y => y <= m) l -> list_sum l <= List.length l * m.
Proof. induction 1; simpl; lia. Qed.

End StatsFacts.

(** X18. [get_chunk_stats] counts the chunks; on an empty list all four
    figures are 0; otherwise the minimum and the maximum are the content
    lengths of two of the chunks, every content length lies between them,
    and so does the average. *)
Theorem chunk_stats_bounds :
  forall (chunks : list ChunkingService.Chunk),
    let stats := ChunkStats.get_chunk_stats chunks in
    ChunkStats.total_chunks stats = List.length chunks /\
    (chunks = [] ->
     ChunkStats.avg_chunk_size stats = 0 /\ ChunkStats.min_chunk_size stats = 0 /\
     ChunkStats.max_chunk_size stats = 0) /\
    (chunks <> [] ->
     ChunkStats.min_chunk_size stats <= ChunkStats.avg_chunk_size stats
     <= ChunkStats.max_chunk_size stats /\
     Forall (fun c => ChunkStats.min_chunk_size stats <= Props3.size_of c
                      <= ChunkStats.max_chunk_size stats) chunks /\
     (exists c, In c chunks /\ Props3.size_of c = ChunkStats.min_chunk_size stats) /\
     (exists c, In c chunks /\ Props3.size_of c = ChunkStats.max_chunk_size stats)).
Proof.
  intros chunks stats. subst stats.
  destruct chunks as [|c0 chunks0] eqn:E.
  - simpl. split; [reflexivity|]. split; [auto|]. congruence.
  - rewrite <- E.
    assert (Hs : ChunkStats.get_chunk_stats chunks
                 = {| ChunkStats.total_chunks := List.length chunks;
                      ChunkStats.avg_chunk_size :=
                        list_sum (map Props3.size_of chunks)
                        / List.length (map Props3.size_of chunks);
                      ChunkStats.min_chunk_size := ChunkStats.py_min (map Props3.size_of chunks);
                      ChunkStats.max_chunk_size := ChunkStats.py_max (map Props3.size_of chunks) |})
      by (rewrite E; reflexivity).
    rewrite Hs. cbn [ChunkStats.total_chunks ChunkStats.avg_chunk_size
                     ChunkStats.min_chunk_size ChunkStats.max_chunk_size].
    assert (Hne : map Props3.size_of chunks <> []) by (rewrite E; discriminate).
    destruct (py_min_spec Hne) as [Hmi Hml].
    destruct (py_max_spec Hne) as [Hxi Hxl].
    assert (Hlen : List.length (map Props3.size_of chunks) <> 0)
      by (rewrite E; discriminate).
    split; [reflexivity|]. split; [rewrite E; discriminate|]. intros _.
    split; [|split; [|split]].
    + split.
      * apply Nat.div_le_lower_bound; [exact Hlen|].
        now apply list_sum_lower.
      * apply Nat.Div0.div_le_upper_bound.
        now apply list_sum_upper.
    + rewrite Forall_map in Hml, Hxl.
      rewrite Forall_forall in Hml, Hxl |- *. intros c Hc.
      split; [now apply Hml | now apply Hxl].
    + apply in_map_iff in Hmi as (c & Hc & Hin). eauto.
    + apply in_map_iff in Hxi as (c & Hc & Hin). eauto.
Qed.

Lemma chunk_stats_bounds_witness :
  Spec.mixed_chunks <> [] /\
  ChunkStats.get_chunk_stats Spec.mixed_chunks
  = {| ChunkStats.total_chunks := 3; ChunkStats.avg_chunk_size := 13;
       ChunkStats.min_chunk_size := 4; ChunkStats.max_chunk_size := 30 |} /\
  ChunkStats.min_chunk_size (ChunkStats.get_chunk_stats Spec.mixed_chunks)
  <= ChunkStats.avg_chunk_size (ChunkStats.get_chunk_stats Spec.mixed_chunks)
  <= ChunkStats.max_chunk_size (ChunkStats.get_chunk_stats Spec.mixed_chunks).
Proof.
  assert (Hne : Spec.mixed_chunks <> []) by discriminate.
  split; [exact Hne|]. split; [reflexivity|].
  exact (proj1 (proj2 (proj2 (@chunk_stats_bounds Spec.mixed_chunks)) Hne)).
Defined.

(* ------------------------------------------------------------------ *)
(** * Web search and the retrieval stage *)
(* ------------------------------------------------------------------ *)

(** X19. [WebSearchService.search] raises only for a provider that is
    neither ["duckduckgo"] nor ["tavily"], or for ["tavily"] without an API
    key; a failure of the search library itself is swallowed and gives an
    empty result.  Every result returned has the keys title, url, snippet
    and source, in this order. *)
Theorem web_search_degrades_to_empty :
  forall (providers : SearchProviders) (self : WebSearchService.t)
         (query : string) (max_results : Z),
    ((exists e, WebSearchService.search self query max_results = Raise e)
     <-> WebSearchService.provider self <> "duckduckgo" /\
         (WebSearchService.provider self = "tavily" ->
          WebSearchService.tavily_api_key self = EmptyString)) /\
    (forall e, WebSearchService.provider self = "duckduckgo" ->
               ddgs_text query max_results = Raise e ->
               WebSearchService.search self query max_results = Return []) /\
    (forall e, WebSearchService.provider self = "tavily" ->
               WebSearchService.tavily_api_key self <> EmptyString ->
               tavily_search query max_results = Raise e ->
               WebSearchService.search self query max_results = Return []) /\
    (forall results, WebSearchService.search self query max_results = Return results ->
       Forall (fun r => map fst r = ["title"; "url"; "snippet"; "source"]) results).
Proof.
  intros providers self query n.
  unfold WebSearchService.search, WebSearchService._tavily_search,
    WebSearchService._duckduckgo_search.
  destruct (String.eqb_spec (WebSearchService.provider self) "duckduckgo") as [Ed|Ed].
  - split; [split|split; [|split]].
    + intros [e He]. discriminate.
    + intros [Hn _]. contradiction.
    + intros e _ ->. reflexivity.
    + intros e Ht. rewrite Ed in Ht. discriminate.
    + intros results [= <-]. destruct (ddgs_text query n); [|constructor].
      rewrite Forall_map. apply Forall_forall. intros r _. reflexivity.
  - destruct (String.eqb_spec (WebSearchService.provider self) "tavily") as [Et|Et].
    + destruct (WebSearchService.tavily_api_key self) as [|c key] eqn:Ek; simpl.
      * split; [split|split; [|split]].
        -- intros _. split; [exact Ed | reflexivity].
        -- intros _. eexists. reflexivity.
        -- intros e Hd. contradiction.
        -- intros e _ Hk. contradiction.
        -- intros results H. discriminate.
      * split; [split|split; [|split]].
        -- intros [e He]. destruct (tavily_search query n); discriminate.
        -- intros [_ Hk]. specialize (Hk Et). discriminate.
        -- intros e Hd. contradiction.
        -- intros e _ _ ->. reflexivity.
        -- intros results H. destruct (tavily_search query n); injection H as <-;
             [|constructor].
           rewrite Forall_map. apply Forall_forall. intros r _. reflexivity.
    + split; [split|split; [|split]].
      * intros _. split; [exact Ed | intros Ht; contradiction].
      * intros _. eexists. reflexivity.
      * intros e Hd. contradiction.
      * intros e Ht. contradiction.
      * intros results H. discriminate.
Qed.

Lemma web_search_degrades_to_empty_witness :
  WebSearchService.provider Props4.duckduckgo = "duckduckgo" /\
  @ddgs_text Props4.failing_providers "what is rag" 5 = Raise "rate limit" /\
  WebSearchService.search (providers := Props4.failing_providers)
    Props4.duckduckgo "what is rag" 5 = Return [].
Proof.
  split; [reflexivity|]. split; [reflexivity|].
  exact (proj1 (proj2 (@web_search_degrades_to_empty Props4.failing_providers
                         Props4.duckduckgo "what is rag" 5%Z))
           "rate limit" eq_refl eq_refl).
Defined.

Lemma default_weights_pass : ~ (Rabs (0.7 + 0.3 - 1.0) > 0.01)%R.
Proof. unfold Rabs; destruct (Rcase_abs _); lra. Qed.

Lemma retrieve_unfold (bm25 : RankBM25) (store : VectorStore)
    (messages_of : StoreMessages) (providers : SearchProviders)
    (settings : Settings) (hs : HybridSearch.t) (ws : WebSearchService.t)
    (state : State.AgentState) :
  RetrievalAgent.retrieve settings hs ws state
  = let steps := State.processing_steps state ++ ["retrieval"] in
    let top_k := retrieval_top_k settings in
    match similarity_search (State.query state) (top_k * 2) None with
    | Raise e => State.Failed (store_message e) steps
    | Return found =>
        let chunks :=
          map RetrievalAgent.of_fused
            (slice_to top_k
               (HybridSearch._reciprocal_rank_fusion found
                  (HybridSearch._bm25_search hs (State.query state) (top_k * 2))
                  0.7 0.3 HybridSearch.RRF_K)) in
        let state' :=
          State.set_retrieved_chunks chunks
            (State.set_processing_steps steps state) in
        if State.needs_web_search state then
          match WebSearchService.search ws (State.query state) 5 with
          | Raise e => State.Failed e steps
          | Return web => State.Done (RetrievalAgent.set_web_results web state')
          end
        else State.Done (RetrievalAgent.set_web_results [] state')
    end.
Proof.
  unfold RetrievalAgent.retrieve.
  rewrite hybrid_search_good_weights by exact default_weights_pass.
  cbn [State.query State.set_processing_steps State.needs_web_search].
  destruct (similarity_search _ _ _); reflexivity.
Qed.

(** X20. [RetrievalAgent.retrieve] appends ["retrieval"] to the processing
    steps before anything can fail.  It raises only what the vector store
    raises or, when web search is needed, what the web search raises; the
    weight check of the hybrid search never fires for its weights 0.7 and
    0.3.  When it returns, the retrieved chunks have pairwise different
    chunk ids, each carries a fused score, at most [retrieval_top_k] chunks
    are kept when that setting is not negative, and [web_results] is empty
    when no web search is needed. *)
Theorem retrieve_outcome :
  forall (bm25 : RankBM25) (store : VectorStore) (messages_of : StoreMessages)
         (providers : SearchProviders) (settings : Settings)
         (hs : HybridSearch.t) (ws : WebSearchService.t) (state : State.AgentState),
    let steps := State.processing_steps state ++ ["retrieval"] in
    let top_k := retrieval_top_k settings in
    match RetrievalAgent.retrieve settings hs ws state with
    | State.Failed msg steps' =>
        steps' = steps /\
        ((exists e, similarity_search (State.query state) (top_k * 2) None = Raise e /\
                    msg = store_message e) \/
         (State.needs_web_search state = true /\
          WebSearchService.search ws (State.query state) 5 = Raise msg))
    | State.Done final =>
        State.processing_steps final = steps /\
        State.query final = State.query state /\
        NoDup (map State.chunk_id (State.retrieved_chunks final)) /\
        Forall (fun c => State.score c <> None) (State.retrieved_chunks final) /\
        ((0 <= top_k)%Z ->
         (Z.of_nat (List.length (State.retrieved_chunks final)) <= top_k)%Z) /\
        (exists found,
           similarity_search (State.query state) (top_k * 2) None = Return found) /\
        (if State.needs_web_search state
         then WebSearchService.search ws (State.query state) 5
              = Return (State.web_results final)
         else State.web_results final = [])
    end.
Proof.
  intros bm25 store messages_of providers settings hs ws state steps top_k.
  rewrite retrieve_unfold. cbv zeta. fold steps top_k.
  destruct (similarity_search (State.query state) (top_k * 2) None)
    as [found|e] eqn:Es.
  2:{ split; [reflexivity|]. left. exists e. split; reflexivity. }
  set (fused := HybridSearch._reciprocal_rank_fusion found _ _ _ _).
  assert (Hshape :
    NoDup (map State.chunk_id (map RetrievalAgent.of_fused (slice_to top_k fused))) /\
    Forall (fun c => State.score c <> None)
      (map RetrievalAgent.of_fused (slice_to top_k fused)) /\
    ((0 <= top_k)%Z ->
     (Z.of_nat (List.length (map RetrievalAgent.of_fused (slice_to top_k fused)))
      <= top_k)%Z)).
  { split; [|split].
    - rewrite map_map. cbn [RetrievalAgent.of_fused State.chunk_id].
      change (fun x => HybridSearch.chunk_id x) with HybridSearch.chunk_id.
      rewrite <- slice_to_map. apply slice_to_NoDup, fusion_ids_nodup.
    - rewrite Forall_map. apply Forall_forall. intros x _. discriminate.
    - intros Hk. rewrite length_map, (slice_to_nonneg _ Hk).
      pose proof (firstn_le_length (Z.to_nat top_k) fused). lia. }
  destruct Hshape as (Hn & Hs & Hl).
  destruct (State.needs_web_search state) eqn:Ew.
  - destruct (WebSearchService.search ws (State.query state) 5) as [web|e] eqn:Eweb.
    + cbn. repeat (split; [first [reflexivity | assumption | eauto]|]). reflexivity.
    + split; [reflexivity|]. right. split; reflexivity.
  - cbn. repeat (split; [first [reflexivity | assumption | eauto]|]). reflexivity.
Qed.

(* ------------------------------------------------------------------ *)
(** * The citation stage *)
(* ------------------------------------------------------------------ *)

Section CitationFacts.
Import State CitationAgent Props4.

Lemma ids_from_cons (i : Z) (c : Dict) (cs : list Dict) :
  dict_get "id" c = Some (VInt i) -> ids_from (i + 1) cs -> ids_from i (c :: cs).
Proof.
  unfold ids_from. intros Hc Hcs. cbn [map List.length seq].
  f_equal.
  - rewrite Hc. do 2 f_equal. lia.
  - etransitivity; [exact Hcs|]. rewrite <- seq_shift, map_map.
    apply map_ext. intros k. do 2 f_equal. lia.
Qed.

Lemma seq_offset (n len : nat) :
  forall start, seq (start + n) len = map (fun k => k + n) (seq start len).
Proof.
  induction len as [|len IH]; intros start; [reflexivity|].
  cbn [seq map]. f_equal. apply (IH (S start)).
Qed.

Lemma ids_from_app (i : Z) (xs ys : list Dict) :
  ids_from i xs -> ids_from (Z.of_nat (List.length xs) + i) ys -> ids_from i (xs ++ ys).
Proof.
  unfold ids_from. intros Hx Hy.
  rewrite map_app, length_app, seq_app, map_app. f_equal; [exact Hx|].
  etransitivity; [exact Hy|].
  rewrite seq_offset, map_map.
  apply map_ext. intros k. do 2 f_equal. lia.
Qed.

Lemma ids_from_one (cs : list Dict) :
  ids_from 1 cs -> Props4.numbered_from_one cs.
Proof.
  unfold ids_from, Props4.numbered_from_one. intros H.
  etransitivity; [exact H|].
  rewrite <- seq_shift, map_map. apply map_ext. intros k. do 2 f_equal. lia.
Qed.

Lemma document_citations_shape (chunks : list RerankedChunk) :
  forall i,
    ids_from i (document_citations i chunks) /\
    List.length (document_citations i chunks) = List.length chunks /\
    Forall (Props4.of_type "document") (document_citations i chunks).
Proof.
  induction chunks as [|c rest IH]; intros i.
  - repeat split. constructor.
  - destruct (IH (i + 1)%Z) as (Hi & Hl & Ht). cbn [document_citations].
    split; [|split].
    + apply ids_from_cons; [reflexivity | exact Hi].
    + cbn [List.length]. now rewrite Hl.
    + constructor; [reflexivity | exact Ht].
Qed.

Lemma web_citations_shape (results : list Dict) :
  forall i web,
    web_citations i results = Return web ->
    ids_from i web /\
    List.length web = List.length results /\
    Forall (Props4.of_type "web") web /\
    Forall (fun r => exists s, dict_get "snippet" r = Some (VStr s) \/
                               dict_get "snippet" r = None) results.
Proof.
  induction results as [|r rest IH]; intros i web H.
  - injection H as <-. repeat split; constructor.
  - cbn [web_citations] in H.
    destruct (preview 100 _) as [snippet|e] eqn:Ep; [|discriminate].
    destruct (web_citations (i + 1) rest) as [cs|e] eqn:Ew; [|discriminate].
    injection H as <-. destruct (IH _ _ Ew) as (Hi & Hl & Ht & Hs).
    split; [|split; [|split]].
    + apply ids_from_cons; [reflexivity | exact Hi].
    + cbn [List.length]. now rewrite Hl.
    + constructor; [reflexivity | exact Ht].
    + constructor; [|exact Hs].
      destruct (dict_get "snippet" r) as [[| s | |]|]; cbn in Ep; try discriminate.
      * exists s. now left.
      * exists EmptyString. now right.
Qed.

Lemma web_citations_raises (results : list Dict) :
  forall i e,
    web_citations i results = Raise e ->
    exists r v, In r results /\ dict_get "snippet" r = Some v /\
                (forall s, v <> VStr s).
Proof.
  induction results as [|r rest IH]; intros i e H; [discriminate|].
  cbn [web_citations] in H.
  destruct (preview 100 _) as [snippet|e'] eqn:Ep.
  - destruct (web_citations (i + 1) rest) as [cs|e''] eqn:Ew; [discriminate|].
    destruct (IH _ _ Ew) as (r' & v & Hin & Hv & Hs).
    exists r', v. split; [now right | now split].
  - exists r. destruct (dict_get "snippet" r) as [v|] eqn:Ed; [|discriminate].
    exists v. split; [now left|]. split; [reflexivity|].
    intros s ->. discriminate.
Qed.

Lemma fold_append_prefix {A} (f : A -> string) (l : list A) :
  forall acc, exists tail,
    fold_left (fun formatted x => (formatted ++ f x)%string) l acc
    = (acc ++ tail)%string.
Proof.
  induction l as [|x l IH]; intros acc; cbn [fold_left].
  - exists EmptyString. clear. induction acc; cbn; congruence.
  - destruct (IH (acc ++ f x)%string) as [tail Ht].
    exists (f x ++ tail)%string. now rewrite Ht, append_assoc.
Qed.

Lemma format_with_citations_prefix (fmt : PyFormat) (response : string)
    (citations : list Dict) :
  exists tail,
    _format_with_citations response citations
    = (response ++ newline ++ newline ++ tail)%string.
Proof.
  unfold _format_with_citations. destruct citations as [|c cs].
  - exists EmptyString. reflexivity.
  - destruct (fold_append_prefix citation_lines (c :: cs)
                ((response ++ newline ++ newline)
                 ++ "**Sources:**" ++ newline ++ newline)%string)
      as [tail' Ht'].
    rewrite Ht'. eexists. rewrite !append_assoc. reflexivity.
Qed.

End CitationFacts.

(** X21. [CitationAgent.add_citations] appends ["citation"] to the
    processing steps first.  With no (or an empty) generated response it
    gives no citations and the final response [""].  Otherwise, when it
    returns, the citations are the document citations of the first five
    reranked chunks followed by the web citations of the first three web
    results, their ids are 1, 2, 3, ... in this order, and the final
    response starts with the generated response and a blank line.  It raises
    only when one of the first three web results has a snippet that is not a
    string. *)
Theorem add_citations_outcome :
  forall (fmt : PyFormat) (state : State.AgentState),
    let response := or_default (State.generated_response state) EmptyString in
    let steps := State.processing_steps state ++ ["citation"] in
    match CitationAgent.add_citations state with
    | State.Done final =>
        State.processing_steps final = steps /\
        (truthy response = false ->
           State.citations final = [] /\ State.final_response final = Some EmptyString) /\
        (truthy response = true ->
           Props4.numbered_from_one (State.citations final) /\
           (exists docs web,
              State.citations final = docs ++ web /\
              List.length docs = Nat.min 5 (List.length (State.reranked_chunks state)) /\
              List.length web = Nat.min 3 (List.length (State.web_results state)) /\
              Forall (Props4.of_type "document") docs /\
              Forall (Props4.of_type "web") web) /\
           exists tail,
             State.final_response final
             = Some (response ++ CitationAgent.newline ++ CitationAgent.newline
                     ++ tail)%string)
    | State.Failed msg steps' =>
        steps' = steps /\ truthy response = true /\
        exists r v, In r (firstn 3 (State.web_results state)) /\
                    dict_get "snippet" r = Some v /\ forall s, v <> VStr s
    end.
Proof.
  intros fmt state response steps. unfold CitationAgent.add_citations.
  fold response steps.
  destruct (truthy response) eqn:Et; cbn [negb].
  - destruct (document_citations_shape (firstn 5 (State.reranked_chunks state)) 1)
      as (Hdi & Hdl & Hdt).
    destruct (CitationAgent.web_citations _ _) as [web|e] eqn:Ew.
    + destruct (web_citations_shape _ _ Ew) as (Hwi & Hwl & Hwt & _).
      split; [reflexivity|]. split; [discriminate|]. intros _.
      cbn [State.citations State.final_response CitationAgent.set_final_response
           CitationAgent.set_citations].
      split; [|split].
      * apply ids_from_one, ids_from_app; [exact Hdi|].
        exact Hwi.
      * eexists _, web. split; [reflexivity|].
        rewrite Hdl, Hwl, !length_firstn. repeat split; assumption.
      * destruct (format_with_citations_prefix fmt response
                    (CitationAgent.document_citations 1
                       (firstn 5 (State.reranked_chunks state)) ++ web))
          as [tail Ht].
        exists tail. now rewrite Ht.
    + split; [reflexivity|]. split; [reflexivity|].
      exact (web_citations_raises _ _ Ew).
  - split; [reflexivity|]. split; [|discriminate].
    intros _. split; reflexivity.
Qed.

(* ------------------------------------------------------------------ *)
(** * The query analysis stage *)
(* ------------------------------------------------------------------ *)

Section AnalysisFacts.
Import QueryAnalysisAgent Props5.

Lemma prefix_starts_with (word s : string) :
  String.prefix word s = true <-> starts_with word s.
Proof.
  unfold starts_with. revert s.
  induction word as [|c word IH]; intros s.
  - split; [intros _; now exists s | now destruct s].
  - destruct s as [|d s]; cbn [String.prefix].
    + split; [discriminate | intros [post H]; discriminate].
    + destruct (Ascii.ascii_dec c d) as [->|Hcd].
      * rewrite IH. split; intros [post H]; exists post.
        -- cbn. now rewrite H.
        -- cbn in H. now injection H.
      * split; [discriminate|]. intros [post H]. cbn in H.
        injection H as H _. congruence.
Qed.

Lemma contains_occurs (word s : string) :
  contains word s = true <-> occurs word s.
Proof.
  unfold occurs. split.
  - induction s as [|c s IH]; cbn [contains]; rewrite orb_true_iff.
    + intros [H|H]; [|discriminate].
      apply prefix_starts_with in H. destruct H as [post H].
      now exists EmptyString, post.
    + intros [H|H].
      * apply prefix_starts_with in H. destruct H as [post H].
        now exists EmptyString, post.
      * destruct (IH H) as (pre & post & ->).
        now exists (String c pre), post.
  - intros (pre & post & ->).
    induction pre as [|c pre IH].
    + cbn [append]. assert (H : String.prefix word (word ++ post) = true)
        by (apply prefix_starts_with; now exists post).
      destruct (word ++ post)%string; cbn [contains]; now rewrite H.
    + cbn [append contains]. rewrite IH. apply orb_true_r.
Qed.

Lemma existsb_occurs (words : list string) (s : string) :
  existsb (fun word => contains word s) words = true
  <-> exists w, In w words /\ occurs w s.
Proof.
  rewrite existsb_exists.
  split; intros (w & Hin & H); exists w; split; auto; now apply contains_occurs.
Qed.

Lemma existsb_starts_with (words : list string) (s : string) :
  existsb (fun word => String.prefix word s) words = true
  <-> exists w, In w words /\ starts_with w s.
Proof.
  rewrite existsb_exists.
  split; intros (w & Hin & H); exists w; split; auto; now apply prefix_starts_with.
Qed.

Lemma is_stop_word_in (w : string) :
  is_stop_word w = true <-> In w stop_words.
Proof.
  unfold is_stop_word. rewrite existsb_exists. split.
  - intros (x & Hin & H). apply String.eqb_eq in H. now subst.
  - intros H. exists w. split; [exact H | apply String.eqb_refl].
Qed.

Lemma rule_based_keywords (query : string) :
  let keywords := search_keywords (_rule_based_analysis query) in
  List.length keywords <= 5 /\
  Forall (fun w => 2 < String.length w /\ ~ In w stop_words /\
                   In w (split (lower query))) keywords.
Proof.
  cbn [_rule_based_analysis search_keywords]. split.
  - rewrite length_firstn. lia.
  - apply Forall_forall. intros w Hw. apply firstn_In in Hw.
    apply filter_In in Hw. destruct Hw as [Hin Hf].
    apply andb_true_iff in Hf. destruct Hf as [Hs Hl].
    apply Nat.ltb_lt in Hl. split; [exact Hl|]. split; [|exact Hin].
    intros Hstop. apply is_stop_word_in in Hstop. rewrite Hstop in Hs. discriminate.
Qed.

End AnalysisFacts.

(** X22. The rule-based analysis classifies by substrings of the
    lower-cased query.  A query is ["conversational"] exactly when one of
    hello, hi, thanks, thank you occurs anywhere in it, inside a word too;
    otherwise it is ["analytical"] exactly when it starts with a question
    word and why or how occurs in it; in every other case it is
    ["factual"]. *)
Theorem rule_based_query_type :
  forall (query : string),
    let q := lower query in
    let answer := QueryAnalysisAgent.query_type
                    (QueryAnalysisAgent._rule_based_analysis query) in
    let conversational :=
      exists w, In w QueryAnalysisAgent.conversational_words /\ Props5.occurs w q in
    let question :=
      exists w, In w QueryAnalysisAgent.question_words /\ Props5.starts_with w q in
    let reasoning := Props5.occurs "why" q \/ Props5.occurs "how" q in
    (answer = "conversational" <-> conversational) /\
    (answer = "analytical" <-> ~ conversational /\ question /\ reasoning) /\
    (answer = "factual" <-> ~ conversational /\ ~ (question /\ reasoning)).
Proof.
  intros query q answer conversational question reasoning.
  subst answer. cbn [QueryAnalysisAgent._rule_based_analysis QueryAnalysisAgent.query_type].
  fold q.
  pose proof (existsb_occurs QueryAnalysisAgent.conversational_words q) as Hc.
  pose proof (existsb_starts_with QueryAnalysisAgent.question_words q) as Hq.
  pose proof (contains_occurs "why" q) as Hw.
  pose proof (contains_occurs "how" q) as Hh.
  fold conversational in Hc. fold question in Hq.
  assert (Hr : QueryAnalysisAgent.contains "why" q || QueryAnalysisAgent.contains "how" q
               = true <-> reasoning).
  { rewrite orb_true_iff, Hw, Hh. reflexivity. }
  destruct (existsb _ QueryAnalysisAgent.conversational_words).
  { assert (conversational) by now apply Hc.
    repeat split; try discriminate; tauto. }
  assert (Hn : ~ conversational) by (intros H; apply Hc in H; discriminate).
  destruct (existsb _ QueryAnalysisAgent.question_words).
  - assert (question) by now apply Hq.
    destruct (_ || _).
    + assert (reasoning) by now apply Hr.
      repeat split; try discriminate; tauto.
    + assert (~ reasoning) by (intros H'; apply Hr in H'; discriminate).
      repeat split; try discriminate; tauto.
  - assert (~ question) by (intros H'; apply Hq in H'; discriminate).
    repeat split; try discriminate; tauto.
Qed.

(** X23. [QueryAnalysisAgent.analyze] never raises: it records its step and
    stores an analysis, that of the language model when there is one and
    its answer could be read, the rule-based one otherwise.  The rule-based
    analysis asks for a web search exactly when one of its indicators of
    current information occurs in the lower-cased query, and keeps at most
    five keywords: words of the lower-cased query that are longer than two
    characters and are not stop words. *)
Theorem analyze_outcome :
  forall (self : QueryAnalysisAgent.t) (state : State.AgentState),
    let q := State.query state in
    let steps := State.processing_steps state ++ ["query_analysis"] in
    exists result,
      QueryAnalysisAgent.analyze self state
      = State.Done (QueryAnalysisAgent.set_analysis result
                      (State.set_processing_steps steps state)) /\
      ((exists attempt, QueryAnalysisAgent.llm self = Some attempt /\
                        attempt q = Return result) \/
       ((QueryAnalysisAgent.llm self = None \/
         exists attempt e, QueryAnalysisAgent.llm self = Some attempt /\
                           attempt q = Raise e) /\
        result = QueryAnalysisAgent._rule_based_analysis q /\
        (QueryAnalysisAgent.needs_web_search result = true <->
         exists w, In w QueryAnalysisAgent.current_info_indicators /\
                   Props5.occurs w (lower q)) /\
        List.length (QueryAnalysisAgent.search_keywords result) <= 5 /\
        Forall (fun w => 2 < String.length w /\
                         ~ In w QueryAnalysisAgent.stop_words /\
                         In w (split (lower q)))
          (QueryAnalysisAgent.search_keywords result))).
Proof.
  intros self state q steps.
  assert (Hrule :
    let result := QueryAnalysisAgent._rule_based_analysis q in
    (QueryAnalysisAgent.needs_web_search result = true <->
     exists w, In w QueryAnalysisAgent.current_info_indicators /\
               Props5.occurs w (lower q)) /\
    List.length (QueryAnalysisAgent.search_keywords result) <= 5 /\
    Forall (fun w => 2 < String.length w /\
                     ~ In w QueryAnalysisAgent.stop_words /\
                     In w (split (lower q)))
      (QueryAnalysisAgent.search_keywords result)).
  { split; [apply existsb_occurs | apply rule_based_keywords]. }
  unfold QueryAnalysisAgent.analyze. fold q steps.
  destruct (QueryAnalysisAgent.llm self) as [attempt|] eqn:El.
  - unfold QueryAnalysisAgent._llm_analysis.
    destruct (attempt q) as [r|e] eqn:Ea.
    + exists r. split; [reflexivity|]. left. now exists attempt.
    + eexists. split; [reflexivity|]. right.
      split; [right; now exists attempt, e|]. split; [reflexivity | exact Hrule].
  - eexists. split; [reflexivity|]. right.
    split; [now left|]. split; [reflexivity | exact Hrule].
Qed.

(* ------------------------------------------------------------------ *)
(** * The generation stage *)
(* ------------------------------------------------------------------ *)

Section GenerationFacts.
Import State GenerationAgent.

Lemma concat_starts (sep x : string) (l : list string) :
  exists tail, String.concat sep (x :: l) = (x ++ tail)%string.
Proof.
  destruct l as [|y l]; cbn [String.concat].
  - exists EmptyString. clear. induction x; cbn; congruence.
  - eexists. reflexivity.
Qed.

Lemma fallback_web_raises (results : list Dict) :
  forall i e,
    fallback_web i results = Raise e ->
    exists r v, In r results /\ dict_get "snippet" r = Some v /\
                (forall s, v <> VStr s).
Proof.
  induction results as [|r rest IH]; intros i e H; [discriminate|].
  cbn [fallback_web] in H.
  destruct (CitationAgent.preview 150 _) as [snippet|e'] eqn:Ep.
  - destruct (fallback_web (S i) rest) as [parts|e''] eqn:Ew; [discriminate|].
    destruct (IH _ _ Ew) as (r' & v & Hin & Hv & Hs).
    exists r', v. split; [now right | now split].
  - exists r. destruct (dict_get "snippet" r) as [v|] eqn:Ed; [|discriminate].
    exists v. split; [now left|]. split; [reflexivity|].
    intros s ->. discriminate.
Qed.

Lemma fallback_response_shape (query : string) (chunks : list RerankedChunk)
    (web_results : list Dict) :
  match _fallback_response query chunks web_results with
  | Return response =>
      truthy response = true /\
      (chunks = [] -> web_results = [] ->
       response = "I don't have enough information to answer your question.") /\
      (chunks <> [] \/ web_results <> [] ->
       exists tail,
         response = ("Based on the available information regarding '" ++ query
                     ++ "':" ++ newline ++ tail)%string)
  | Raise e =>
      exists r v, In r (firstn 2 web_results) /\ dict_get "snippet" r = Some v /\
                  (forall s, v <> VStr s)
  end.
Proof.
  set (head := ("Based on the available information regarding '" ++ query
                ++ "':" ++ newline)%string).
  assert (Hhead : forall l,
    truthy (String.concat newline (head :: l)) = true /\
    exists tail, String.concat newline (head :: l)
                 = ("Based on the available information regarding '" ++ query
                    ++ "':" ++ newline ++ tail)%string).
  { intros l. destruct (concat_starts newline head l) as [tail ->]. split.
    - reflexivity.
    - exists tail. subst head. now rewrite !append_assoc. }
  unfold _fallback_response. fold head.
  destruct chunks as [|c chunks]; destruct web_results as [|w web].
  - split; [reflexivity|]. split; [reflexivity|]. intros [H|H]; contradiction.
  - destruct (fallback_web 1 (firstn 2 (w :: web))) as [parts|e] eqn:Ef.
    + destruct (Hhead ((newline ++ newline ++ "From web search ("
                        ++ str_of_nat (List.length (w :: web)) ++ " results):")%string
                       :: parts)) as [Ht Hs].
      split; [exact Ht|]. split; [discriminate|]. intros _. exact Hs.
    + exact (fallback_web_raises _ _ Ef).
  - match goal with |- context [String.concat newline (?a ++ ?b)] =>
      destruct (Hhead b) as [Ht Hs] end.
    split; [exact Ht|]. split; [discriminate|]. intros _. exact Hs.
  - destruct (fallback_web 1 (firstn 2 (w :: web))) as [parts|e] eqn:Ef.
    + match goal with |- context [String.concat newline (?a ++ ?b)] =>
        match a with
        | [head] ++ ?a' => destruct (Hhead (a' ++ b)) as [Ht Hs]
        end
      end.
      split; [exact Ht|]. split; [discriminate|]. intros _. exact Hs.
    + exact (fallback_web_raises _ _ Ef).
Qed.

End GenerationFacts.

(** X24. [GenerationAgent.generate] records its step first.  With a
    language model it never raises: the response is the stripped answer of
    the model, or an apology that quotes the error when the model raises.
    Without one it answers from the chunks and web results: the response is
    never empty; it is the fixed sentence when there is nothing to answer
    from, and starts with the line that quotes the query otherwise.  The
    only failure is a snippet that is not a string in one of the first two
    web results. *)
Theorem generate_outcome :
  forall (fmt : PyFormat) (self : GenerationAgent.t) (state : State.AgentState),
    let steps := State.processing_steps state ++ ["generation"] in
    let chunks := State.reranked_chunks state in
    let web := State.web_results state in
    match GenerationAgent.generate self state with
    | State.Failed msg steps' =>
        steps' = steps /\ GenerationAgent.llm self = None /\
        exists r v, In r (firstn 2 web) /\ dict_get "snippet" r = Some v /\
                    forall s, v <> VStr s
    | State.Done final =>
        exists response,
          final = GenerationAgent.set_generated_response (Some response)
                    (State.set_processing_steps steps state) /\
          match GenerationAgent.llm self with
          | Some invoke =>
              match invoke GenerationAgent.system_prompt
                      (GenerationAgent.user_prompt (State.query state)
                         (GenerationAgent._build_context chunks web)) with
              | Return answer => response = strip answer
              | Raise e =>
                  response
                  = ("I apologize, but I encountered an error generating a response: "
                     ++ e)%string
              end
          | None =>
              truthy response = true /\
              (chunks = [] -> web = [] ->
               response = "I don't have enough information to answer your question.") /\
              (chunks <> [] \/ web <> [] ->
               exists tail,
                 response = ("Based on the available information regarding '"
                             ++ State.query state ++ "':" ++ GenerationAgent.newline
                             ++ tail)%string)
          end
    end.
Proof.
  intros fmt self state steps chunks web.
  unfold GenerationAgent.generate. fold steps chunks web.
  destruct (GenerationAgent.llm self) as [invoke|] eqn:El.
  - eexists. split; [reflexivity|]. unfold GenerationAgent._llm_generate.
    destruct (invoke _ _); reflexivity.
  - pose proof (fallback_response_shape (State.query state) chunks web) as H.
    destruct (GenerationAgent._fallback_response _ _ _) as [response|e].
    + exists response. split; [reflexivity | exact H].
    + split; [reflexivity|]. split; [reflexivity | exact H].
Qed.

(* ------------------------------------------------------------------ *)
(** * The five stages together *)
(* ------------------------------------------------------------------ *)

Section PipelineFacts.
Import State Pipeline.

Lemma ainvoke_records_steps names nodes :
  Forall2 records_step names nodes ->
  forall s,
    match RAGWorkflow.ainvoke nodes s with
    | Done final =>
        processing_steps final = processing_steps s ++ names /\
        query final = query s /\
        error final = error s
    | Failed _ steps =>
        exists k, k < List.length names /\
                  steps = processing_steps s ++ firstn (S k) names
    end.
Proof.
  induction 1 as [|name node names nodes Hn _ IH]; intros s.
  - cbn. now rewrite app_nil_r.
  - cbn [RAGWorkflow.ainvoke]. specialize (Hn s).
    destruct (node s) as [s'|msg steps].
    + destruct Hn as (Hs & Hq & He). specialize (IH s').
      destruct (RAGWorkflow.ainvoke nodes s') as [final|msg steps].
      * destruct IH as (Hs' & Hq' & He').
        rewrite Hs', Hs, <- app_assoc. repeat split; congruence.
      * destruct IH as (k & Hk & ->). exists (S k). split; [cbn; lia|].
        rewrite Hs, <- app_assoc. reflexivity.
    + exists 0. split; [cbn; lia|]. subst steps. reflexivity.
Qed.

Lemma ainvoke_last_stage nodes node :
  forall s final,
    RAGWorkflow.ainvoke (nodes ++ [node]) s = Done final ->
    exists mid, node mid = Done final.
Proof.
  induction nodes as [|n nodes IH]; intros s final H.
  - cbn in H. exists s. destruct (node s); [exact H | discriminate].
  - cbn [app RAGWorkflow.ainvoke] in H.
    destruct (n s) as [s'|]; [eauto | discriminate].
Qed.

Lemma analyze_records_step (self : QueryAnalysisAgent.t) :
  records_step "query_analysis" (QueryAnalysisAgent.analyze self).
Proof. intros s. cbn. repeat split. Qed.

Lemma retrieve_records_step (bm25 : RankBM25) (store : VectorStore)
    (messages_of : StoreMessages) (providers : SearchProviders)
    (settings : Settings) (hs : HybridSearch.t) (ws : WebSearchService.t) :
  records_step "retrieval" (RetrievalAgent.retrieve settings hs ws).
Proof.
  intros s. rewrite retrieve_unfold. cbv zeta.
  destruct (similarity_search _ _ _); [|reflexivity].
  destruct (needs_web_search s); [|repeat split].
  destruct (WebSearchService.search _ _ _); [repeat split | reflexivity].
Qed.

Lemma rerank_records_step (model : SentenceTransformer) (settings : Settings) :
  records_step "reranking" (RerankingAgent.rerank settings).
Proof.
  intros s. unfold RerankingAgent.rerank.
  destruct (retrieved_chunks s); [repeat split|].
  destruct (RerankingAgent.score_chunks _ _ _); [repeat split | reflexivity].
Qed.

Lemma generate_records_step (fmt : PyFormat) (self : GenerationAgent.t) :
  records_step "generation" (GenerationAgent.generate self).
Proof.
  intros s. unfold GenerationAgent.generate.
  destruct (GenerationAgent.llm self); [repeat split|].
  destruct (GenerationAgent._fallback_response _ _ _); [repeat split | reflexivity].
Qed.

Lemma add_citations_records_step (fmt : PyFormat) :
  records_step "citation" CitationAgent.add_citations.
Proof.
  intros s. unfold CitationAgent.add_citations.
  destruct (negb _); [repeat split|].
  destruct (CitationAgent.web_citations _ _); [repeat split | reflexivity].
Qed.

Lemma add_citations_final_response (fmt : PyFormat) (s final : AgentState) :
  CitationAgent.add_citations s = Done final -> final_response final <> None.
Proof.
  unfold CitationAgent.add_citations.
  destruct (negb _); [intros [= <-]; discriminate|].
  destruct (CitationAgent.web_citations _ _); [|discriminate].
  intros [= <-]. discriminate.
Qed.

End PipelineFacts.

(** X25. A run of the workflow of the five agents ends in one of two ways.
    Either no stage raised: the state returned has no error, the five steps
    in order, the query asked and a final response.  Or a stage after the
    query analysis raised: the state returned is the initial state with the
    error text, and its steps are the stages started so far, the failing
    one last; the query analysis itself never fails a run. *)
Theorem run_records_stages :
  forall (bm25 : RankBM25) (store : VectorStore) (messages_of : StoreMessages)
         (providers : SearchProviders) (model : SentenceTransformer)
         (fmt : PyFormat) (settings : Settings)
         (query_agent : QueryAnalysisAgent.t) (hybrid_search : HybridSearch.t)
         (web_search : WebSearchService.t) (generation_agent : GenerationAgent.t)
         (query : string) (conversation_id : option string),
    let self := Pipeline.workflow settings query_agent hybrid_search web_search
                  generation_agent in
    let returned := RAGWorkflow.run self query conversation_id in
    (State.error returned = None /\
     State.processing_steps returned = Pipeline.stage_names /\
     State.query returned = query /\
     State.final_response returned <> None) \/
    (exists msg k,
       2 <= k <= 5 /\
       returned
       = State.set_error (Some msg)
           (State.set_processing_steps (firstn k Pipeline.stage_names)
              (RAGWorkflow.initial_state query conversation_id))).
Proof.
  intros bm25 store messages_of providers model fmt settings query_agent
    hybrid_search web_search generation_agent query cid self returned.
  subst returned. unfold RAGWorkflow.run.
  set (init := RAGWorkflow.initial_state query cid).
  assert (Hchain : Forall2 Pipeline.records_step
                     ["retrieval"; "reranking"; "generation"; "citation"]
                     [RAGWorkflow.retrieve self; RAGWorkflow.rerank self;
                      RAGWorkflow.generate self; RAGWorkflow.add_citations self]).
  { repeat constructor.
    - apply retrieve_records_step.
    - apply rerank_records_step.
    - apply generate_records_step.
    - apply add_citations_records_step. }
  set (s1 := QueryAnalysisAgent.set_analysis
               match QueryAnalysisAgent.llm query_agent with
               | Some attempt => QueryAnalysisAgent._llm_analysis attempt query
               | None => QueryAnalysisAgent._rule_based_analysis query
               end
               (State.set_processing_steps ["query_analysis"] init)).
  assert (Hrun : RAGWorkflow.ainvoke (RAGWorkflow._build_graph self) init
                 = RAGWorkflow.ainvoke
                     [RAGWorkflow.retrieve self; RAGWorkflow.rerank self;
                      RAGWorkflow.generate self; RAGWorkflow.add_citations self] s1)
    by reflexivity.
  rewrite Hrun. clear Hrun.
  pose proof (ainvoke_records_steps Hchain s1) as H.
  destruct (RAGWorkflow.ainvoke _ s1) as [final|msg steps] eqn:Ea.
  - left. destruct H as (Hs & Hq & He).
    split; [exact He|]. split; [exact Hs|]. split; [exact Hq|].
    destruct (@ainvoke_last_stage
                [RAGWorkflow.retrieve self; RAGWorkflow.rerank self;
                 RAGWorkflow.generate self]
                (RAGWorkflow.add_citations self) s1 final Ea) as [mid Hmid].
    exact (add_citations_final_response _ _ Hmid).
  - right. destruct H as (k & Hk & ->). exists msg, (S (S k)).
    cbn [List.length] in Hk. split; [lia|]. reflexivity.
Qed.

Section RouteFacts.
Import State.

Lemma ainvoke_last_two nodes n1 n2 :
  forall s final,
    RAGWorkflow.ainvoke (nodes ++ [n1; n2]) s = Done final ->
    exists a b, n1 a = Done b /\ n2 b = Done final.
Proof.
  induction nodes as [|n nodes IH]; intros s final H.
  - cbn in H. exists s. destruct (n1 s) as [b|]; [|discriminate].
    exists b. split; [reflexivity|]. destruct (n2 b); [exact H | discriminate].
  - cbn [app RAGWorkflow.ainvoke] in H.
    destruct (n s) as [s'|]; [eauto | discriminate].
Qed.

Lemma generate_sets_response (fmt : PyFormat) (self : GenerationAgent.t)
    (s s' : AgentState) :
  GenerationAgent.generate self s = Done s' ->
  exists r, generated_response s' = Some r.
Proof.
  unfold GenerationAgent.generate.
  destruct (GenerationAgent.llm self).
  - intros [= <-]. eexists. reflexivity.
  - destruct (GenerationAgent._fallback_response _ _ _); [|discriminate].
    intros [= <-]. eexists. reflexivity.
Qed.

Lemma add_citations_response_text (fmt : PyFormat) (s final : AgentState) (r : string) :
  CitationAgent.add_citations s = Done final ->
  generated_response s = Some r ->
  exists text,
    final_response final = Some text /\
    QueryRoute.response_text final = Some text.
Proof.
  unfold CitationAgent.add_citations. intros H Hr. rewrite Hr in H.
  change (or_default (Some r) EmptyString) with r in H.
  destruct (truthy r) eqn:Et; cbn [negb] in H.
  - destruct (CitationAgent.web_citations _ _) as [web|]; [|discriminate].
    injection H as <-.
    match goal with |- context [CitationAgent._format_with_citations r ?cs] =>
      destruct (format_with_citations_prefix fmt r cs) as [tail Ht];
      exists (CitationAgent._format_with_citations r cs)
    end.
    split; [reflexivity|].
    unfold QueryRoute.response_text.
    cbn [final_response CitationAgent.set_final_response].
    rewrite Ht at 1. now rewrite (@truthy_append r _ Et).
  - injection H as <-. exists EmptyString. split; [reflexivity|].
    unfold QueryRoute.response_text. cbn. rewrite Hr.
    destruct r; [reflexivity | discriminate].
Qed.

End RouteFacts.

(** X26. What the query route answers after a run of the workflow of the
    five agents.  After a run without error the response text is the final
    response of the citation stage, also when that is empty.  After a run in
    which a stage raised there is no response text at all: neither the
    error text nor the default of the route, since the state returned has
    both response keys set to [None]; and there are no citations. *)
Theorem route_response_text :
  forall (bm25 : RankBM25) (store : VectorStore) (messages_of : StoreMessages)
         (providers : SearchProviders) (model : SentenceTransformer)
         (fmt : PyFormat) (settings : Settings)
         (query_agent : QueryAnalysisAgent.t) (hybrid_search : HybridSearch.t)
         (web_search : WebSearchService.t) (generation_agent : GenerationAgent.t)
         (query : string) (conversation_id : option string),
    let self := Pipeline.workflow settings query_agent hybrid_search web_search
                  generation_agent in
    let returned := RAGWorkflow.run self query conversation_id in
    match State.error returned with
    | None =>
        exists text,
          QueryRoute.response_text returned = Some text /\
          State.final_response returned = Some text
    | Some _ =>
        QueryRoute.response_text returned = None /\
        QueryRoute.citations_list returned = []
    end.
Proof.
  intros bm25 store messages_of providers model fmt settings query_agent
    hybrid_search web_search generation_agent query cid self returned.
  subst returned. unfold RAGWorkflow.run.
  set (init := RAGWorkflow.initial_state query cid).
  set (s1 := QueryAnalysisAgent.set_analysis
               match QueryAnalysisAgent.llm query_agent with
               | Some attempt => QueryAnalysisAgent._llm_analysis attempt query
               | None => QueryAnalysisAgent._rule_based_analysis query
               end
               (State.set_processing_steps ["query_analysis"] init)).
  assert (Hrun : RAGWorkflow.ainvoke (RAGWorkflow._build_graph self) init
                 = RAGWorkflow.ainvoke
                     ([RAGWorkflow.retrieve self; RAGWorkflow.rerank self]
                      ++ [RAGWorkflow.generate self; RAGWorkflow.add_citations self]) s1)
    by reflexivity.
  rewrite Hrun. clear Hrun.
  assert (Hchain : Forall2 Pipeline.records_step
                     ["retrieval"; "reranking"; "generation"; "citation"]
                     ([RAGWorkflow.retrieve self; RAGWorkflow.rerank self]
                      ++ [RAGWorkflow.generate self; RAGWorkflow.add_citations self])).
  { repeat constructor.
    - apply retrieve_records_step.
    - apply rerank_records_step.
    - apply generate_records_step.
    - apply add_citations_records_step. }
  pose proof (ainvoke_records_steps Hchain s1) as H.
  destruct (RAGWorkflow.ainvoke _ s1) as [final|msg steps] eqn:Ea.
  - destruct H as (_ & _ & He). rewrite He. cbn [State.error s1 init].
    change (State.error s1) with (@None string).
    destruct (ainvoke_last_two _ _ _ _ Ea) as (a & b & Hgen & Hcit).
    destruct (generate_sets_response _ _ _ Hgen) as [r Hr].
    destruct (add_citations_response_text _ _ Hcit Hr) as (text & Hf & Ht).
    now exists text.
  - split; reflexivity.
Qed.

(* ------------------------------------------------------------------ *)
(** * Conversations *)
(* ------------------------------------------------------------------ *)

Section ConversationFacts.
Import ConversationManager.
Context {paths : PathLib}.

Lemma unlink_same (path : string) (files : Files) :
  dict_get path (unlink path files) = None.
Proof.
  induction files as [|[p c] files IH]; [reflexivity|].
  cbn [unlink]. destruct (String.eqb path p) eqn:E; [exact IH|].
  cbn [dict_get]. now rewrite E.
Qed.

Lemma unlink_other (path other : string) (files : Files) :
  other <> path -> dict_get other (unlink path files) = dict_get other files.
Proof.
  intros Hne. induction files as [|[p c] files IH]; [reflexivity|].
  cbn [unlink]. destruct (String.eqb_spec path p) as [<-|Hp]; cbn [dict_get].
  - rewrite IH. destruct (String.eqb_spec other path); [contradiction | reflexivity].
  - now rewrite IH.
Qed.

End ConversationFacts.

(** X27. [add_message] on a conversation that has no file raises
    [ValueError] with the id in its text, and writes nothing.  Otherwise the
    conversation read back afterwards is the one stored before with the
    new message appended last, [updated_at] set to the second clock
    reading and everything else unchanged; missing citations are stored as
    the empty list; a conversation in another file is not touched. *)
Theorem add_message_appends :
  forall (paths : PathLib) (self : ConversationManager.t)
         (conversation_id role : string) (content : option string)
         (citations : option (list Dict)) (utcnow1 utcnow2 : string)
         (files : ConversationManager.Files),
    match ConversationManager.add_message self conversation_id role content
            citations utcnow1 utcnow2 files with
    | Raise msg =>
        ConversationManager.get_conversation self conversation_id files = None /\
        msg = ("Conversation " ++ conversation_id ++ " not found")%string
    | Return files' =>
        exists before after,
          ConversationManager.get_conversation self conversation_id files = Some before /\
          ConversationManager.get_conversation self conversation_id files' = Some after /\
          ConversationManager.messages after
          = ConversationManager.messages before
            ++ [ {| ConversationManager.role := role;
                    ConversationManager.content := content;
                    ConversationManager.timestamp := utcnow1;
                    ConversationManager.citations := or_default citations [] |} ] /\
          ConversationManager.updated_at after = utcnow2 /\
          ConversationManager.conversation_id after
          = ConversationManager.conversation_id before /\
          ConversationManager.title after = ConversationManager.title before /\
          ConversationManager.created_at after = ConversationManager.created_at before /\
          forall other,
            ConversationManager.file_path self other
            <> ConversationManager.file_path self conversation_id ->
            ConversationManager.get_conversation self other files'
            = ConversationManager.get_conversation self other files
    end.
Proof.
  intros paths self id role content citations now1 now2 files.
  unfold ConversationManager.add_message.
  destruct (ConversationManager.get_conversation self id files) as [before|] eqn:Eg.
  - eexists before, _. split; [reflexivity|]. split.
    + unfold ConversationManager.get_conversation,
        ConversationManager._save_conversation. apply dict_get_set_eq.
    + repeat split. intros other Hne.
      unfold ConversationManager.get_conversation,
        ConversationManager._save_conversation.
      now apply dict_get_set_neq.
  - split; reflexivity.
Qed.

(** X28. The life of a conversation file.  [create_conversation] returns
    the new id, and the conversation read back under it has no message,
    both dates equal to the clock reading and a title that is never empty:
    the one given, or ["Conversation "] and the first eight characters of
    the id when none or an empty one is given.  [delete_conversation]
    answers whether the file was there; afterwards the conversation cannot
    be read and [add_message] raises.  Neither touches another file. *)
Theorem conversation_life_cycle :
  forall (paths : PathLib) (self : ConversationManager.t)
         (files : ConversationManager.Files),
    (forall title uuid4 utcnow,
       let (id, files') :=
         ConversationManager.create_conversation self title uuid4 utcnow files in
       id = uuid4 /\
       (exists created,
          ConversationManager.get_conversation self id files' = Some created /\
          ConversationManager.conversation_id created = id /\
          ConversationManager.messages created = [] /\
          ConversationManager.created_at created = utcnow /\
          ConversationManager.updated_at created = utcnow /\
          truthy (ConversationManager.title created) = true /\
          (forall text, title = Some text -> truthy text = true ->
                        ConversationManager.title created = text) /\
          (title = None \/ title = Some EmptyString ->
           ConversationManager.title created
           = ("Conversation " ++ substring 0 8 id)%string)) /\
       forall other,
         ConversationManager.file_path self other
         <> ConversationManager.file_path self id ->
         ConversationManager.get_conversation self other files'
         = ConversationManager.get_conversation self other files) /\
    (forall id,
       let (deleted, files') :=
         ConversationManager.delete_conversation self id files in
       (deleted = true <-> ConversationManager.get_conversation self id files <> None) /\
       (deleted = false -> files' = files) /\
       ConversationManager.get_conversation self id files' = None /\
       (forall role content citations utcnow1 utcnow2,
          ConversationManager.add_message self id role content citations
            utcnow1 utcnow2 files'
          = Raise ("Conversation " ++ id ++ " not found")%string) /\
       forall other,
         ConversationManager.file_path self other
         <> ConversationManager.file_path self id ->
         ConversationManager.get_conversation self other files'
         = ConversationManager.get_conversation self other files).
Proof.
  intros paths self files. split.
  - intros title uuid4 utcnow. cbn [ConversationManager.create_conversation].
    unfold ConversationManager.create_conversation.
    split; [reflexivity|]. split.
    + eexists. split.
      * unfold ConversationManager.get_conversation,
          ConversationManager._save_conversation. apply dict_get_set_eq.
      * cbn [ConversationManager.conversation_id ConversationManager.messages
             ConversationManager.created_at ConversationManager.updated_at
             ConversationManager.title].
        repeat split.
        -- destruct title as [text|]; [|reflexivity].
           destruct (truthy text) eqn:Et; [exact Et | reflexivity].
        -- intros text -> Ht. now rewrite Ht.
        -- intros [-> | ->]; reflexivity.
    + intros other Hne.
      unfold ConversationManager.get_conversation,
        ConversationManager._save_conversation.
      now apply dict_get_set_neq.
  - intros id. unfold ConversationManager.delete_conversation.
    destruct (dict_get (ConversationManager.file_path self id) files)
      as [found|] eqn:Eg.
    + assert (Hgone : ConversationManager.get_conversation self id
                        (ConversationManager.unlink
                           (ConversationManager.file_path self id) files) = None)
        by apply unlink_same.
      split; [|split; [|split; [|split]]].
      * unfold ConversationManager.get_conversation. rewrite Eg.
        split; [discriminate | reflexivity].
      * discriminate.
      * exact Hgone.
      * intros. unfold ConversationManager.add_message. now rewrite Hgone.
      * intros other Hne. now apply unlink_other.
    + split; [|split; [|split; [|split]]].
      * unfold ConversationManager.get_conversation. rewrite Eg.
        split; [discriminate | congruence].
      * reflexivity.
      * exact Eg.
      * intros. unfold ConversationManager.add_message,
          ConversationManager.get_conversation. now rewrite Eg.
      * reflexivity.
Qed.

(* ------------------------------------------------------------------ *)
(** * Adding chunks to the vector store *)
(* ------------------------------------------------------------------ *)

Section AddChunksFacts.
Import VectorStoreService.
Context {model : SentenceTransformer} {pinecone : PineconeIndex}.
Variable settings : Settings.

Lemma list_assign_length {A} (idx : nat) (v : A) (l : list A) :
  List.length (EmbeddingService.list_assign idx v l) = List.length l.
Proof.
  revert idx. induction l as [|x l IH]; intros [|idx]; cbn; auto.
Qed.

Lemma embed_batch_length (texts : list string) :
  List.length (EmbeddingService.embed_batch settings texts) = List.length texts.
Proof.
  unfold EmbeddingService.embed_batch.
  destruct texts as [|t texts]; [reflexivity|].
  set (all := t :: texts).
  destruct (map snd (EmbeddingService.valid_entries 0 all)); [apply repeat_length|].
  generalize (combine (map fst (EmbeddingService.valid_entries 0 all))
                (encode_batch (s :: l))).
  intros pairs.
  assert (H : forall result,
            List.length
              (fold_left (fun result '(idx, embedding) =>
                            EmbeddingService.list_assign idx embedding result)
                 pairs result) = List.length result).
  { induction pairs as [|[idx e] pairs IH]; intros result; [reflexivity|].
    cbn [fold_left]. now rewrite IH, list_assign_length. }
  rewrite H. apply repeat_length.
Qed.

Lemma firstn_add {A} (a b : nat) (l : list A) :
  firstn (a + b) l = firstn a l ++ firstn b (skipn a l).
Proof.
  revert l. induction a as [|a IH]; intros l; [reflexivity|].
  destruct l as [|x l]; cbn [Nat.add firstn skipn app].
  - now rewrite firstn_nil.
  - now rewrite IH.
Qed.

Lemma batches_concat {A} (step m : nat) (l : list A) :
  List.concat (map (fun i => firstn step (skipn i l))
                 (map (fun k => k * step) (seq 0 m)))
  = firstn (m * step) l.
Proof.
  induction m as [|m IH]; [reflexivity|].
  rewrite seq_S, !map_app, concat_app, IH. cbn [map List.concat Nat.add].
  change (S m * step) with (step + m * step).
  rewrite app_nil_r, (Nat.add_comm step (m * step)). symmetry. apply firstn_add.
Qed.

Lemma batch_count_covers (n : nat) : n <= (n + batch_size - 1) / batch_size * batch_size.
Proof.
  unfold batch_size.
  pose proof (Nat.div_mod_eq (n + 100 - 1) 100) as H.
  pose proof (Nat.mod_upper_bound (n + 100 - 1) 100). lia.
Qed.

Lemma batch_start_inside (n k : nat) :
  k < (n + batch_size - 1) / batch_size -> k * batch_size < n.
Proof.
  unfold batch_size. intros Hk.
  pose proof (Nat.div_mod_eq (n + 100 - 1) 100) as H.
  pose proof (Nat.mod_upper_bound (n + 100 - 1) 100). lia.
Qed.

Lemma upsert_loop_in_turn (starts : list nat) (vectors : list Pinecone.Vector) :
  forall total index,
    upsert_loop starts vectors total index
    = Props6.upsert_in_turn
        (map (fun i => firstn batch_size (skipn i vectors)) starts) total index.
Proof.
  induction starts as [|i starts IH]; intros total index; [reflexivity|].
  cbn [upsert_loop map Props6.upsert_in_turn].
  destruct (upsert _ index); [apply IH | reflexivity].
Qed.

Lemma upsert_in_turn_count (batches : list (list Pinecone.Vector)) :
  forall total index n index',
    Props6.upsert_in_turn batches total index = Return (n, index') ->
    n = total + List.length (List.concat batches).
Proof.
  induction batches as [|b batches IH]; intros total index n index' H.
  - injection H as <- _. cbn. lia.
  - cbn [Props6.upsert_in_turn] in H.
    destruct (upsert b index) as [i'|]; [|discriminate].
    apply IH in H. cbn [List.concat]. rewrite length_app. lia.
Qed.

Lemma vectors_stand_for (chunks : list ChunkingService.Chunk) :
  Forall2 Props6.stands_for
    (map vector_of
       (combine chunks
          (EmbeddingService.embed_batch settings
             (map ChunkingService.content chunks))))
    chunks.
Proof.
  pose proof (embed_batch_length (map ChunkingService.content chunks)) as Hl.
  rewrite length_map in Hl.
  revert Hl. generalize (EmbeddingService.embed_batch settings
                           (map ChunkingService.content chunks)).
  induction chunks as [|c chunks IH]; intros [|e es] Hl; try discriminate.
  - constructor.
  - cbn [combine map]. constructor.
    + repeat split.
    + apply IH. now injection Hl.
Qed.

End AddChunksFacts.

(** X29. [add_chunks] upserts one vector per chunk, in the order of the
    chunks, each with the id and the fields of its chunk and the first 1000
    characters of its content.  The vectors go to the index in consecutive
    batches of 100, the last one of 1 to 100; an upsert that raises stops
    the loop.  When [add_chunks] returns, the number it returns is the
    number of chunks, and for no chunk it is 0 and the index is not
    called. *)
Theorem add_chunks_batches :
  forall (model : SentenceTransformer) (pinecone : PineconeIndex)
         (settings : Settings) (chunks : list ChunkingService.Chunk) (index : Index),
    exists batches,
      Forall2 Props6.stands_for (List.concat batches) chunks /\
      (forall k, k < List.length batches ->
         let size := List.length (nth k batches []) in
         1 <= size <= 100 /\ (S k < List.length batches -> size = 100)) /\
      VectorStoreService.add_chunks settings chunks index
      = Props6.upsert_in_turn batches 0 index /\
      (chunks = [] -> batches = []) /\
      forall n index',
        VectorStoreService.add_chunks settings chunks index = Return (n, index') ->
        n = List.length chunks.
Proof.
  intros model pinecone settings chunks index.
  set (vectors := map (VectorStoreService.vector_of)
                    (combine chunks
                       (EmbeddingService.embed_batch settings
                          (map ChunkingService.content chunks)))).
  set (count := (List.length vectors + VectorStoreService.batch_size - 1)
                / VectorStoreService.batch_size).
  set (batches := map (fun i => firstn VectorStoreService.batch_size (skipn i vectors))
                    (map (fun k => k * VectorStoreService.batch_size) (seq 0 count))).
  assert (Hconcat : List.concat batches = vectors).
  { subst batches. rewrite batches_concat. apply firstn_all2.
    subst count. apply batch_count_covers. }
  assert (Hstand : Forall2 Props6.stands_for vectors chunks)
    by apply vectors_stand_for.
  assert (Hrun : VectorStoreService.add_chunks settings chunks index
                 = Props6.upsert_in_turn batches 0 index).
  { clear Hconcat Hstand. unfold VectorStoreService.add_chunks.
    destruct chunks as [|c chunks'].
    - reflexivity.
    - subst batches count. apply upsert_loop_in_turn. }
  exists batches. split; [now rewrite Hconcat|]. split; [|split; [exact Hrun|split]].
  - intros k Hk size. subst size batches.
    rewrite !length_map, length_seq in Hk. rewrite !length_map, length_seq.
    rewrite (nth_indep _ [] (firstn VectorStoreService.batch_size
                               (skipn (0 * VectorStoreService.batch_size) vectors)))
      by (rewrite !length_map, length_seq; exact Hk).
    rewrite map_map.
    rewrite (map_nth (fun k => firstn VectorStoreService.batch_size
                                 (skipn (k * VectorStoreService.batch_size) vectors))
               (seq 0 count) 0 k).
    rewrite seq_nth by exact Hk. cbn [Nat.add].
    rewrite length_firstn, length_skipn.
    pose proof (@batch_start_inside (List.length vectors) k Hk) as Hin.
    assert (Hnext : S k < count ->
                    S k * VectorStoreService.batch_size < List.length vectors)
      by apply batch_start_inside.
    clearbody count. clear Hconcat Hrun Hstand.
    generalize dependent (List.length vectors). intros n Hin Hnext.
    unfold VectorStoreService.batch_size in *. split; [lia|].
    intros Hk'. specialize (Hnext Hk'). lia.
  - intros ->. reflexivity.
  - intros n index' H. rewrite Hrun in H.
    apply upsert_in_turn_count in H. rewrite Hconcat in H.
    rewrite H. cbn [Nat.add]. exact (Forall2_length Hstand).
Qed.

(* ------------------------------------------------------------------ *)
(** * From the pages of a PDF to the page numbers of its chunks *)
(* ------------------------------------------------------------------ *)

Section DecimalFacts.
Import ChunkingService.

Lemma span_digits_uint (d : Decimal.uint) (x : string) :
  span_digits (NilEmpty.string_of_uint d ++ String "]" x)
  = (NilEmpty.string_of_uint d, String "]" x).
Proof.
  induction d; cbn [NilEmpty.string_of_uint append];
    try (cbn [span_digits]; rewrite IHd; reflexivity).
  reflexivity.
Qed.

Lemma str_of_nat_cases (n : nat) :
  (str_of_nat n = "0" /\ n = 0) \/
  (str_of_nat n = NilEmpty.string_of_uint (Nat.to_uint n) /\
   exists c s, str_of_nat n = String c s).
Proof.
  unfold str_of_nat, NilZero.string_of_uint.
  destruct (Nat.to_uint n) eqn:E;
    try (right; split; [reflexivity | cbn; eauto]).
  left. split; [reflexivity|].
  rewrite <- (DecimalNat.Unsigned.of_to n), E. reflexivity.
Qed.

Lemma span_digits_str_of_nat (n : nat) (x : string) :
  span_digits (str_of_nat n ++ String "]" x) = (str_of_nat n, String "]" x).
Proof.
  destruct (str_of_nat_cases n) as [[-> _]|[-> _]];
    [reflexivity | apply span_digits_uint].
Qed.

Lemma str_of_nat_nonempty (n : nat) : exists c s, str_of_nat n = String c s.
Proof.
  destruct (str_of_nat_cases n) as [[-> _]|[_ H]]; [eauto | exact H].
Qed.

Lemma int_digits_uint (d : Decimal.uint) :
  forall acc,
    int_digits (Z.of_nat acc) (NilEmpty.string_of_uint d)
    = Some (Z.of_nat (Nat.of_uint_acc d acc)).
Proof.
  induction d; intros acc; cbn [NilEmpty.string_of_uint int_digits Nat.of_uint_acc];
    try reflexivity;
    match goal with
    | |- context [is_digit ?c] => change (is_digit c) with true
    end; cbv iota; rewrite <- IHd; f_equal; rewrite Nat.tail_mul_spec;
    match goal with
    | |- context [nat_of_ascii ?c - 48] =>
        let v := eval vm_compute in (nat_of_ascii c - 48) in
        change (nat_of_ascii c - 48) with v
    end; lia.
Qed.

Lemma int_str_of_nat (n : nat) : int (str_of_nat n) = Return (Z.of_nat n).
Proof.
  destruct (str_of_nat_cases n) as [[E ->]|[E (c & s & Ec)]].
  - rewrite E. reflexivity.
  - unfold int. rewrite Ec, <- Ec, E.
    pose proof (int_digits_uint (Nat.to_uint n) 0) as H.
    change (Z.of_nat 0) with 0%Z in H. rewrite H.
    change (Nat.of_uint_acc (Nat.to_uint n) 0) with (Nat.of_uint (Nat.to_uint n)).
    now rewrite DecimalNat.Unsigned.of_to.
Qed.

End DecimalFacts.

Section MarkerFacts.
Import ChunkingService.

Lemma strip_prefix_app (p x : string) : strip_prefix p (p ++ x) = Some x.
Proof.
  induction p as [|c p IH]; [now destruct x|].
  cbn [append strip_prefix]. now rewrite Ascii.eqb_refl.
Qed.

Lemma strip_prefix_some (p : string) :
  forall s r, strip_prefix p s = Some r -> s = (p ++ r)%string.
Proof.
  induction p as [|c p IH]; intros s r H.
  - destruct s; cbn in H; now injection H as <-.
  - destruct s as [|d s]; cbn [strip_prefix] in H; [discriminate|].
    destruct (Ascii.eqb_spec c d) as [<-|]; [|discriminate].
    cbn [append]. f_equal. now apply IH.
Qed.

(** A prefix without line feed that matches across the end of [a] into a
    line feed matches inside [a]. *)
Lemma strip_prefix_boundary (p : string) :
  (forall c, In c (list_ascii_of_string p) -> c <> ascii_of_nat 10) ->
  forall a X,
    strip_prefix p (a ++ String (ascii_of_nat 10) X) <> None ->
    strip_prefix p a <> None.
Proof.
  induction p as [|c p IH]; intros Hp a X H.
  - now destruct a.
  - destruct a as [|d a].
    + exfalso. apply H. cbn [append strip_prefix].
      destruct (Ascii.eqb_spec c (ascii_of_nat 10)) as [E|]; [|reflexivity].
      exfalso. apply (Hp c); [now left | exact E].
    + cbn [append strip_prefix] in *.
      destruct (Ascii.eqb c d); [|exact H].
      apply (IH (fun c' Hc' => Hp c' (or_intror Hc')) a X H).
Qed.

Lemma match_page_needs_prefix (s : string) :
  strip_prefix "[Page " s = None -> match_page s = None.
Proof. unfold match_page. now intros ->. Qed.

Lemma string_length_app (a b : string) :
  String.length (a ++ b) = String.length a + String.length b.
Proof. induction a as [|c a IH]; cbn; [reflexivity | now rewrite IH]. Qed.

Lemma append_nil_r (a : string) : (a ++ "")%string = a.
Proof. induction a as [|c a IH]; cbn; [reflexivity | now rewrite IH]. Qed.

Lemma string_of_list_ascii_snoc (l : list ascii) (c : ascii) :
  string_of_list_ascii (l ++ [c])
  = (string_of_list_ascii l ++ String c EmptyString)%string.
Proof. induction l as [|x l IH]; cbn; [reflexivity | now rewrite IH]. Qed.

Lemma match_page_marker (n : nat) (rest : string) :
  match_page ("[Page " ++ str_of_nat n ++ "]" ++ newline ++ rest)
  = Some (str_of_nat n, 6 + String.length (str_of_nat n) + 2).
Proof.
  unfold match_page. rewrite strip_prefix_app.
  change ("]" ++ newline ++ rest)%string with (String "]" (newline ++ rest)).
  rewrite span_digits_str_of_nat.
  destruct (str_of_nat_nonempty n) as (c & s & E). rewrite E at 1.
  change (String "]" (newline ++ rest)) with (("]" ++ newline) ++ rest)%string.
  now rewrite strip_prefix_app.
Qed.

Lemma re_split_skip (m : string) :
  forall cur rest,
    re_split_from (String.length m) cur (m ++ rest) = re_split_from 0 cur rest.
Proof.
  induction m as [|c m IH]; intros cur rest; [reflexivity|].
  cbn [String.length append re_split_from]. apply IH.
Qed.

Lemma re_split_at_marker (n : nat) (cur : list ascii) (rest : string) :
  re_split_from 0 cur ("[Page " ++ str_of_nat n ++ "]" ++ newline ++ rest)
  = string_of_list_ascii (rev cur) :: str_of_nat n :: re_split_from 0 [] rest.
Proof.
  pose proof (match_page_marker n rest) as Hm.
  set (tail := ("Page " ++ str_of_nat n ++ "]" ++ newline ++ rest)%string).
  change ("[Page " ++ str_of_nat n ++ "]" ++ newline ++ rest)%string
    with (String "[" tail) in *.
  cbn [re_split_from]. rewrite Hm. do 2 f_equal.
  subst tail.
  replace ("Page " ++ str_of_nat n ++ "]" ++ newline ++ rest)%string
    with (("Page " ++ str_of_nat n ++ "]" ++ newline) ++ rest)%string
    by now rewrite !append_assoc.
  rewrite <- (re_split_skip ("Page " ++ str_of_nat n ++ "]" ++ newline) [] rest).
  f_equal.
  rewrite !string_length_app. cbn [String.length newline]. lia.
Qed.

Lemma re_split_scan (body : string) :
  forall cur tail,
    tail = EmptyString \/ (exists X, tail = String (ascii_of_nat 10) X) ->
    (forall pre suf, body = (pre ++ suf)%string -> strip_prefix "[Page " suf = None) ->
    re_split_from 0 cur (body ++ tail)
    = re_split_from 0 (rev (list_ascii_of_string body) ++ cur) tail.
Proof.
  induction body as [|c body IH]; intros cur tail Ht Hfree; [reflexivity|].
  cbn [append re_split_from list_ascii_of_string rev].
  assert (Hnone : match_page (String c (body ++ tail)) = None).
  { apply match_page_needs_prefix.
    destruct (strip_prefix "[Page " (String c (body ++ tail))) as [r|] eqn:E;
      [exfalso | reflexivity].
    assert (Hin : strip_prefix "[Page " (String c body) <> None).
    { destruct Ht as [->|[X ->]].
      - rewrite append_nil_r in E. congruence.
      - apply (@strip_prefix_boundary "[Page ") with (X := X).
        + intros a Ha. cbn in Ha.
          repeat (destruct Ha as [<-|Ha]; [discriminate|]). contradiction.
        + cbn [append]. congruence. }
    apply Hin. apply (Hfree EmptyString). reflexivity. }
  rewrite Hnone, IH.
  - now rewrite <- app_assoc.
  - exact Ht.
  - intros pre suf ->. apply (Hfree (String c pre)). reflexivity.
Qed.

Lemma re_split_entries (entries : list (nat * string)) :
  forall cur,
    entries <> [] ->
    (forall e pre suf, In e entries -> snd e = (pre ++ suf)%string ->
                       strip_prefix "[Page " suf = None) ->
    re_split_from 0 cur
      (String.concat (DocumentProcessor.newline ++ DocumentProcessor.newline)
         (map Props7.part entries))
    = string_of_list_ascii (rev cur) :: Props7.sections_of entries.
Proof.
  induction entries as [|[n body] rest IH]; intros cur Hne Hfree; [congruence|].
  assert (Hbody : forall pre suf, body = (pre ++ suf)%string ->
                                  strip_prefix "[Page " suf = None)
    by (intros pre suf; apply (Hfree (n, body)); now left).
  destruct rest as [|e rest].
  - cbn [map String.concat Props7.sections_of]. unfold Props7.part. cbn [fst snd].
    change DocumentProcessor.newline with newline.
    rewrite re_split_at_marker. do 2 f_equal.
    rewrite <- (append_nil_r body) at 1.
    rewrite re_split_scan by (auto; now left).
    cbn [re_split_from]. rewrite app_nil_r, rev_involutive.
    now rewrite string_of_list_ascii_of_string.
  - assert (Hrest : forall cur',
              re_split_from 0 cur'
                (String.concat (DocumentProcessor.newline ++ DocumentProcessor.newline)
                   (map Props7.part (e :: rest)))
              = string_of_list_ascii (rev cur') :: Props7.sections_of (e :: rest)).
    { intros cur'. apply IH; [discriminate|].
      intros e' pre suf He'. apply Hfree. now right. }
    change (Props7.sections_of ((n, body) :: e :: rest))
      with (str_of_nat n
            :: (body ++ DocumentProcessor.newline ++ DocumentProcessor.newline)%string
            :: Props7.sections_of (e :: rest)).
    change (String.concat (DocumentProcessor.newline ++ DocumentProcessor.newline)
              (map Props7.part ((n, body) :: e :: rest)))
      with (Props7.part (n, body)
            ++ (DocumentProcessor.newline ++ DocumentProcessor.newline)
            ++ String.concat (DocumentProcessor.newline ++ DocumentProcessor.newline)
                 (map Props7.part (e :: rest)))%string.
    set (Z := String.concat _ (map Props7.part (e :: rest))) in *.
    unfold Props7.part. cbn [fst snd].
    change DocumentProcessor.newline with newline.
    rewrite !append_assoc. rewrite re_split_at_marker. do 2 f_equal.
    change (newline ++ newline ++ Z)%string
      with (String (ascii_of_nat 10) (String (ascii_of_nat 10) Z)).
    rewrite re_split_scan by (auto; right; eauto).
    cbn [re_split_from].
    change (match_page (String (ascii_of_nat 10) (String (ascii_of_nat 10) Z)))
      with (@None (string * nat)).
    cbv iota. cbn [re_split_from].
    change (match_page (String (ascii_of_nat 10) Z)) with (@None (string * nat)).
    cbv iota. rewrite Hrest. f_equal.
    cbn [rev]. rewrite app_nil_r, rev_involutive, !string_of_list_ascii_snoc.
    rewrite string_of_list_ascii_of_string, append_assoc. reflexivity.
Qed.

End MarkerFacts.

Section ExtractedPages.
Import ChunkingService.
Context {text_splitter : TextSplitter}.
Variable md : DocumentMetadata.

Lemma rstrip_whitespace (ws : string) :
  Spec.whitespace_only ws = true -> rstrip ws = EmptyString.
Proof.
  induction ws as [|c ws IH]; [reflexivity|]. cbn [Spec.whitespace_only rstrip].
  destruct (is_space c); [|discriminate]. intros H. now rewrite (IH H).
Qed.

Lemma rstrip_trailing (s ws : string) :
  Spec.whitespace_only ws = true -> rstrip (s ++ ws) = rstrip s.
Proof.
  intros Hws. induction s as [|c s IH]; cbn [append rstrip].
  - now apply rstrip_whitespace.
  - now rewrite IH.
Qed.

Lemma strip_trailing (s ws : string) :
  Spec.whitespace_only ws = true -> strip (s ++ ws) = strip s.
Proof.
  intros Hws. unfold strip. induction s as [|c s IH]; cbn [append lstrip].
  - rewrite (lstrip_whitespace _ Hws). reflexivity.
  - destruct (is_space c); [exact IH|].
    change (String c (s ++ ws)) with (String c s ++ ws)%string.
    now apply rstrip_trailing.
Qed.

Lemma page_chunks_loop_content (Q : Chunk -> Prop) (page_num : Z)
    (pieces : list string) :
  (forall piece c,
     In piece pieces ->
     page_number (metadata c) = Some page_num ->
     content c = strip piece -> Q c) ->
  forall chunks idx,
    Forall Q chunks ->
    Forall Q (fst (page_chunks_loop md page_num pieces chunks idx)).
Proof.
  induction pieces as [|piece pieces IH]; intros HQ chunks idx Hf; [exact Hf|].
  cbn [page_chunks_loop].
  assert (HQ' : forall piece' c, In piece' pieces ->
                  page_number (metadata c) = Some page_num ->
                  content c = strip piece' -> Q c)
    by (intros piece' c Hin; apply HQ; now right).
  destruct (String.length (strip piece) <? 10); [now apply IH|].
  apply IH; [exact HQ'|]. apply Forall_app. split; [exact Hf|].
  constructor; [|constructor]. apply (HQ piece); [now left | reflexivity | reflexivity].
Qed.

Lemma pages_loop_content (Q : Chunk -> Prop) (all : list (nat * string)) :
  (forall n body piece c,
     In (n, body) all ->
     strip body <> "[No text content]" ->
     page_number (metadata c) = Some (Z.of_nat n) ->
     In piece (split_text (strip body)) ->
     content c = strip piece -> Q c) ->
  forall entries chunks idx out,
    (forall e, In e entries -> In e all) ->
    Forall Q chunks ->
    pages_loop md (Props7.sections_of entries) chunks idx = Return out ->
    Forall Q out.
Proof.
  intros HQ. induction entries as [|[n body] rest IH]; intros chunks idx out Hin Hf H.
  - cbn in H. now injection H as <-.
  - cbn [Props7.sections_of pages_loop] in H.
    rewrite int_str_of_nat in H.
    assert (Hstrip : strip match rest with
                           | [] => body
                           | _ => (body ++ DocumentProcessor.newline
                                   ++ DocumentProcessor.newline)%string
                           end = strip body).
    { destruct rest; [reflexivity|]. now apply strip_trailing. }
    rewrite Hstrip in H.
    assert (Hrest : forall e, In e rest -> In e all)
      by (intros e He; apply Hin; now right).
    destruct (truthy (strip body)) eqn:Et; cbn [negb orb] in H;
      [|now apply (IH chunks idx out)].
    destruct (String.eqb_spec (strip body) "[No text content]") as [E|E];
      [now apply (IH chunks idx out)|].
    assert (Hp : Forall Q (fst (page_chunks_loop md (Z.of_nat n)
                                  (split_text (strip body)) chunks idx))).
    { apply page_chunks_loop_content; [|exact Hf].
      intros piece c Hpiece Hpage Hcontent.
      apply (HQ n body piece c); auto. apply Hin. now left. }
    destruct (page_chunks_loop md (Z.of_nat n) (split_text (strip body)) chunks idx)
      as [chunks' idx'].
    now apply (IH chunks' idx' out).
Qed.

Lemma plumber_parts_entries (pages : list (option string)) :
  forall k,
    DocumentProcessor.plumber_parts k pages
    = map Props7.part (Props7.plumber_entries k pages).
Proof.
  induction pages as [|page pages IH]; intros k; [reflexivity|].
  cbn [DocumentProcessor.plumber_parts Props7.plumber_entries map]. rewrite IH.
  f_equal. unfold Props7.part. cbn [fst snd].
  destruct (truthy (or_default page EmptyString)); reflexivity.
Qed.

Lemma pypdf2_parts_entries (pages : list (option string)) :
  forall k,
    DocumentProcessor.pypdf2_parts k pages
    = map Props7.part (Props7.pypdf2_entries k pages).
Proof.
  induction pages as [|page pages IH]; intros k; [reflexivity|].
  cbn [DocumentProcessor.pypdf2_parts Props7.pypdf2_entries].
  destruct (truthy (or_default page EmptyString)); [|apply IH].
  cbn [map]. now rewrite IH.
Qed.

Lemma plumber_entries_pages (pages : list (option string)) :
  forall k n body,
    In (n, body) (Props7.plumber_entries k pages) ->
    body = "[No text content]" \/
    In (n, Some body) (combine (seq k (List.length pages)) pages).
Proof.
  induction pages as [|page pages IH]; intros k n body H; [contradiction|].
  cbn [Props7.plumber_entries List.length seq combine] in *.
  destruct H as [H|H].
  - injection H as <- <-.
    destruct page as [text|]; cbn [or_default].
    + destruct (truthy text); [right; now left | now left].
    + now left.
  - destruct (IH _ _ _ H) as [Hb|Hin]; [now left | right; now right].
Qed.

Lemma pypdf2_entries_pages (pages : list (option string)) :
  forall k n body,
    In (n, body) (Props7.pypdf2_entries k pages) ->
    In (n, Some body) (combine (seq k (List.length pages)) pages).
Proof.
  induction pages as [|page pages IH]; intros k n body H; [contradiction|].
  cbn [Props7.pypdf2_entries List.length seq combine] in *.
  destruct page as [text|]; cbn [or_default] in H.
  - destruct (truthy text); [|right; now apply IH].
    destruct H as [H|H]; [injection H as <- <-; now left | right; now apply IH].
  - right. now apply IH.
Qed.

Lemma no_marker_suffix (body : string) :
  ~ Props5.occurs "[Page " body ->
  forall pre suf, body = (pre ++ suf)%string -> strip_prefix "[Page " suf = None.
Proof.
  intros Hfree pre suf ->.
  destruct (strip_prefix "[Page " suf) as [r|] eqn:E; [|reflexivity].
  exfalso. apply Hfree. exists pre, r. f_equal. now apply strip_prefix_some.
Qed.

Lemma placeholder_no_marker : ~ Props5.occurs "[Page " "[No text content]".
Proof.
  intros H. apply contains_occurs in H. vm_compute in H. discriminate.
Qed.

(** What the chunker finds in a text written for [entries]. *)
Lemma chunk_document_entries (entries : list (nat * string))
    (chunks : list Chunk) (Q : Chunk -> Prop) :
  entries <> [] ->
  (forall e, In e entries -> ~ Props5.occurs "[Page " (snd e)) ->
  (forall n body piece c,
     In (n, body) entries ->
     strip body <> "[No text content]" ->
     page_number (metadata c) = Some (Z.of_nat n) ->
     In piece (split_text (strip body)) ->
     content c = strip piece -> Q c) ->
  chunk_document
    (String.concat (DocumentProcessor.newline ++ DocumentProcessor.newline)
       (map Props7.part entries)) md = Return chunks ->
  Forall (fun c => exists c',
                     Q c' /\
                     page_number (metadata c) = page_number (metadata c') /\
                     content c = content c') chunks.
Proof.
  intros Hne Hfree HQ H.
  assert (Hsplit : re_split
                     (String.concat (DocumentProcessor.newline ++ DocumentProcessor.newline)
                        (map Props7.part entries))
                   = EmptyString :: Props7.sections_of entries).
  { unfold re_split. rewrite re_split_entries; [reflexivity | exact Hne|].
    intros e pre suf He. apply no_marker_suffix. now apply Hfree. }
  unfold chunk_document in H. rewrite Hsplit in H.
  assert (Hlen : (1 <? List.length (EmptyString :: Props7.sections_of entries)) = true).
  { destruct entries as [|[n body] rest]; [congruence | reflexivity]. }
  rewrite Hlen in H. unfold _chunk_with_pages in H. cbn [tl] in H.
  destruct (pages_loop md (Props7.sections_of entries) [] 0) as [raw|e] eqn:Ep;
    [|discriminate].
  injection H as <-.
  apply (@pages_loop_content Q entries HQ entries [] 0 raw) in Ep; auto.
  rewrite Forall_map. eapply Forall_impl; [|exact Ep].
  intros c Hc. exists c. repeat split. exact Hc.
Qed.

End ExtractedPages.

(** X30. From the PDF to the page numbers of the chunks.  When the text
    [_extract_pdf] writes for a document is chunked, and no page text holds
    the opening of a page marker, every chunk carries the number of a page
    of the document and is a stripped piece of the text of that very page:
    the markers written by the extraction are the ones the chunker reads
    back, and pages without text give no chunk. *)
Theorem extracted_pages_reach_chunks :
  forall (text_splitter : TextSplitter)
         (plumber pypdf2 : Exc string (list (option string)))
         (content : string) (md : ChunkingService.DocumentMetadata)
         (chunks : list ChunkingService.Chunk),
    DocumentProcessor._extract_pdf plumber pypdf2 = Return content ->
    content <> EmptyString ->
    (forall text, In (Some text) (Props7.pages_read plumber pypdf2) ->
                  ~ Props5.occurs "[Page " text) ->
    ChunkingService.chunk_document content md = Return chunks ->
    Forall (Props7.from_page (Props7.pages_read plumber pypdf2)) chunks.
Proof.
  intros text_splitter plumber pypdf2 content md chunks Hx Hne Hfree Hc.
  set (pages := Props7.pages_read plumber pypdf2) in *.
  assert (Hentries : exists entries,
            content = String.concat (DocumentProcessor.newline ++ DocumentProcessor.newline)
                        (map Props7.part entries) /\
            forall n body, In (n, body) entries ->
              body = "[No text content]" \/ Props7.page_of pages n body).
  { unfold DocumentProcessor._extract_pdf, DocumentProcessor._extract_pdf_pypdf2 in Hx.
    subst pages. unfold Props7.pages_read, Props7.page_of.
    destruct plumber as [ps|e].
    - injection Hx as <-. exists (Props7.plumber_entries 1 ps).
      split; [now rewrite plumber_parts_entries|].
      intros n body. apply plumber_entries_pages.
    - destruct pypdf2 as [ps|e']; [|discriminate].
      injection Hx as <-. exists (Props7.pypdf2_entries 1 ps).
      split; [now rewrite pypdf2_parts_entries|].
      intros n body Hin. right. now apply pypdf2_entries_pages. }
  destruct Hentries as (entries & -> & Hpages).
  assert (Hnonempty : entries <> []) by (intros ->; now apply Hne).
  assert (Hmarker : forall e, In e entries -> ~ Props5.occurs "[Page " (snd e)).
  { intros [n body] He. cbn [snd]. destruct (Hpages n body He) as [->|Hp].
    - apply placeholder_no_marker.
    - apply Hfree. unfold Props7.page_of in Hp.
      now apply in_combine_r in Hp. }
  pose proof (@chunk_document_entries text_splitter md entries chunks
                (Props7.from_page pages) Hnonempty Hmarker) as H.
  eapply Forall_impl; [|apply H; [|exact Hc]].
  - intros c (c' & (p & text & piece & Hp & Hn & Hpiece & Hcontent) & Hpage & Hcont).
    exists p, text, piece. rewrite Hpage, Hcont. auto.
  - intros n body piece c Hin Hstrip Hpage Hpiece Hcontent.
    destruct (Hpages n body Hin) as [->|Hp].
    + exfalso. apply Hstrip. reflexivity.
    + exists n, body, piece. auto.
Qed.

Lemma extracted_pages_reach_chunks_witness :
  exists content chunks,
    DocumentProcessor._extract_pdf Props7.scanned (Raise "unused") = Return content /\
    ChunkingService.chunk_document (text_splitter := Spec.paragraph_splitter)
      content (Spec.doc "doc") = Return chunks /\
    chunks <> [] /\
    Forall (Props7.from_page (text_splitter := Spec.paragraph_splitter)
              (Props7.pages_read Props7.scanned (Raise "unused"))) chunks.
Proof.
  eexists. eexists. split; [reflexivity|].
  split; [vm_compute; reflexivity|]. split; [discriminate|].
  refine (@extracted_pages_reach_chunks Spec.paragraph_splitter Props7.scanned
            (Raise "unused") _ (Spec.doc "doc") _ eq_refl _ _ _).
  - discriminate.
  - intros text [H|[H|[]]]; [|discriminate].
    injection H as <-. intros Ho. apply contains_occurs in Ho.
    vm_compute in Ho. discriminate.
  - vm_compute; reflexivity.
Defined.
